(** * The blowout-prior mining pipeline ([scripts/mine_blowout_priors.py])

    A shallow embedding of the pipeline's pure core: the third-period
    margin computation, the fallback estimator, the manifest / raw-store
    bookkeeping of [main] and the prior aggregator, followed by the
    properties the specification states about them.

    Modelling conventions.
    - A float cell is a [num]: either [NaN] (pandas' missing value) or a
      finite value carried as an exact rational.  Binary64 rounding error
      and signed zeros are not modelled; the only operation that can leave
      the finite numbers, numpy's division by zero in the delta ratios, is
      folded into [NaN].  A value that sits exactly on a rounding tie or on
      a threshold here can fall on either side in binary64, so what a row
      stores is stated up to half a unit of its last decimal.
    - Python exceptions are values of an error monad ([result]).
    - The two CSV files are lists of the records written to them.  Reading
      a file back goes through pandas' parser: a text cell whose characters
      are one of the parser's missing-value markers comes back as NaN.
    - Upstream HTTP responses and the clock are parameters of a run.
    - Cells of numeric columns are [None] or floats; text in a numeric
      column and the infinities are outside the model. *)

From stdpp Require Import gmap strings list fin_maps.
From Stdlib Require Import QArith Qround Lqa Floats.
From Stdlib Require Qabs OrderedTypeEx.
From Stdlib Require Import Sorted.

#[local] Set Warnings "-inexact-float".

Local Open Scope Z_scope.

(** ** Numbers *)

Module Num.

Inductive num : Type :=
| NaN
| Fin (q : Q).

Definition of_Z (z : Z) : num := Fin (inject_Z z).

Definition is_nan (x : num) : bool :=
  match x with NaN => true | Fin _ => false end.

Definition lift2 (f : Q -> Q -> Q) (x y : num) : num :=
  match x, y with
  | Fin a, Fin b => Fin (Qred (f a b))
  | _, _ => NaN
  end.

Definition add : num -> num -> num := lift2 Qplus.
Definition sub : num -> num -> num := lift2 Qminus.
Definition mul : num -> num -> num := lift2 Qmult.

(** Division.  Every division of the fallback estimator is guarded by a
    positivity test on its divisor; numpy's unguarded division of a delta
    by a zero baseline yields a non-finite value, here [NaN]. *)
Definition div (x y : num) : num :=
  match x, y with
  | Fin a, Fin b => if Qeq_bool b 0 then NaN else Fin (Qred (a / b))
  | _, _ => NaN
  end.

(** Comparisons: anything compared with NaN is false. *)
Definition leb (x y : num) : bool :=
  match x, y with
  | Fin a, Fin b => Qle_bool a b
  | _, _ => false
  end.

Definition ltb (x y : num) : bool :=
  match x, y with
  | Fin a, Fin b => negb (Qle_bool b a)
  | _, _ => false
  end.

Definition eqb (x y : num) : bool :=
  match x, y with
  | Fin a, Fin b => Qeq_bool a b
  | _, _ => false
  end.

Definition geb (x y : num) : bool := leb y x.
Definition gtb (x y : num) : bool := ltb y x.

(** [round(x, d)]: round half to even at [d] decimals. *)
Definition round_half_even (q : Q) (d : nat) : Q :=
  let s := 10 ^ Z.of_nat d in
  let x := Qred (q * inject_Z s) in
  let n := Qnum x in
  let m := Z.pos (Qden x) in
  let f := n `div` m in
  let r := n `mod` m in
  let k := match 2 * r ?= m with
           | Lt => f
           | Gt => f + 1
           | Eq => if Z.even f then f else f + 1
           end in
  Qred (inject_Z k / inject_Z s).

Definition round (x : num) (d : nat) : num :=
  match x with
  | NaN => NaN
  | Fin q => Fin (round_half_even q d)
  end.

(** [int(x)] on a finite value: truncation toward zero. *)
Definition trunc (q : Q) : Z := Qnum q `quot` Z.pos (Qden q).

(** [Series.sum()]: pandas skips missing values. *)
Definition sum_skipna (l : list num) : num :=
  foldl (fun acc x => if is_nan x then acc else add acc x) (of_Z 0) l.

(** [ndarray.sum()]: NaN propagates. *)
Definition sum (l : list num) : num := foldl add (of_Z 0) l.

(** Numeric equality of two cells ([Fin] carries a fraction). *)
Definition equiv (x y : num) : Prop :=
  match x, y with
  | NaN, NaN => True
  | Fin a, Fin b => a == b
  | _, _ => False
  end.

End Num.

Import Num.

(** ** Exceptions *)

Inductive exn : Type :=
| TypeError
| ValueError
| KeyError
| IndexError
| ZeroDivisionError
| UpstreamError (name : string).

(** [type(e).__name__] *)
Definition exn_name (e : exn) : string :=
  match e with
  | TypeError => "TypeError"
  | ValueError => "ValueError"
  | KeyError => "KeyError"
  | IndexError => "IndexError"
  | ZeroDivisionError => "ZeroDivisionError"
  | UpstreamError name => name
  end.

Inductive result (A : Type) : Type :=
| Ok (a : A)
| Raise (e : exn).
Arguments Ok {A} a.
Arguments Raise {A} e.

#[global] Instance result_ret : MRet result := fun _ a => Ok a.
#[global] Instance result_bind : MBind result := fun _ _ f m =>
  match m with
  | Ok a => f a
  | Raise e => Raise e
  end.

(** ** Configuration *)

Definition BLOWOUT_MARGIN_Q4 : Z := 15.
Definition CLOSE_MARGIN_Q4 : Z := 10.
Definition BASELINE_MIN_POSS : num := Fin 100.
Definition TREATMENT_MIN_POSS : num := Fin 20.
Definition CLOSE_FTA_RATE_MAX : num := Fin 0.35.
Definition ENABLE_FOUL_FILTER : bool := true.
Definition BATCH_SIZE : nat := 10.

(** ** Table cells *)

(** A cell of a numeric column: Python's [None] or a float (NaN
    included).  Text in a numeric column and the infinities have no term. *)
Inductive cell : Type :=
| Null
| Num (x : num).

(** A cell of a text column: [None], a float NaN, or a string. *)
Inductive text : Type :=
| TNone
| TNaN
| TStr (s : string).

(** [float(c)] *)
Definition py_float (c : cell) : result num :=
  match c with
  | Null => Raise TypeError
  | Num x => Ok x
  end.

(** [int(c)] *)
Definition py_int (c : cell) : result Z :=
  match c with
  | Null => Raise TypeError
  | Num NaN => Raise ValueError
  | Num (Fin q) => Ok (trunc q)
  end.

(** [row.get(key, default)]: [None] stands for a key the row does not have. *)
Definition row_get (c : option cell) (default : cell) : cell :=
  match c with
  | None => default
  | Some v => v
  end.

(** [is_nan(row.get(key))] *)
Definition is_nan (c : option cell) : bool :=
  match c with
  | None | Some Null | Some (Num NaN) => true
  | Some (Num (Fin _)) => false
  end.

(** The range of numpy's [int64] and its wrap-around addition. *)
Definition INT64_MIN : Z := - 2 ^ 63.
Definition INT64_MAX : Z := 2 ^ 63 - 1.

Definition wrap64 (z : Z) : Z := (z + 2 ^ 63) `mod` 2 ^ 64 - 2 ^ 63.

Definition add64 (a b : Z) : Z := wrap64 (a + b).

(** [astype(int)] on a float: truncation toward zero; a value outside the
    range of [int64] converts to the smallest [int64] (the conversion is
    the machine's, here x86-64's). *)
Definition astype_int64 (q : Q) : Z :=
  let z := trunc q in
  if (INT64_MIN <=? z) && (z <=? INT64_MAX) then z else INT64_MIN.

(** [pd.to_numeric(c, errors="coerce")], [fillna(0)], [astype(int)] on one cell *)
Definition to_int_or_zero (c : cell) : Z :=
  match c with
  | Num (Fin q) => astype_int64 q
  | _ => 0
  end.

(** [str.strip()] over ASCII white space *)
Definition is_space (c : Ascii.ascii) : bool :=
  let n := Ascii.nat_of_ascii c in
  ((9 <=? n) && (n <=? 13) || (28 <=? n) && (n <=? 32))%nat.

Fixpoint lstrip (s : string) : string :=
  match s with
  | EmptyString => EmptyString
  | String c s' => if is_space c then lstrip s' else s
  end.

Definition strip (s : string) : string :=
  String.rev (lstrip (String.rev (lstrip s))).

(** [needle in hay] on strings *)
Definition contains (needle hay : string) : bool :=
  match String.index 0 needle hay with
  | Some _ => true
  | None => false
  end.

(** ** Data model *)

(** A row of the line-score table of a box-score summary. *)
Record LineRow : Type := {
  ls_TEAM_ID : cell;
  ls_PTS_QTR1 : cell;
  ls_PTS_QTR2 : cell;
  ls_PTS_QTR3 : cell
}.

Record Table : Type := {
  columns : list string;
  rows : list LineRow
}.

(** A row of the season's per-team game log (the game finder). *)
Record StatRow : Type := {
  GAME_ID : string;
  WL : text;
  TEAM_ID : option cell;
  TEAM_ABBREVIATION : text;
  PTS : option cell;
  FGA : option cell;
  FTA : option cell;
  TOV : option cell;
  OREB : option cell;
  MIN : option cell
}.

(** A row of the raw store.  [T] is the type of its four text cells: a
    string in the rows the estimator emits and the loop writes
    ([TeamPeriodRow]), a cell that may be missing in the table read back
    from the file ([RawRow]; [None] is NaN). *)
Record Row (T : Type) : Type := {
  game_id : T;
  team : T;
  game_state : T;
  team_state : T;
  pace : num;
  ortg : num;
  poss : num;
  fta_rate : num
}.
Arguments game_id {T} _.
Arguments team {T} _.
Arguments game_state {T} _.
Arguments team_state {T} _.
Arguments pace {T} _.
Arguments ortg {T} _.
Arguments poss {T} _.
Arguments fta_rate {T} _.
Arguments Build_Row {T}.

Abbreviation TeamPeriodRow := (Row string).
Abbreviation RawRow := (Row (option string)).

Record ManifestEntry : Type := {
  m_game_id : string;
  status : string;
  reason : string;
  processed_at_utc : string
}.

(** A key of the de-duplication set: a tuple of four cells, each a string
    or NaN. *)
Abbreviation Key := (option string * option string * option string * option string)%type.

(** The key of a row about to be staged: four strings. *)
Definition row_key (r : TeamPeriodRow) : Key :=
  (Some (game_id r), Some (team r), Some (game_state r), Some (team_state r)).

(** The key of a row of the table read back. *)
Definition frame_key (r : RawRow) : Key :=
  (game_id r, team r, game_state r, team_state r).

(** The raw table as [load_raw_cache] returns it. *)
Record DataFrame : Type := {
  df_columns : list string;
  df_rows : list RawRow
}.

Definition RAW_COLUMNS : list string :=
  ["game_id"; "team"; "game_state"; "team_state"; "pace"; "ortg"; "poss"; "fta_rate"]%string.

(** The markers [pd.read_csv] reads as a missing value by default, also in
    a column declared [dtype=str]. *)
Definition NA_VALUES : list string :=
  [""; "#N/A"; "#N/A N/A"; "#NA"; "-1.#IND"; "-1.#QNAN"; "-NaN"; "-nan";
   "1.#IND"; "1.#QNAN"; "<NA>"; "N/A"; "NA"; "NULL"; "NaN"; "None"; "n/a";
   "nan"; "null"]%string.

Definition na_value (s : string) : bool := existsb (String.eqb s) NA_VALUES.

(** A text cell as the parser returns it. *)
Definition read_text (s : string) : option string :=
  if na_value s then None else Some s.

Definition read_row (r : TeamPeriodRow) : RawRow :=
  {| game_id := read_text (game_id r); team := read_text (team r);
     game_state := read_text (game_state r); team_state := read_text (team_state r);
     pace := pace r; ortg := ortg r; poss := poss r; fta_rate := fta_rate r |}.

(** [pd.read_csv(filepath, dtype={"game_id": str, "team": str, ...})]; a
    file that does not exist gives the empty table. *)
Definition load_raw_cache (file : list TeamPeriodRow) : DataFrame :=
  {| df_columns := RAW_COLUMNS; df_rows := map read_row file |}.

(** [astype(str)] on a text cell: NaN becomes the string "nan". *)
Definition astype_str (c : option string) : string := default "nan"%string c.

(** A manifest entry as [main] sees it: the id read back and passed through
    [astype(str)].  The status is only ever tested for being DONE or
    SKIP_MEDIUM, texts the parser returns as they are and returns for no
    other text. *)
Definition read_entry (e : ManifestEntry) : ManifestEntry :=
  {| m_game_id := astype_str (read_text (m_game_id e)); status := status e;
     reason := reason e; processed_at_utc := processed_at_utc e |}.

Definition load_manifest (file : list ManifestEntry) : list ManifestEntry :=
  map read_entry file.

(** [append_to_csv]: an empty frame writes nothing. *)
Definition append_to_csv {A : Type} (df : list A) (file : list A) : list A :=
  match df with
  | [] => file
  | _ => file ++ df
  end.

(** ** Upstream responses *)

Inductive summary_response : Type :=
| SummaryRaises (e : exn)
| SummaryFrames (dfs : list Table).

(** The game finder either raises, returns no frame, returns a frame that
    lacks the [GAME_ID] or [WL] column, or returns the game log. *)
Inductive finder_response : Type :=
| FinderRaises (e : exn)
| FinderNone
| FinderMalformed
| FinderFrame (games : list StatRow).

Record Upstream : Type := {
  finder : finder_response;
  summary : string -> summary_response
}.

(** ** Game discovery *)

Definition notna (t : text) : bool :=
  match t with
  | TStr _ => true
  | _ => false
  end.

Definition get_completed_game_data_body (resp : finder_response) : result (list StatRow) :=
  match resp with
  | FinderRaises e => Raise e
  | FinderNone => Ok []
  | FinderMalformed => Raise KeyError
  | FinderFrame games =>
      match games with
      | [] => Ok []
      | _ =>
          let games := List.filter (fun g => String.prefix "002" (GAME_ID g)) games in
          let games := List.filter (fun g => notna (WL g)) games in
          Ok games
      end
  end.

Definition get_completed_game_data (resp : finder_response) : list StatRow :=
  match get_completed_game_data_body resp with
  | Ok games => games
  | Raise _ => []
  end.

(** ** Third-period margins *)

Definition LINE_REQUIRED : list string :=
  ["TEAM_ID"; "TEAM_ABBREVIATION"; "PTS_QTR1"; "PTS_QTR2"; "PTS_QTR3"]%string.

Definition issubset (req cols : list string) : bool :=
  forallb (fun c => existsb (String.eqb c) cols) req.

Fixpoint extract_line_score_table (dfs : list Table) : option Table :=
  match dfs with
  | [] => None
  | d :: rest =>
      if issubset LINE_REQUIRED (columns d) && (2 <=? length (rows d))%nat
      then Some d
      else extract_line_score_table rest
  end.

(** [line["PTS_QTR1"] + line["PTS_QTR2"] + line["PTS_QTR3"]] on [int64]
    columns. *)
Definition PTS_ENTER_Q4 (r : LineRow) : Z :=
  add64 (add64 (to_int_or_zero (ls_PTS_QTR1 r)) (to_int_or_zero (ls_PTS_QTR2 r)))
    (to_int_or_zero (ls_PTS_QTR3 r)).

Definition get_q3_margins_body (resp : summary_response) : result (option (gmap Z Z)) :=
  match resp with
  | SummaryRaises e => Raise e
  | SummaryFrames dfs =>
      match extract_line_score_table dfs with
      | None => Ok None
      | Some line =>
          if (length (rows line) <? 2)%nat then Ok None
          else
            match rows line with
            | t1 :: t2 :: _ =>
                t1_id ← py_int (ls_TEAM_ID t1);
                t2_id ← py_int (ls_TEAM_ID t2);
                let t1_pts := PTS_ENTER_Q4 t1 in
                let t2_pts := PTS_ENTER_Q4 t2 in
                Ok (Some (<[t2_id := t2_pts - t1_pts]> (<[t1_id := t1_pts - t2_pts]> ∅)))
            | _ => Raise IndexError
            end
      end
  end.

(** The bare [except] turns every exception into [None]. *)
Definition get_q3_margins (resp : summary_response) : option (gmap Z Z) :=
  match get_q3_margins_body resp with
  | Ok m => m
  | Raise _ => None
  end.

(** ** The fallback estimator *)

(** Collect the results of a loop body that may [continue] ([None]) or
    raise. *)
Fixpoint collect {A B : Type} (f : A -> result (option B)) (l : list A) : result (list B) :=
  match l with
  | [] => Ok []
  | x :: l' =>
      o ← f x;
      rest ← collect f l';
      Ok (match o with
          | Some b => b :: rest
          | None => rest
          end)
  end.

(** The game-state classification of one team from its signed margin. *)
Definition classify (margin : Z) : option (string * string) :=
  let abs_m := Z.abs margin in
  if BLOWOUT_MARGIN_Q4 <=? abs_m
  then Some ("blowout"%string,
             if 0 <? margin then "leading"%string else "trailing"%string)
  else if abs_m <=? CLOSE_MARGIN_Q4
       then Some ("close"%string, "neutral"%string)
       else None.

(** [str(row.get("TEAM_ABBREVIATION") or "").strip()] *)
Definition team_abbr_of (t : text) : string :=
  match t with
  | TNone => ""
  | TNaN => strip "nan"
  | TStr s => strip s
  end.

(** [poss = fga + (0.44 * fta) - oreb + tov] *)
Definition possessions (fga fta oreb tov : num) : num :=
  add (sub (add fga (mul (Fin 0.44) fta)) oreb) tov.

(** [pace = (poss / min_played) * 48 if min_played > 0 else 100] *)
Definition pace_of (poss min_played : num) : num :=
  if gtb min_played (of_Z 0) then mul (div poss min_played) (of_Z 48) else of_Z 100.

(** [ortg = (pts / poss) * 100 if poss > 0 else 110] *)
Definition ortg_of (pts poss : num) : num :=
  if gtb poss (of_Z 0) then mul (div pts poss) (of_Z 100) else of_Z 110.

(** One iteration of the loop over the game's rows. *)
Definition fallback_row (game_id : string) (margins : gmap Z Z) (row : StatRow)
  : result (option TeamPeriodRow) :=
  if is_nan (TEAM_ID row) then Ok None
  else
    tid ← py_int (row_get (TEAM_ID row) Null);
    match margins !! tid with
    | None => Ok None
    | Some margin =>
        match classify margin with
        | None => Ok None
        | Some (g_state, t_state) =>
            let team_abbr := team_abbr_of (TEAM_ABBREVIATION row) in
            pts ← py_float (row_get (PTS row) (Num (of_Z 0)));
            fga ← py_float (row_get (FGA row) (Num (of_Z 0)));
            fta ← py_float (row_get (FTA row) (Num (of_Z 0)));
            tov ← py_float (row_get (TOV row) (Num (of_Z 0)));
            oreb ← py_float (row_get (OREB row) (Num (of_Z 0)));
            min ← py_float (row_get (MIN row) (Num (of_Z 240)));
            let min_played := div min (of_Z 5) in
            let poss := possessions fga fta oreb tov in
            if leb poss (of_Z 0) then Ok None
            else
              let pace := pace_of poss min_played in
              let ortg := ortg_of pts poss in
              Ok (Some {| game_id := game_id; team := team_abbr;
                          game_state := g_state; team_state := t_state;
                          pace := round pace 2; ortg := round ortg 2;
                          poss := round (div poss (of_Z 4)) 2;
                          fta_rate := if gtb fga (of_Z 0)
                                      then round (div fta fga) 4
                                      else of_Z 0 |})
        end
    end.

Definition game_rows_of (game_id : string) (team_stats : list StatRow) : list StatRow :=
  List.filter (fun r => String.eqb (GAME_ID r) game_id) team_stats.

Definition fetch_q4_rows_fallback (game_id : string) (margins : gmap Z Z)
    (team_stats : list StatRow) : list TeamPeriodRow * string :=
  let game_rows := game_rows_of game_id team_stats in
  if (length game_rows <? 2)%nat then ([], "ERROR_NO_DATA"%string)
  else
    match collect (fallback_row game_id margins) game_rows with
    | Ok rows => (rows, match rows with
                        | [] => "SKIP_MEDIUM"
                        | _ => "DONE"
                        end%string)
    | Raise e => ([], ("ERROR_" ++ exn_name e)%string)
    end.

(** ** The prior aggregator *)

Record Baseline : Type := {
  b_pace : num;
  b_ortg : num;
  b_nPoss : Z
}.

Record Delta : Type := {
  paceDelta : num;
  pppDelta : num;
  d_nPoss : Z
}.

Record TeamPrior : Type := {
  p_team : string;
  baseline : Baseline;
  leading : option Delta;
  trailing : option Delta
}.

Record PriorsDoc : Type := {
  league : option string;
  season : string;
  generated_at : option string;
  priors : list TeamPrior
}.

(** [np.average(a, weights=w)] *)
Definition np_average (a weights : list num) : result num :=
  let scl := sum weights in
  if eqb scl (of_Z 0) then Raise ZeroDivisionError
  else Ok (div (sum (zip_with mul a weights)) scl).

(** [Series.unique()]: first occurrences, in order (the missing values of
    a column count as one value). *)
Fixpoint unique_from {A : Type} `{EqDecision A} (seen l : list A) : list A :=
  match l with
  | [] => []
  | x :: l' =>
      if bool_decide (x ∈ seen) then unique_from seen l'
      else x :: unique_from (x :: seen) l'
  end.

Definition unique {A : Type} `{EqDecision A} (l : list A) : list A := unique_from [] l.

Fixpoint insert_sorted (x : string) (l : list string) : list string :=
  match l with
  | [] => [x]
  | y :: l' => if String.leb x y then x :: l else y :: insert_sorted x l'
  end.

Definition sorted (l : list string) : list string := fold_right insert_sorted [] l.

(** [sorted] on the values of a text column: strings are ordered among
    themselves, NaN (a float) is ordered among floats, and comparing a
    string with a float raises. *)
Definition py_sorted (l : list (option string)) : result (list (option string)) :=
  match omap id l with
  | [] => Ok l
  | ss => if forallb (fun c : option string => bool_decide (is_Some c)) l
          then Ok (map Some (sorted ss))
          else Raise TypeError
  end.

(** [column == s]: NaN equals nothing. *)
Definition cell_eqb (c : option string) (s : string) : bool :=
  match c with
  | Some t => String.eqb t s
  | None => false
  end.

Definition has_column (c : string) (df : DataFrame) : bool :=
  existsb (String.eqb c) (df_columns df).

Definition team_rows (df : DataFrame) (team0 : string) : list RawRow :=
  List.filter (fun r => cell_eqb (team r) team0) (df_rows df).

Definition foul_filter_keeps (r : RawRow) : bool :=
  Num.is_nan (fta_rate r) || leb (fta_rate r) CLOSE_FTA_RATE_MAX.

(** The close rows of a team before and after the foul filter. *)
Definition close_rows_unfiltered (df : DataFrame) (team0 : string) : list RawRow :=
  List.filter (fun r => cell_eqb (game_state r) "close") (team_rows df team0).

Definition close_rows (df : DataFrame) (team0 : string) : list RawRow :=
  let close_df := close_rows_unfiltered df team0 in
  if ENABLE_FOUL_FILTER && has_column "fta_rate" df
  then List.filter foul_filter_keeps close_df
  else close_df.

Definition bucket_rows (df : DataFrame) (team0 state : string) : list RawRow :=
  let blowout_df :=
    List.filter (fun r => cell_eqb (game_state r) "blowout") (team_rows df team0) in
  List.filter (fun r => cell_eqb (team_state r) state) blowout_df.

(** The baseline of a team as held in [base_pace], [base_ortg] and
    [close_poss]; [None] when the team is skipped for lack of sample. *)
Definition team_baseline (df : DataFrame) (team0 : string) : result (option (num * num * num)) :=
  let close_df := close_rows df team0 in
  let close_poss := sum_skipna (map poss close_df) in
  if ltb close_poss BASELINE_MIN_POSS then Ok None
  else
    base_pace ← np_average (map pace close_df) (map poss close_df);
    base_ortg ← np_average (map ortg close_df) (map poss close_df);
    Ok (Some (base_pace, base_ortg, close_poss)).

Definition bucket_delta (df : DataFrame) (team0 state : string) (base_pace base_ortg : num)
  : result (option Delta) :=
  let s_df := bucket_rows df team0 state in
  let s_poss := sum_skipna (map poss s_df) in
  if geb s_poss TREATMENT_MIN_POSS then
    avg_pace ← np_average (map pace s_df) (map poss s_df);
    avg_ortg ← np_average (map ortg s_df) (map poss s_df);
    n ← py_int (Num s_poss);
    Ok (Some {| paceDelta := round (div avg_pace base_pace) 4;
                pppDelta := round (div avg_ortg base_ortg) 4;
                d_nPoss := n |})
  else Ok None.

(** One iteration of the loop over the teams. *)
Definition team_prior (df : DataFrame) (team0 : string) : result (option TeamPrior) :=
  b ← team_baseline df team0;
  match b with
  | None => Ok None
  | Some (base_pace, base_ortg, close_poss) =>
      n ← py_int (Num close_poss);
      lead ← bucket_delta df team0 "leading" base_pace base_ortg;
      trail ← bucket_delta df team0 "trailing" base_pace base_ortg;
      match lead, trail with
      | None, None => Ok None
      | _, _ =>
          Ok (Some {| p_team := team0;
                      baseline := {| b_pace := round base_pace 2;
                                     b_ortg := round base_ortg 2;
                                     b_nPoss := n |};
                      leading := lead; trailing := trail |})
      end
  end.

(** The loop body for a value of the team column.  For NaN the selection
    [df[df["team"] == team]] is empty (NaN equals nothing), so its close
    possessions sum to 0 and the threshold test ends the iteration. *)
Definition prior_of (df : DataFrame) (t : option string) : result (option TeamPrior) :=
  match t with
  | Some team0 => team_prior df team0
  | None => if ltb (sum_skipna []) BASELINE_MIN_POSS then Ok None else Raise ZeroDivisionError
  end.

Definition generate_priors (df : DataFrame) (season0 now : string) : result PriorsDoc :=
  match df_rows df with
  | [] => Ok {| league := None; season := season0; generated_at := None; priors := [] |}
  | _ =>
      teams ← py_sorted (unique (map team (df_rows df)));
      ps ← collect (prior_of df) teams;
      Ok {| league := Some "NBA"%string; season := season0;
            generated_at := Some now; priors := ps |}
  end.

(** ** The main loop *)

Record LoopState : Type := {
  existing_keys : gset Key;
  batch_raw : list TeamPeriodRow;
  batch_manifest : list ManifestEntry;
  raw_file : list TeamPeriodRow;
  manifest_file : list ManifestEntry
}.

Definition processed_ids (retry_errors : bool) (manifest : list ManifestEntry) : gset string :=
  if retry_errors
  then list_to_set
         (map m_game_id
            (List.filter (fun e => existsb (String.eqb (status e)) ["DONE"; "SKIP_MEDIUM"]%string)
               manifest))
  else list_to_set (map m_game_id manifest).

Definition new_game_ids (retry_errors : bool) (manifest : list ManifestEntry)
    (all_game_ids : list string) : list string :=
  List.filter (fun g => bool_decide (g ∉ processed_ids retry_errors manifest)) all_game_ids.

(** [set(zip(raw_df["game_id"], raw_df["team"], ...)) if not raw_df.empty
    else set()] *)
Definition initial_keys (raw_df : DataFrame) : gset Key :=
  match df_rows raw_df with
  | [] => ∅
  | rs => list_to_set (map frame_key rs)
  end.

(** The de-duplicating loop over the rows of one game. *)
Fixpoint stage_rows (rs : list TeamPeriodRow) (keys : gset Key) (batch : list TeamPeriodRow)
  : gset Key * list TeamPeriodRow :=
  match rs with
  | [] => (keys, batch)
  | r :: rs' =>
      let key := row_key r in
      if decide (key ∈ keys) then stage_rows rs' keys batch
      else stage_rows rs' (keys ∪ {[key]}) (batch ++ [r])
  end.

Definition flush (st : LoopState) : LoopState :=
  {| existing_keys := existing_keys st;
     batch_raw := [];
     batch_manifest := [];
     raw_file := append_to_csv (batch_raw st) (raw_file st);
     manifest_file := append_to_csv (batch_manifest st) (manifest_file st) |}.

Definition flush_if_due (n i : nat) (st : LoopState) : LoopState :=
  if ((BATCH_SIZE <=? length (batch_manifest st)) || (i =? n - 1))%nat
  then flush st
  else st.

Definition add_manifest (e : ManifestEntry) (st : LoopState) : LoopState :=
  {| existing_keys := existing_keys st;
     batch_raw := batch_raw st;
     batch_manifest := batch_manifest st ++ [e];
     raw_file := raw_file st;
     manifest_file := manifest_file st |}.

(** [not margins]: [None] and the empty dict are both falsy. *)
Definition falsy (margins : option (gmap Z Z)) : bool :=
  match margins with
  | None => true
  | Some m => bool_decide (m = ∅)
  end.

Definition manifest_status (st : string) : string :=
  if contains "SKIP" st then "SKIP_MEDIUM"%string else "ERROR"%string.

(** The manifest entry and the staged rows of one game, as the body of the
    [try] block computes them; the flag tells whether the body ended in
    [continue].  Both calls catch their own exceptions, so the handler of
    the [try] block is never entered. *)
Definition game_outcome (up : Upstream) (all_games_df : list StatRow) (now : string)
    (gid : string) (keys : gset Key) (batch : list TeamPeriodRow)
  : bool * ManifestEntry * (gset Key * list TeamPeriodRow) :=
  let margins := get_q3_margins (summary up gid) in
  if falsy margins
  then (true,
        {| m_game_id := gid; status := "ERROR"; reason := "no_linescore";
           processed_at_utc := now |},
        (keys, batch))
  else
    let '(rs, st) := fetch_q4_rows_fallback gid (default ∅ margins) all_games_df in
    if String.eqb st "DONE"
    then (false,
          {| m_game_id := gid; status := "DONE"; reason := "success";
             processed_at_utc := now |},
          stage_rows rs keys batch)
    else (false,
          {| m_game_id := gid; status := manifest_status st; reason := st;
             processed_at_utc := now |},
          (keys, batch)).

(** One iteration of the loop over [enumerate(new_game_ids)]; [n] is
    [len(new_game_ids)]. *)
Definition process_game (up : Upstream) (all_games_df : list StatRow) (clock : nat -> string)
    (n : nat) (st : LoopState) (i : nat) (gid : string) : LoopState :=
  let '(continued, entry, (keys, batch)) :=
    game_outcome up all_games_df (clock i) gid (existing_keys st) (batch_raw st) in
  let st' := add_manifest entry
               {| existing_keys := keys; batch_raw := batch;
                  batch_manifest := batch_manifest st;
                  raw_file := raw_file st; manifest_file := manifest_file st |} in
  if continued then st' else flush_if_due n i st'.

Fixpoint main_loop (up : Upstream) (all_games_df : list StatRow) (clock : nat -> string)
    (n i : nat) (gids : list string) (st : LoopState) : LoopState :=
  match gids with
  | [] => st
  | gid :: rest =>
      main_loop up all_games_df clock n (S i) rest
        (process_game up all_games_df clock n st i gid)
  end.

(** ** The run *)

Record Files : Type := {
  raw_csv : list TeamPeriodRow;
  manifest_csv : list ManifestEntry;
  priors_json : option PriorsDoc
}.

Record Args : Type := {
  arg_season : string;
  arg_retry_errors : bool
}.

(** What a run observes besides its files: the upstream service and the
    clock (indexed by the position of the game; [now] stamps the priors). *)
Record World : Type := {
  upstream : Upstream;
  clock : nat -> string;
  now : string
}.

(** [main]: the exit code of the process and the files it leaves. *)
Definition main (args : Args) (w : World) (fs : Files) : Z * Files :=
  let manifest := load_manifest (manifest_csv fs) in
  let raw_df := load_raw_cache (raw_csv fs) in
  let keys := initial_keys raw_df in
  let all_games_df := get_completed_game_data (finder (upstream w)) in
  match all_games_df with
  | [] => (0, fs)
  | _ =>
      let all_game_ids := unique (map GAME_ID all_games_df) in
      let gids := new_game_ids (arg_retry_errors args) manifest all_game_ids in
      let st := main_loop (upstream w) all_games_df (clock w) (length gids) 0 gids
                  {| existing_keys := keys; batch_raw := []; batch_manifest := [];
                     raw_file := raw_csv fs; manifest_file := manifest_csv fs |} in
      let df := load_raw_cache (raw_file st) in
      match generate_priors df (arg_season args) (now w) with
      | Ok doc =>
          (0, {| raw_csv := raw_file st; manifest_csv := manifest_file st;
                 priors_json := Some doc |})
      | Raise _ =>
          (* an uncaught exception: exit code 1, the opened priors file is
             left without a document *)
          (1, {| raw_csv := raw_file st; manifest_csv := manifest_file st;
                 priors_json := None |})
      end
  end.

(** ** The response patch ([patch_nba_api]) *)

(** A parsed JSON value.  Numbers are the finite ones.  A dict is the list
    of its items in insertion order; its keys are hashable values. *)
#[local] Set Warnings "-register-all".
Inductive json : Type :=
| JNull
| JBool (b : bool)
| JNum (q : Q)
| JStr (s : string)
| JList (items : list json)
| JDict (fields : list (json * json)).

Definition as_number (v : json) : option Q :=
  match v with
  | JBool b => Some (if b then 1%Q else 0%Q)
  | JNum q => Some q
  | _ => None
  end.

(** [a == b] on hashable values: [True == 1 == 1.0]. *)
Definition key_eqb (a b : json) : bool :=
  match a, b with
  | JNull, JNull => true
  | JStr s, JStr t => String.eqb s t
  | _, _ =>
      match as_number a, as_number b with
      | Some x, Some y => Qeq_bool x y
      | _, _ => false
      end
  end.

Definition hashable (v : json) : bool :=
  match v with
  | JList _ | JDict _ => false
  | _ => true
  end.

Definition dict_get (k : json) (d : list (json * json)) : option json :=
  snd <$> List.find (fun kv => key_eqb k kv.1) d.

(** [d[k] = v]: an existing key keeps its place and its key object. *)
Fixpoint dict_set (k v : json) (d : list (json * json)) : list (json * json) :=
  match d with
  | [] => [(k, v)]
  | (k', v') :: d' =>
      if key_eqb k k' then (k', v) :: d' else (k', v') :: dict_set k v d'
  end.

(** [needle in v] *)
Definition py_contains (needle : string) (v : json) : result bool :=
  match v with
  | JDict d => Ok (bool_decide (is_Some (dict_get (JStr needle) d)))
  | JList l => Ok (existsb (key_eqb (JStr needle)) l)
  | JStr s => Ok (contains needle s)
  | _ => Raise TypeError
  end.

(** [v[k]] for a string [k] *)
Definition py_getitem (v : json) (k : string) : result json :=
  match v with
  | JDict d =>
      match dict_get (JStr k) d with
      | Some x => Ok x
      | None => Raise KeyError
      end
  | _ => Raise TypeError
  end.

(** [v[k] = x] for a string [k] *)
Definition py_setitem (v : json) (k : string) (x : json) : result json :=
  match v with
  | JDict d => Ok (JDict (dict_set (JStr k) x d))
  | _ => Raise TypeError
  end.

(** [if "rowSet" in ds and "data" not in ds: ds["data"] = ds["rowSet"]] *)
Definition with_data (ds : json) : result json :=
  has_rows ← py_contains "rowSet" ds;
  if (has_rows : bool) then
    (has_data ← py_contains "data" ds;
     if (has_data : bool) then Ok ds
     else (rs ← py_getitem ds "rowSet"; py_setitem ds "data" rs))
  else Ok ds.

(** [results[ds["name"]] = ds] after the [rowSet] step *)
Definition store_by_name (results : list (json * json)) (ds : json) : result (list (json * json)) :=
  ds' ← with_data ds;
  name ← py_getitem ds' "name";
  if hashable name then Ok (dict_set name ds' results) else Raise TypeError.

(** The loop over a plural [resultSets]. *)
Fixpoint by_name (data_sets : list json) (results : list (json * json)) : result (list (json * json)) :=
  match data_sets with
  | [] => Ok results
  | ds :: rest =>
      named ← py_contains "name" ds;
      if (named : bool) then (results' ← store_by_name results ds; by_name rest results')
      else by_name rest results
  end.

(** The body of the [try].  [raw] is [self.get_dict()].  [None] stands for
    [data_sets is None]; the branch that only logs leaves it so. *)
Definition patched_body (raw : result json) : result (option json) :=
  raw_dict ← raw;
  singular ← py_contains "resultSet" raw_dict;
  data_sets ← (if (singular : bool) then py_getitem raw_dict "resultSet"
               else
                 (plural ← py_contains "resultSets" raw_dict;
                  if (plural : bool) then py_getitem raw_dict "resultSets" else Ok JNull));
  match data_sets with
  | JNull => Ok None
  | JList l => results ← by_name l []; Ok (Some (JDict results))
  | JDict _ =>
      named ← py_contains "name" data_sets;
      if (named : bool) then (results ← store_by_name [] data_sets; Ok (Some (JDict results)))
      else Ok (Some data_sets)
  | _ => Ok (Some data_sets)
  end.

Inductive data_sets_result : Type :=
| Original
| Returned (v : json).

(** [patched_get_data_sets]: whatever is raised, and a [data_sets] of
    [None], hand over to the library's own [get_data_sets]. *)
Definition patched_get_data_sets (raw : result json) : data_sets_result :=
  match patched_body raw with
  | Ok (Some v) => Returned v
  | Ok None => Original
  | Raise _ => Original
  end.

(** The name under which a set is filed, if it is a dict that has one. *)
Definition set_name (ds : json) : option json :=
  match ds with
  | JDict d => dict_get (JStr "name") d
  | _ => None
  end.

(** The last set of a list filed under the key [k]. *)
Definition last_named (k : json) (sets : list json) : option json :=
  last (List.filter (fun ds => match set_name ds with
                               | Some n => key_eqb k n
                               | None => false
                               end) sets).

(** A set as the patch leaves it: [data] filled in from [rowSet]. *)
Definition normalized (ds : json) : json :=
  match with_data ds with
  | Ok ds' => ds'
  | Raise _ => ds
  end.

(** The sets the loop can file: dicts, named by a hashable value if at all. *)
Definition fileable (ds : json) : Prop :=
  exists d, ds = JDict d /\ forall n, dict_get (JStr "name") d = Some n -> hashable n = true.

(** The values on which [needle in v] raises: neither a dict, a list nor
    a string. *)
Definition not_iterable (v : json) : bool :=
  match v with
  | JNull | JBool _ | JNum _ => true
  | _ => false
  end.

(** ** The upload of the priors ([scripts/upload_blowout_priors_to_supabase.py]) *)

(** A row of the [team_blowout_priors] table as the script builds it from
    the priors document; [data.get("method")] and
    [data.get("thresholds")] are keys the aggregator never writes. *)
Record UploadRow : Type := {
  u_league : string;
  u_season : string;
  u_team_abbr : string;
  u_leading : option Delta;
  u_trailing : option Delta;
  u_baseline : Baseline;
  u_meta_generated_at : option string
}.

Inductive upload_outcome : Type :=
| UploadExit (code : Z)
| NoPriorsFound
| Upserted (rows0 : list UploadRow).

(** [not s] on an environment variable: unset or empty. *)
Definition env_missing (v : option string) : bool :=
  match v with
  | None => true
  | Some s => String.eqb s ""
  end.

Definition upload_rows (data : PriorsDoc) : list UploadRow :=
  map (fun p =>
         {| u_league := default "NBA"%string (league data);
            u_season := season data;
            u_team_abbr := p_team p;
            u_leading := leading p;
            u_trailing := trailing p;
            u_baseline := baseline p;
            u_meta_generated_at := generated_at data |})
      (priors data).

(** [main] of the upload script: [file] is the document at the given path,
    if there is one. *)
Definition upload_main (url key : option string) (file : option PriorsDoc) : upload_outcome :=
  if env_missing url || env_missing key then UploadExit 1
  else
    match file with
    | None => UploadExit 1
    | Some data =>
        match upload_rows data with
        | [] => NoPriorsFound
        | rows0 => Upserted rows0
        end
    end.

(** The columns of the upsert's [on_conflict]. *)
Definition conflict_key (r : UploadRow) : string * string * string :=
  (u_league r, u_season r, u_team_abbr r).

(** ** Notions used in the statements *)

(** The pace formula as the specification words it, with no guard on the
    minutes. *)
Definition spec_pace (poss0 mins : num) : num :=
  mul (div poss0 (div mins (of_Z 5))) (of_Z 48).

(** The possession estimate and the rating formula as the specification
    words them. *)
Definition spec_possessions (fga fta oreb tov : Q) : Q := (fga + 0.44 * fta - oreb + tov)%Q.
Definition spec_ortg (pts poss0 : num) : num := mul (div pts poss0) (of_Z 100).

(** The possession-weighted mean of a column over some rows, as the
    specification words it: the sum of value * poss divided by the sum of
    poss. *)
Definition weighted_mean_of (f : RawRow -> num) (rs : list RawRow) : num :=
  div (sum (map (fun r => mul (f r) (poss r)) rs)) (sum (map poss rs)).

(** The same mean over rational (value, weight) pairs. *)
Definition Qsum (l : list Q) : Q := fold_right Qplus 0%Q l.
Definition Qweighted_mean (l : list (Q * Q)) : Q :=
  (Qsum (map (fun p => fst p * snd p) l) / Qsum (map snd l))%Q.

(** What the aggregator puts in the [leading] or [trailing] field of a
    team's entry, given the team's baseline [base_pace], [base_ortg]. *)
Definition bucket_field (df : DataFrame) (team0 state : string) (base_pace base_ortg : num)
    (field : option Delta) : Prop :=
  exists s,
    sum_skipna (map poss (bucket_rows df team0 state)) = Fin s /\
    ((geb (Fin s) TREATMENT_MIN_POSS = false /\ field = None)
     \/ (geb (Fin s) TREATMENT_MIN_POSS = true /\
         exists d,
           field = Some d /\
           paceDelta d
           = round (div (weighted_mean_of pace (bucket_rows df team0 state)) base_pace) 4 /\
           pppDelta d
           = round (div (weighted_mean_of ortg (bucket_rows df team0 state)) base_ortg) 4 /\
           d_nPoss d = trunc s)).

(** A sequence of runs of the pipeline, each with its arguments and its
    world, over the files the previous run left. *)
Definition run_all (runs : list (Args * World)) (fs : Files) : Files :=
  fold_left (fun fs0 run => (main (fst run) (snd run) fs0).2) runs fs.

(** Every manifest entry the loop has produced so far, written out or
    still staged. *)
Definition all_manifest (st : LoopState) : list ManifestEntry :=
  manifest_file st ++ batch_manifest st.

(** The manifest entry of one game. *)
Definition manifest_entry_of (up : Upstream) (all_games_df : list StatRow) (now0 gid : string)
  : ManifestEntry :=
  (game_outcome up all_games_df now0 gid ∅ []).1.2.


(** The possession estimate evaluated in binary64, for the worked example. *)
Definition possessions_binary64 (fga fta oreb tov : float) : float :=
  (fga + 0.44 * fta - oreb + tov)%float.

(** ** Fixtures *)

Definition stat_row (gid : string) (tid : Z) (abbr : string) (pts fga fta tov oreb mins : Z)
  : StatRow :=
  {| GAME_ID := gid; WL := TStr "W"; TEAM_ID := Some (Num (of_Z tid));
     TEAM_ABBREVIATION := TStr abbr;
     PTS := Some (Num (of_Z pts)); FGA := Some (Num (of_Z fga));
     FTA := Some (Num (of_Z fta)); TOV := Some (Num (of_Z tov));
     OREB := Some (Num (of_Z oreb)); MIN := Some (Num (of_Z mins)) |}.

Definition line_row (tid q1 q2 q3 : Z) : LineRow :=
  {| ls_TEAM_ID := Num (of_Z tid); ls_PTS_QTR1 := Num (of_Z q1);
     ls_PTS_QTR2 := Num (of_Z q2); ls_PTS_QTR3 := Num (of_Z q3) |}.

Definition line_table (l : list LineRow) : Table :=
  {| columns := "GAME_ID"%string :: LINE_REQUIRED; rows := l |}.

(** A game between team 1 (BOS) and team 2 (NYK), and the three margin
    pairs of the specification's classification example. *)
Definition game_A : string := "0022500001".
Definition stats_A : list StatRow :=
  [stat_row game_A 1 "BOS" 110 80 20 15 10 240;
   stat_row game_A 2 "NYK" 90 85 10 12 8 240].
Definition margins_of (m1 m2 : Z) : gmap Z Z := <[2 := m2]> (<[1 := m1]> ∅).

Definition entry (gid st why : string) : ManifestEntry :=
  {| m_game_id := gid; status := st; reason := why; processed_at_utc := "2026-01-05T03:12:45" |}.

(** A manifest with a finished game, an errored one, and nothing about
    game "0022500003". *)
Definition manifest_A : list ManifestEntry :=
  [entry "0022500001" "DONE" "success"; entry "0022500002" "ERROR" "no_linescore"].
Definition ids_A : list string := ["0022500001"; "0022500002"; "0022500003"]%string.

Definition raw_row (gid tm gs ts : string) (pace0 ortg0 poss0 rate : num) : TeamPeriodRow :=
  {| game_id := gid; team := tm; game_state := gs; team_state := ts;
     pace := pace0; ortg := ortg0; poss := poss0; fta_rate := rate |}.

(** The row of team 1 of [game_A] when it leads by 20. *)
Definition leading_row_A : TeamPeriodRow :=
  raw_row game_A "BOS" "blowout" "leading" (Fin (469 # 5)) (Fin 117.27) (Fin (469 # 20))
    (Fin (1 # 4)).

(** The row of team 2 of [game_A] when it trails by 20. *)
Definition trailing_row_A : TeamPeriodRow :=
  raw_row game_A "NYK" "blowout" "trailing" (Fin (467 # 5)) (Fin (2409 # 25)) (Fin (467 # 20))
    (Fin (147 # 1250)).

(** [game_A] in a game log that has no abbreviation for team 1: the
    estimator writes the empty text for the team. *)
Definition stats_blank : list StatRow :=
  [{| GAME_ID := game_A; WL := TStr "W"; TEAM_ID := Some (Num (of_Z 1));
      TEAM_ABBREVIATION := TNone;
      PTS := Some (Num (of_Z 110)); FGA := Some (Num (of_Z 80));
      FTA := Some (Num (of_Z 20)); TOV := Some (Num (of_Z 15));
      OREB := Some (Num (of_Z 10)); MIN := Some (Num (of_Z 240)) |};
   {| GAME_ID := game_A; WL := TStr "L"; TEAM_ID := Some (Num (of_Z 2));
      TEAM_ABBREVIATION := TStr "NYK";
      PTS := Some (Num (of_Z 90)); FGA := Some (Num (of_Z 85));
      FTA := Some (Num (of_Z 10)); TOV := Some (Num (of_Z 12));
      OREB := Some (Num (of_Z 8)); MIN := Some (Num (of_Z 240)) |}].

Definition blank_row : TeamPeriodRow :=
  raw_row game_A "" "blowout" "leading" (Fin (469 # 5)) (Fin 117.27) (Fin (469 # 20))
    (Fin (1 # 4)).

(** Three close rows of one team: a foul-heavy one, one without a
    free-throw rate, and an ordinary one. *)
Definition foul_heavy_row : TeamPeriodRow :=
  raw_row "0022500010" "BOS" "close" "neutral" (Fin 98) (Fin 112) (Fin 24) (Fin 0.5).
Definition rate_missing_row : TeamPeriodRow :=
  raw_row "0022500011" "BOS" "close" "neutral" (Fin 101) (Fin 109) (Fin 25) NaN.
Definition ordinary_row : TeamPeriodRow :=
  raw_row "0022500012" "BOS" "close" "neutral" (Fin 96) (Fin 115) (Fin 23) (Fin 0.2).
Definition df_fouls : DataFrame :=
  load_raw_cache [foul_heavy_row; rate_missing_row; ordinary_row].

(** Team 1 of [game_A] with no minutes recorded ([MIN = 0]). *)
Definition no_minutes_row : StatRow := stat_row game_A 1 "BOS" 110 80 20 15 10 0.

(** Team 1 of [game_A] with no field-goal attempts recorded ([FGA] is NaN). *)
Definition no_attempts_row : StatRow :=
  {| GAME_ID := game_A; WL := TStr "W"; TEAM_ID := Some (Num (of_Z 1));
     TEAM_ABBREVIATION := TStr "BOS";
     PTS := Some (Num (of_Z 110)); FGA := Some (Num NaN);
     FTA := Some (Num (of_Z 20)); TOV := Some (Num (of_Z 15));
     OREB := Some (Num (of_Z 10)); MIN := Some (Num (of_Z 240)) |}.

(** The specification's weighting example: two close rows of one team with
    (pace 100, poss 50) and (pace 90, poss 50), and a leading blowout
    sample that lets the team into the output. *)
Definition df_weighting : DataFrame :=
  load_raw_cache
    [raw_row "0022500020" "BOS" "close" "neutral" (Fin 100) (Fin 110) (Fin 50) (Fin 0.2);
     raw_row "0022500021" "BOS" "close" "neutral" (Fin 90) (Fin 120) (Fin 50) (Fin 0.3);
     raw_row "0022500022" "BOS" "blowout" "leading" (Fin 95) (Fin 115) (Fin 25) (Fin 0.1)].

(** A team with a valid baseline (pace 90, rating 110 over 100
    possessions), a leading sample of 25 possessions (pace 100, rating 120)
    and a trailing sample of only 12 possessions. *)
Definition df_ratio : DataFrame :=
  load_raw_cache
    [raw_row "0022500030" "DEN" "close" "neutral" (Fin 90) (Fin 110) (Fin 100) (Fin 0.2);
     raw_row "0022500031" "DEN" "blowout" "leading" (Fin 100) (Fin 120) (Fin 25) (Fin 0.1);
     raw_row "0022500032" "DEN" "blowout" "trailing" (Fin 105) (Fin 99) (Fin 12) (Fin 0.1)].

Definition entry_DEN : TeamPrior :=
  {| p_team := "DEN";
     baseline := {| b_pace := Fin 90; b_ortg := Fin 110; b_nPoss := 100 |};
     leading := Some {| paceDelta := Fin 1.1111; pppDelta := Fin 1.0909; d_nPoss := 25 |};
     trailing := None |}.
Definition doc_ratio : PriorsDoc :=
  {| league := Some "NBA"%string; season := "2025-26";
     generated_at := Some "2026-01-05T03:12:45"%string; priors := [entry_DEN] |}.

Definition no_files : Files := {| raw_csv := []; manifest_csv := []; priors_json := None |}.
Definition args_normal : Args := {| arg_season := "2025-26"; arg_retry_errors := false |}.
Definition args_retry : Args := {| arg_season := "2025-26"; arg_retry_errors := true |}.
Definition tick (i : nat) : string := "2026-01-05T03:12:45".

(** A world whose game finder returns nothing. *)
Definition world_no_games : World :=
  {| upstream := {| finder := FinderNone; summary := fun _ => SummaryFrames [] |};
     clock := tick; now := "2026-01-05T03:12:45" |}.

(** A line score whose first team identifier is missing: [int()] raises
    [ValueError] inside the margin computation. *)
Definition broken_line_score : summary_response :=
  SummaryFrames
    [line_table [{| ls_TEAM_ID := Num NaN; ls_PTS_QTR1 := Num (of_Z 30);
                    ls_PTS_QTR2 := Num (of_Z 30); ls_PTS_QTR3 := Num (of_Z 30) |};
                 line_row 2 20 25 25]].

Definition good_line_score : summary_response :=
  SummaryFrames [line_table [line_row 1 30 30 30; line_row 2 20 25 25]].

(** A line score that lists team 1 in both of its first two rows. *)
Definition same_team_line_score : summary_response :=
  SummaryFrames [line_table [line_row 1 20 25 25; line_row 1 30 30 30]].

(** [game_A] with a sound line score and a second game, "0022500002",
    whose line score is broken.  The game log lists team 1 of [game_A]
    twice. *)
Definition game_B : string := "0022500002".
Definition stats_AB : list StatRow :=
  [stat_row game_A 1 "BOS" 110 80 20 15 10 240;
   stat_row game_A 1 "BOS" 110 80 20 15 10 240;
   stat_row game_A 2 "NYK" 90 85 10 12 8 240;
   stat_row game_B 1 "BOS" 101 82 18 13 9 240;
   stat_row game_B 3 "LAL" 99 84 22 14 11 240].
Definition upstream_AB : Upstream :=
  {| finder := FinderFrame stats_AB;
     summary := fun gid => if String.eqb gid game_A then good_line_score
                           else broken_line_score |}.
Definition world_AB : World :=
  {| upstream := upstream_AB; clock := tick; now := "2026-01-05T03:12:45" |}.

(** A team row of [game_A] whose points are Python's [None]. *)
Definition stats_null_points : list StatRow :=
  [{| GAME_ID := game_A; WL := TStr "W"; TEAM_ID := Some (Num (of_Z 1));
      TEAM_ABBREVIATION := TStr "BOS"; PTS := Some Null;
      FGA := Some (Num (of_Z 80)); FTA := Some (Num (of_Z 20));
      TOV := Some (Num (of_Z 15)); OREB := Some (Num (of_Z 10));
      MIN := Some (Num (of_Z 240)) |};
   stat_row game_A 2 "NYK" 90 85 10 12 8 240].

(** The games of [stats_AB] discovered in the other order, so that the
    game with a line score comes last, and a raw store that already holds
    the rows of [game_A] while the manifest knows nothing of it. *)
Definition world_BA : World :=
  {| upstream := {| finder := FinderFrame (rev stats_AB); summary := summary upstream_AB |};
     clock := tick; now := "2026-01-05T03:12:45" |}.
Definition files_rows_only : Files :=
  {| raw_csv := (fetch_q4_rows_fallback game_A (margins_of 20 (-20)) stats_A).1;
     manifest_csv := []; priors_json := None |}.

(** The store a run over [stats_blank] wrote when team 1 led by 20, with
    the manifest entry of the game lost (the run was interrupted between
    its two appends, or the manifest was removed), and the world of the
    next run. *)
Definition files_blank : Files :=
  {| raw_csv := (fetch_q4_rows_fallback game_A (margins_of 20 (-20)) stats_blank).1;
     manifest_csv := []; priors_json := None |}.
Definition world_blank : World :=
  {| upstream := {| finder := FinderFrame stats_blank; summary := fun _ => good_line_score |};
     clock := tick; now := "2026-01-05T03:12:45" |}.

(** A table [extract_line_score_table] accepts: it has the five required
    columns and at least two rows. *)
Definition has_line_score (d : Table) : Prop :=
  (forall c, In c LINE_REQUIRED -> In c (columns d)) /\ (2 <= length (rows d))%nat.

(** A row of the game log that discovery keeps. *)
Definition is_completed_regular_season (g : StatRow) : Prop :=
  String.prefix "002" (GAME_ID g) = true /\ exists s, WL g = TStr s.

(** Every row of [rs] belongs to a game that [es] marks DONE. *)
Definition covered (rs : list TeamPeriodRow) (es : list ManifestEntry) : Prop :=
  forall r, In r rs ->
            exists e, In e es /\ m_game_id e = game_id r /\ status e = "DONE"%string.

(** The state in which [main] enters its loop, and the games it loops
    over. *)
Definition initial_state (fs : Files) : LoopState :=
  {| existing_keys := initial_keys (load_raw_cache (raw_csv fs));
     batch_raw := []; batch_manifest := [];
     raw_file := raw_csv fs; manifest_file := manifest_csv fs |}.

Definition games_of_run (args : Args) (w : World) (fs : Files) : list string :=
  new_game_ids (arg_retry_errors args) (load_manifest (manifest_csv fs))
    (unique (map GAME_ID (get_completed_game_data (finder (upstream w))))).

(** The state in which the loop of a run ends. *)
Definition final_state (args : Args) (w : World) (fs : Files) : LoopState :=
  main_loop (upstream w) (get_completed_game_data (finder (upstream w))) (clock w)
    (length (games_of_run args w fs)) 0 (games_of_run args w fs) (initial_state fs).

(** What the last step of a run that found games computes: the priors
    document, or the exception the process dies of. *)
Definition aggregation (args : Args) (w : World) (fs : Files) : result PriorsDoc :=
  generate_priors (load_raw_cache (raw_file (final_state args w fs)))
    (arg_season args) (now w).




(** Two priors files hold the same document up to its timestamp, or both
    hold none. *)
Definition same_document (a b : option PriorsDoc) : Prop :=
  match a, b with
  | Some d, Some d' => league d = league d' /\ season d = season d' /\ priors d = priors d'
  | None, None => True
  | _, _ => False
  end.

(** [world_BA] a day later. *)
Definition world_BA_later : World :=
  {| upstream := upstream world_BA; clock := fun _ => "2026-01-06T09:29:00"%string;
     now := "2026-01-06T09:30:00" |}.

(** The game has no usable line score: the loop body ends in [continue]. *)
Definition no_line_score (up : Upstream) (gid : string) : Prop :=
  falsy (get_q3_margins (summary up gid)) = true.

(** What the loop keeps true from one game to the next: both files have
    only grown, by rows covered by the entries written with them, and the
    staged rows are covered by the staged entries. *)
Definition in_step (raw0 : list TeamPeriodRow) (man0 : list ManifestEntry) (st : LoopState)
  : Prop :=
  covered (batch_raw st) (batch_manifest st)
  /\ exists fr fm,
      raw_file st = raw0 ++ fr /\ manifest_file st = man0 ++ fm /\ covered fr fm.

(** Files in which the manifest records an earlier failure of [game_B]
    and nothing else. *)
Definition files_one_error : Files :=
  {| raw_csv := []; manifest_csv := [entry game_B "ERROR" "no_linescore"];
     priors_json := None |}.

(** The cell [v] holds [x] kept to [d] decimals: a number with [d]
    decimals, within half a unit of the last of them of [x]. *)
Definition kept_to (d : nat) (v : num) (x : Q) : Prop :=
  exists (y : Q) (k : Z),
    v = Fin y
    /\ (y == inject_Z k / inject_Z (10 ^ Z.of_nat d))%Q
    /\ (Qabs.Qabs (y - x) <= 1 / (2 * inject_Z (10 ^ Z.of_nat d)))%Q.

(** The cell [v] holds a number within [eps] of [x]. *)
Definition close_to (v : num) (x eps : Q) : Prop :=
  exists y, v = Fin y /\ (Qabs.Qabs (y - x) <= eps)%Q.

(** The order of [sorted]: strings by their characters' codes. *)
Definition string_le (a b : string) : Prop := String.leb a b = true.
Definition string_lt (a b : string) : Prop := String.ltb a b = true.

(** Two teams with a valid baseline and a leading sample, listed in the raw
    store against the alphabet, and a third team with close rows only. *)
Definition df_teams : DataFrame :=
  load_raw_cache
    [raw_row "0022500040" "MIA" "close" "neutral" (Fin 97) (Fin 112) (Fin 120) (Fin 0.2);
     raw_row "0022500041" "MIA" "blowout" "leading" (Fin 99) (Fin 118) (Fin 30) (Fin 0.1);
     raw_row "0022500042" "ATL" "close" "neutral" (Fin 101) (Fin 109) (Fin 150) (Fin 0.3);
     raw_row "0022500043" "ATL" "blowout" "trailing" (Fin 104) (Fin 102) (Fin 40) (Fin 0.2);
     raw_row "0022500044" "UTA" "close" "neutral" (Fin 95) (Fin 111) (Fin 200) (Fin 0.2)].

Definition doc_teams : PriorsDoc :=
  match generate_priors df_teams "2025-26" "2026-01-05T03:12:45" with
  | Ok doc => doc
  | Raise _ => {| league := None; season := ""; generated_at := None; priors := [] |}
  end.


(** A response with the plural envelope: two sets named alike and one
    without a name. *)
Definition envelope_plural : json :=
  JDict [(JStr "resource", JStr "boxscoresummary");
         (JStr "resultSets",
          JList [JDict [(JStr "name", JStr "LineScore");
                        (JStr "headers", JList [JStr "TEAM_ID"; JStr "PTS_QTR1"]);
                        (JStr "rowSet", JList [JList [JNum 1610612737; JNum 31]])];
                 JDict [(JStr "headers", JList [])];
                 JDict [(JStr "name", JStr "LineScore");
                        (JStr "headers", JList [JStr "TEAM_ID"; JStr "PTS_QTR1"]);
                        (JStr "rowSet", JList [JList [JNum 1610612748; JNum 24]])]])].


(** * Properties *)

(** ** The error monad and [collect] *)

Lemma bind_Ok {A B : Type} (m : result A) (f : A -> result B) (b : B) :
  m ≫= f = Ok b -> exists a, m = Ok a /\ f a = Ok b.
Proof. destruct m as [a|e]; simpl; [eauto | discriminate]. Qed.

Ltac inv_bind H :=
  let a := fresh "a" in
  let Ha := fresh "Ha" in
  apply bind_Ok in H; destruct H as (a & Ha & H).

Lemma collect_In {A B : Type} (f : A -> result (option B)) (l : list A) (out : list B) :
  collect f l = Ok out ->
  forall b, In b out <-> exists x, In x l /\ f x = Ok (Some b).
Proof.
  revert out. induction l as [|x l IH]; intros out H b; simpl in H.
  - injection H as <-. split; [intros [] | intros (? & [] & _)].
  - inv_bind H. inv_bind H. injection H as <-.
    specialize (IH _ Ha0 b). destruct a as [b0|].
    + split.
      * intros [<-|Hin]; [exists x; simpl; auto|].
        apply IH in Hin as (y & Hy & Hfy). exists y; simpl; auto.
      * intros (y & [<-|Hy] & Hfy).
        -- rewrite Ha in Hfy. injection Hfy as ->. now left.
        -- right. apply IH. eauto.
    + rewrite IH. split.
      * intros (y & Hy & Hfy). exists y; simpl; auto.
      * intros (y & [<-|Hy] & Hfy); [congruence | eauto].
Qed.

(** ** Classification *)

Lemma classify_inv (m : Z) (g t : string) :
  classify m = Some (g, t) ->
  (BLOWOUT_MARGIN_Q4 <= Z.abs m /\ g = "blowout"%string /\
   t = if 0 <? m then "leading"%string else "trailing"%string)
  \/ (Z.abs m <= CLOSE_MARGIN_Q4 /\ g = "close"%string /\ t = "neutral"%string).
Proof.
  unfold classify.
  destruct (BLOWOUT_MARGIN_Q4 <=? Z.abs m) eqn:Hb.
  - intros [= <- <-]. left. apply Z.leb_le in Hb. auto.
  - destruct (Z.abs m <=? CLOSE_MARGIN_Q4) eqn:Hc; [|discriminate].
    intros [= <- <-]. right. apply Z.leb_le in Hc. auto.
Qed.

Lemma classify_medium (m : Z) :
  CLOSE_MARGIN_Q4 < Z.abs m < BLOWOUT_MARGIN_Q4 -> classify m = None.
Proof.
  intros [Hlo Hhi]. unfold classify.
  destruct (BLOWOUT_MARGIN_Q4 <=? Z.abs m) eqn:Hb; [apply Z.leb_le in Hb; lia|].
  destruct (Z.abs m <=? CLOSE_MARGIN_Q4) eqn:Hc; [apply Z.leb_le in Hc; lia|].
  reflexivity.
Qed.

(** ** One row of the fallback estimator *)

Lemma fallback_row_inv gid (margins : gmap Z Z) srow r :
  fallback_row gid margins srow = Ok (Some r) ->
  exists tid margin g_state t_state pts fga fta tov oreb mins,
    is_nan (TEAM_ID srow) = false /\
    py_int (row_get (TEAM_ID srow) Null) = Ok tid /\
    margins !! tid = Some margin /\
    classify margin = Some (g_state, t_state) /\
    py_float (row_get (PTS srow) (Num (of_Z 0))) = Ok pts /\
    py_float (row_get (FGA srow) (Num (of_Z 0))) = Ok fga /\
    py_float (row_get (FTA srow) (Num (of_Z 0))) = Ok fta /\
    py_float (row_get (TOV srow) (Num (of_Z 0))) = Ok tov /\
    py_float (row_get (OREB srow) (Num (of_Z 0))) = Ok oreb /\
    py_float (row_get (MIN srow) (Num (of_Z 240))) = Ok mins /\
    leb (possessions fga fta oreb tov) (of_Z 0) = false /\
    r = {| game_id := gid; team := team_abbr_of (TEAM_ABBREVIATION srow);
           game_state := g_state; team_state := t_state;
           pace := round (pace_of (possessions fga fta oreb tov) (div mins (of_Z 5))) 2;
           ortg := round (ortg_of pts (possessions fga fta oreb tov)) 2;
           poss := round (div (possessions fga fta oreb tov) (of_Z 4)) 2;
           fta_rate := if gtb fga (of_Z 0) then round (div fta fga) 4 else of_Z 0 |}.
Proof.
  unfold fallback_row. intros H.
  destruct (is_nan (TEAM_ID srow)) eqn:Hnan; [discriminate|].
  inv_bind H. rename a into tid.
  destruct (margins !! tid) as [margin|] eqn:Hm; [|discriminate].
  destruct (classify margin) as [[g t]|] eqn:Hc; [|discriminate].
  do 6 inv_bind H.
  destruct (leb _ _) eqn:Hposs in H; [discriminate|].
  injection H as <-.
  exists tid, margin, g, t, a, a0, a1, a2, a3, a4.
  repeat split; auto.
Qed.

Lemma classify_blowout (m : Z) :
  BLOWOUT_MARGIN_Q4 <= Z.abs m ->
  classify m = Some ("blowout"%string, if 0 <? m then "leading"%string else "trailing"%string).
Proof.
  intros H. unfold classify. apply Z.leb_le in H. rewrite H. reflexivity.
Qed.

Lemma classify_close (m : Z) :
  Z.abs m <= CLOSE_MARGIN_Q4 -> classify m = Some ("close"%string, "neutral"%string).
Proof.
  intros H. unfold classify.
  destruct (BLOWOUT_MARGIN_Q4 <=? Z.abs m) eqn:Hb.
  - apply Z.leb_le in Hb. unfold BLOWOUT_MARGIN_Q4, CLOSE_MARGIN_Q4 in *. lia.
  - apply Z.leb_le in H. rewrite H. reflexivity.
Qed.

Lemma collect_Ok_each {A B : Type} (f : A -> result (option B)) (l : list A) (out : list B) :
  collect f l = Ok out -> forall x, In x l -> exists o, f x = Ok o.
Proof.
  revert out. induction l as [|y l IH]; intros out H x; simpl in H; [intros []|].
  inv_bind H. inv_bind H. intros [<- | Hx]; [eauto | eapply IH; eauto].
Qed.

(** A team row with a classified margin either raises, or is skipped
    because its possession estimate is [<= 0], or gives a row with the
    classification. *)
Lemma fallback_row_classified gid (margins : gmap Z Z) srow tid m g t o :
  is_nan (TEAM_ID srow) = false ->
  py_int (row_get (TEAM_ID srow) Null) = Ok tid ->
  margins !! tid = Some m ->
  classify m = Some (g, t) ->
  fallback_row gid margins srow = Ok o ->
  exists pts fga fta tov oreb mins,
    py_float (row_get (PTS srow) (Num (of_Z 0))) = Ok pts /\
    py_float (row_get (FGA srow) (Num (of_Z 0))) = Ok fga /\
    py_float (row_get (FTA srow) (Num (of_Z 0))) = Ok fta /\
    py_float (row_get (TOV srow) (Num (of_Z 0))) = Ok tov /\
    py_float (row_get (OREB srow) (Num (of_Z 0))) = Ok oreb /\
    py_float (row_get (MIN srow) (Num (of_Z 240))) = Ok mins /\
    ((leb (possessions fga fta oreb tov) (of_Z 0) = true /\ o = None)
     \/ (leb (possessions fga fta oreb tov) (of_Z 0) = false
         /\ exists r, o = Some r /\ game_id r = gid
                      /\ team r = team_abbr_of (TEAM_ABBREVIATION srow)
                      /\ game_state r = g /\ team_state r = t)).
Proof.
  intros Hnan Htid Hm Hc. unfold fallback_row. rewrite Hnan, Htid. simpl. rewrite Hm, Hc.
  intros H. do 6 inv_bind H.
  exists a, a0, a1, a2, a3, a4. do 6 (split; [assumption|]).
  destruct (leb _ _) eqn:Hposs in H; injection H as <-.
  - left. auto.
  - right. split; [exact Hposs|]. eexists. split; [reflexivity|]. simpl. auto.
Qed.

Lemma fetch_DONE gid (margins : gmap Z Z) stats :
  (fetch_q4_rows_fallback gid margins stats).2 = "DONE"%string ->
  collect (fallback_row gid margins) (game_rows_of gid stats)
  = Ok (fetch_q4_rows_fallback gid margins stats).1.
Proof.
  unfold fetch_q4_rows_fallback.
  destruct (length (game_rows_of gid stats) <? 2)%nat; [discriminate|].
  destruct (collect _ _) as [out|e]; simpl; [reflexivity | discriminate].
Qed.

(** C2.  The classification answers for every margin: blowout, leading or
    trailing by the sign of [m], when [|m| >= 15]; close and neutral when
    [|m| <= 10]; nothing in between.  Every row the fallback estimator
    emits is the row of a team whose margin is classified, and carries the
    classification.  Conversely, when the estimator answers DONE, every
    team row of the game whose team has a classified margin is either
    skipped for a possession estimate that is [<= 0] or has its row,
    carrying the classification, among the rows returned; a team row whose
    margin has [10 < |m| < 15] emits nothing.  The margins (+20,-20),
    (+5,-5) and (+12,-12) give blowout leading/trailing, close/neutral
    twice, and no row. *)
Theorem classification_of_emitted_rows :
  (forall m,
      (BLOWOUT_MARGIN_Q4 <= Z.abs m ->
       classify m = Some ("blowout"%string,
                          if 0 <? m then "leading"%string else "trailing"%string))
      /\ (Z.abs m <= CLOSE_MARGIN_Q4 ->
          classify m = Some ("close"%string, "neutral"%string))
      /\ (CLOSE_MARGIN_Q4 < Z.abs m < BLOWOUT_MARGIN_Q4 -> classify m = None))
  /\ (forall gid (margins : gmap Z Z) stats r,
        In r (fetch_q4_rows_fallback gid margins stats).1 ->
        exists srow tid m,
          In srow (game_rows_of gid stats) /\
          py_int (row_get (TEAM_ID srow) Null) = Ok tid /\
          margins !! tid = Some m /\
          fallback_row gid margins srow = Ok (Some r) /\
          ((BLOWOUT_MARGIN_Q4 <= Z.abs m /\ game_state r = "blowout"%string /\
            team_state r = if 0 <? m then "leading"%string else "trailing"%string)
           \/ (Z.abs m <= CLOSE_MARGIN_Q4 /\ game_state r = "close"%string /\
               team_state r = "neutral"%string)))
  /\ (forall gid (margins : gmap Z Z) stats srow tid m,
        (fetch_q4_rows_fallback gid margins stats).2 = "DONE"%string ->
        In srow (game_rows_of gid stats) ->
        is_nan (TEAM_ID srow) = false ->
        py_int (row_get (TEAM_ID srow) Null) = Ok tid ->
        margins !! tid = Some m ->
        BLOWOUT_MARGIN_Q4 <= Z.abs m \/ Z.abs m <= CLOSE_MARGIN_Q4 ->
        (exists fga fta tov oreb,
            py_float (row_get (FGA srow) (Num (of_Z 0))) = Ok fga /\
            py_float (row_get (FTA srow) (Num (of_Z 0))) = Ok fta /\
            py_float (row_get (TOV srow) (Num (of_Z 0))) = Ok tov /\
            py_float (row_get (OREB srow) (Num (of_Z 0))) = Ok oreb /\
            leb (possessions fga fta oreb tov) (of_Z 0) = true /\
            fallback_row gid margins srow = Ok None)
        \/ (exists r,
               In r (fetch_q4_rows_fallback gid margins stats).1 /\
               fallback_row gid margins srow = Ok (Some r) /\
               team r = team_abbr_of (TEAM_ABBREVIATION srow) /\
               game_state r
               = (if BLOWOUT_MARGIN_Q4 <=? Z.abs m then "blowout"%string else "close"%string) /\
               team_state r
               = (if BLOWOUT_MARGIN_Q4 <=? Z.abs m
                  then if 0 <? m then "leading"%string else "trailing"%string
                  else "neutral"%string)))
  /\ (forall gid (margins : gmap Z Z) srow tid m,
        py_int (row_get (TEAM_ID srow) Null) = Ok tid ->
        margins !! tid = Some m ->
        CLOSE_MARGIN_Q4 < Z.abs m < BLOWOUT_MARGIN_Q4 ->
        fallback_row gid margins srow = Ok None)
  /\ map (fun r => (team r, game_state r, team_state r))
         (fetch_q4_rows_fallback game_A (margins_of 20 (-20)) stats_A).1
     = [("BOS", "blowout", "leading"); ("NYK", "blowout", "trailing")]%string
  /\ map (fun r => (team r, game_state r, team_state r))
         (fetch_q4_rows_fallback game_A (margins_of 5 (-5)) stats_A).1
     = [("BOS", "close", "neutral"); ("NYK", "close", "neutral")]%string
  /\ fetch_q4_rows_fallback game_A (margins_of 12 (-12)) stats_A = ([], "SKIP_MEDIUM"%string).
Proof.
  split; [|split; [|split; [|split; [|repeat split; vm_compute; reflexivity]]]].
  - intros m. split; [apply classify_blowout|]. split; [apply classify_close|].
    apply classify_medium.
  - intros gid margins stats r. unfold fetch_q4_rows_fallback.
    destruct (length (game_rows_of gid stats) <? 2)%nat; [intros []|].
    destruct (collect _ _) as [out|e] eqn:Hc; [|intros []].
    simpl. intros Hin.
    apply (collect_In _ _ _ Hc) in Hin as (srow & Hsrow & Hrow).
    destruct (fallback_row_inv _ _ _ _ Hrow)
      as (tid & m & g & t & pts & fga & fta & tov & oreb & mins
          & _ & Htid & Hm & Hcl & _ & _ & _ & _ & _ & _ & _ & ->).
    exists srow, tid, m. repeat split; auto.
    apply classify_inv in Hcl. simpl. exact Hcl.
  - intros gid margins stats srow tid m Hdone Hsrow Hnan Htid Hm Hout.
    pose proof (fetch_DONE _ _ _ Hdone) as Hc.
    destruct (collect_Ok_each _ _ _ Hc srow Hsrow) as [o Ho].
    assert (Hcl : classify m
                  = Some ((if BLOWOUT_MARGIN_Q4 <=? Z.abs m then "blowout"%string else "close"%string),
                          (if BLOWOUT_MARGIN_Q4 <=? Z.abs m
                           then if 0 <? m then "leading"%string else "trailing"%string
                           else "neutral"%string))).
    { destruct Hout as [Hb | Hcz].
      - rewrite (classify_blowout _ Hb). apply Z.leb_le in Hb. rewrite Hb. reflexivity.
      - rewrite (classify_close _ Hcz).
        destruct (BLOWOUT_MARGIN_Q4 <=? Z.abs m) eqn:Hb; [|reflexivity].
        apply Z.leb_le in Hb. unfold BLOWOUT_MARGIN_Q4, CLOSE_MARGIN_Q4 in *. lia. }
    destruct (fallback_row_classified _ _ _ _ _ _ _ _ Hnan Htid Hm Hcl Ho)
      as (pts & fga & fta & tov & oreb & mins & Hpts & Hfga & Hfta & Htov & Horeb & Hmin
          & [[Hposs ->] | (Hposs & r & -> & _ & Hteam & Hg & Ht)]).
    + left. exists fga, fta, tov, oreb. auto 10.
    + right. exists r. split; [|auto]. apply (collect_In _ _ _ Hc). eauto.
  - intros gid margins srow tid m Htid Hm Hmed. unfold fallback_row.
    destruct (is_nan (TEAM_ID srow)); [reflexivity|].
    rewrite Htid. simpl. rewrite Hm, (classify_medium _ Hmed). reflexivity.
Qed.

Lemma classification_of_emitted_rows_witness :
  ((exists fga fta tov oreb,
       py_float (row_get (FGA (stat_row game_A 1 "BOS" 110 80 20 15 10 240)) (Num (of_Z 0)))
       = Ok fga /\
       py_float (row_get (FTA (stat_row game_A 1 "BOS" 110 80 20 15 10 240)) (Num (of_Z 0)))
       = Ok fta /\
       py_float (row_get (TOV (stat_row game_A 1 "BOS" 110 80 20 15 10 240)) (Num (of_Z 0)))
       = Ok tov /\
       py_float (row_get (OREB (stat_row game_A 1 "BOS" 110 80 20 15 10 240)) (Num (of_Z 0)))
       = Ok oreb /\
       leb (possessions fga fta oreb tov) (of_Z 0) = true /\
       fallback_row game_A (margins_of 20 (-20)) (stat_row game_A 1 "BOS" 110 80 20 15 10 240)
       = Ok None)
   \/ (exists r,
          In r (fetch_q4_rows_fallback game_A (margins_of 20 (-20)) stats_A).1 /\
          fallback_row game_A (margins_of 20 (-20))
            (stat_row game_A 1 "BOS" 110 80 20 15 10 240) = Ok (Some r) /\
          team r = team_abbr_of (TEAM_ABBREVIATION (stat_row game_A 1 "BOS" 110 80 20 15 10 240)) /\
          game_state r = (if BLOWOUT_MARGIN_Q4 <=? Z.abs 20 then "blowout"%string else "close"%string) /\
          team_state r
          = (if BLOWOUT_MARGIN_Q4 <=? Z.abs 20
             then if 0 <? 20 then "leading"%string else "trailing"%string
             else "neutral"%string)))
  /\ fallback_row game_A (margins_of 12 (-12)) (stat_row game_A 1 "BOS" 110 80 20 15 10 240)
     = Ok None.
Proof.
  split.
  - apply (proj1 (proj2 (proj2 classification_of_emitted_rows))
             game_A (margins_of 20 (-20)) stats_A
             (stat_row game_A 1 "BOS" 110 80 20 15 10 240) 1 20).
    + vm_compute. reflexivity.
    + vm_compute. left. reflexivity.
    + reflexivity.
    + reflexivity.
    + reflexivity.
    + left. unfold BLOWOUT_MARGIN_Q4. simpl. lia.
  - apply (proj1 (proj2 (proj2 (proj2 classification_of_emitted_rows)))
             game_A (margins_of 12 (-12))
             (stat_row game_A 1 "BOS" 110 80 20 15 10 240) 1 12).
    + reflexivity.
    + reflexivity.
    + unfold CLOSE_MARGIN_Q4, BLOWOUT_MARGIN_Q4. simpl. lia.
Defined.

(** C9, with the case of one identifier twice.  When the margin
    computation returns a mapping, the line-score table has two leading
    rows whose team identifiers are exactly the keys of the mapping.  When
    the two identifiers differ, the mapping holds two entries, the
    differences of the points entering the last period taken both ways:
    the two differentials sum to zero.  When the two rows carry the same
    identifier, the mapping holds one entry, the differential of the second
    row. *)
Theorem margins_are_opposite resp (m : gmap Z Z) :
  get_q3_margins resp = Some m ->
  exists dfs line t1 t2 rest t1_id t2_id,
    resp = SummaryFrames dfs /\
    extract_line_score_table dfs = Some line /\
    rows line = t1 :: t2 :: rest /\
    py_int (ls_TEAM_ID t1) = Ok t1_id /\
    py_int (ls_TEAM_ID t2) = Ok t2_id /\
    dom m = {[t1_id; t2_id]} /\
    m !! t2_id = Some (PTS_ENTER_Q4 t2 - PTS_ENTER_Q4 t1) /\
    (t1_id <> t2_id ->
     size m = 2%nat /\
     exists d1 d2,
       m !! t1_id = Some d1 /\ m !! t2_id = Some d2 /\
       d1 = PTS_ENTER_Q4 t1 - PTS_ENTER_Q4 t2 /\ d1 + d2 = 0) /\
    (t1_id = t2_id -> m = {[t2_id := PTS_ENTER_Q4 t2 - PTS_ENTER_Q4 t1]}).
Proof.
  unfold get_q3_margins, get_q3_margins_body. intros H.
  destruct resp as [e|dfs]; [discriminate|].
  destruct (extract_line_score_table dfs) as [line|] eqn:Hline; [|discriminate].
  destruct (length (rows line) <? 2)%nat; [discriminate|].
  destruct (rows line) as [|t1 [|t2 rest]] eqn:Hrows; try discriminate.
  destruct (py_int (ls_TEAM_ID t1)) as [t1_id|] eqn:H1; [|discriminate].
  destruct (py_int (ls_TEAM_ID t2)) as [t2_id|] eqn:H2; [|discriminate].
  simpl in H. injection H as <-.
  exists dfs, line, t1, t2, rest, t1_id, t2_id.
  do 5 (split; [first [reflexivity | assumption]|]).
  split; [|split; [|split]].
  - rewrite !dom_insert_L, dom_empty_L, union_empty_r_L. apply union_comm_L.
  - apply lookup_insert_eq.
  - intros Hne. split.
    + rewrite map_size_insert_None by (rewrite lookup_insert_ne by congruence; apply lookup_empty).
      rewrite map_size_insert_None by apply lookup_empty.
      rewrite map_size_empty. reflexivity.
    + eexists _, _. split; [|split; [apply lookup_insert_eq|split; [reflexivity|lia]]].
      rewrite lookup_insert_ne by congruence. apply lookup_insert_eq.
  - intros ->. rewrite insert_insert_eq. apply insert_empty.
Qed.

Lemma margins_are_opposite_witness :
  exists dfs line t1 t2 rest t1_id t2_id,
    SummaryFrames [line_table [line_row 1 30 30 30; line_row 2 20 25 25]] = SummaryFrames dfs /\
    extract_line_score_table dfs = Some line /\
    rows line = t1 :: t2 :: rest /\
    py_int (ls_TEAM_ID t1) = Ok t1_id /\
    py_int (ls_TEAM_ID t2) = Ok t2_id /\
    dom (margins_of 20 (-20)) = {[t1_id; t2_id]} /\
    margins_of 20 (-20) !! t2_id = Some (PTS_ENTER_Q4 t2 - PTS_ENTER_Q4 t1) /\
    (t1_id <> t2_id ->
     size (margins_of 20 (-20)) = 2%nat /\
     exists d1 d2,
       margins_of 20 (-20) !! t1_id = Some d1 /\ margins_of 20 (-20) !! t2_id = Some d2 /\
       d1 = PTS_ENTER_Q4 t1 - PTS_ENTER_Q4 t2 /\ d1 + d2 = 0) /\
    (t1_id = t2_id ->
     margins_of 20 (-20) = {[t2_id := PTS_ENTER_Q4 t2 - PTS_ENTER_Q4 t1]}).
Proof.
  apply (margins_are_opposite
           (SummaryFrames [line_table [line_row 1 30 30 30; line_row 2 20 25 25]])
           (margins_of 20 (-20))).
  reflexivity.
Defined.

(** A line score whose first two rows carry the same team identifier (70
    and 90 points entering the last period): the computation succeeds and
    returns a mapping with a single entry, the differential 20 of the
    second row.  No two keys hold opposite differentials, and the
    differentials of the mapping do not sum to zero. *)
Lemma same_identifier_gives_one_differential :
  get_q3_margins same_team_line_score = Some {[1 := 20]}
  /\ size ({[1 := 20]} : gmap Z Z) = 1%nat
  /\ ~ (exists k1 k2 d1 d2,
          k1 <> k2 /\ ({[1 := 20]} : gmap Z Z) !! k1 = Some d1
          /\ ({[1 := 20]} : gmap Z Z) !! k2 = Some d2)
  /\ map_fold (fun _ d acc => d + acc) 0 ({[1 := 20]} : gmap Z Z) <> 0.
Proof.
  split; [vm_compute; reflexivity|]. split; [apply map_size_singleton|]. split.
  - intros (k1 & k2 & d1 & d2 & Hne & H1 & H2).
    apply lookup_singleton_Some in H1 as [<- _]. apply lookup_singleton_Some in H2 as [<- _].
    congruence.
  - rewrite map_fold_singleton. discriminate.
Qed.

(** ** The manifest filter *)

Lemma elem_of_processed_ids_normal manifest gid :
  gid ∈ processed_ids false manifest <-> exists e, In e manifest /\ m_game_id e = gid.
Proof.
  unfold processed_ids. rewrite elem_of_list_to_set, list_elem_of_In, in_map_iff.
  split; intros (e & H1 & H2); exists e; auto.
Qed.

Lemma elem_of_processed_ids_retry manifest gid :
  gid ∈ processed_ids true manifest <->
  exists e, In e manifest /\ m_game_id e = gid
            /\ (status e = "DONE"%string \/ status e = "SKIP_MEDIUM"%string).
Proof.
  unfold processed_ids. rewrite elem_of_list_to_set, list_elem_of_In, in_map_iff.
  split.
  - intros (e & Hid & Hin). apply filter_In in Hin as [Hin Hst].
    exists e. repeat split; auto. simpl in Hst.
    destruct (String.eqb_spec (status e) "DONE"); [auto|].
    destruct (String.eqb_spec (status e) "SKIP_MEDIUM"); [auto|discriminate].
  - intros (e & Hin & Hid & Hst). exists e. split; [auto|].
    apply filter_In. split; [auto|]. simpl.
    destruct Hst as [-> | ->]; reflexivity.
Qed.

Lemma in_new_game_ids retry manifest ids gid :
  In gid (new_game_ids retry manifest ids) <->
  In gid ids /\ gid ∉ processed_ids retry manifest.
Proof.
  unfold new_game_ids. rewrite filter_In, bool_decide_eq_true. reflexivity.
Qed.

(** C5.  For a discovered game id: in normal mode it is left out of the
    games to process exactly when the manifest has an entry for it, of any
    status; in retry-errors mode exactly when the manifest has an entry for
    it with status DONE or SKIP_MEDIUM.  So in retry-errors mode a game all
    of whose entries are ERROR is processed again. *)
Theorem skipped_iff_already_processed manifest ids gid :
  In gid ids ->
  (~ In gid (new_game_ids false manifest ids) <->
   exists e, In e manifest /\ m_game_id e = gid)
  /\ (~ In gid (new_game_ids true manifest ids) <->
      exists e, In e manifest /\ m_game_id e = gid
                /\ (status e = "DONE"%string \/ status e = "SKIP_MEDIUM"%string))
  /\ ((forall e, In e manifest -> m_game_id e = gid -> status e = "ERROR"%string) ->
      In gid (new_game_ids true manifest ids)).
Proof.
  intros Hin. split; [|split].
  - rewrite in_new_game_ids, <- elem_of_processed_ids_normal.
    destruct (decide (gid ∈ processed_ids false manifest)); tauto.
  - rewrite in_new_game_ids, <- elem_of_processed_ids_retry.
    destruct (decide (gid ∈ processed_ids true manifest)); tauto.
  - intros Herr. apply in_new_game_ids. split; [auto|].
    rewrite elem_of_processed_ids_retry. intros (e & He & Hid & Hst).
    specialize (Herr e He Hid). rewrite Herr in Hst.
    destruct Hst; discriminate.
Qed.

Lemma skipped_iff_already_processed_witness :
  ~ In "0022500002"%string (new_game_ids false manifest_A ids_A)
  /\ In "0022500002"%string (new_game_ids true manifest_A ids_A).
Proof.
  destruct (skipped_iff_already_processed manifest_A ids_A "0022500002")
    as (Hnormal & _ & Hretry).
  - simpl. right. left. reflexivity.
  - split.
    + apply Hnormal. exists (entry "0022500002" "ERROR" "no_linescore").
      split; [simpl; right; left|]; reflexivity.
    + apply Hretry. intros e [<- | [<- | []]]; simpl; intros Hid;
        [discriminate Hid | reflexivity].
Defined.

(** ** The foul filter *)

Lemma foul_filter_keeps_false r :
  foul_filter_keeps r = false <->
  exists q c, fta_rate r = Fin q /\ CLOSE_FTA_RATE_MAX = Fin c /\ (c < q)%Q.
Proof.
  unfold foul_filter_keeps, CLOSE_FTA_RATE_MAX. split.
  - destruct (fta_rate r) as [|q]; simpl; [discriminate|].
    intros H. exists q, 0.35%Q. repeat split.
    apply Qnot_le_lt. intros Hle. apply Qle_bool_iff in Hle. congruence.
  - intros (q & c & -> & [= <-] & Hlt). simpl.
    destruct (Qle_bool q 0.35) eqn:Hle; [|reflexivity].
    apply Qle_bool_iff in Hle. exfalso. eapply Qlt_not_le; eauto.
Qed.

Lemma close_rows_filtered df team0 :
  has_column "fta_rate" df = true ->
  close_rows df team0 = List.filter foul_filter_keeps (close_rows_unfiltered df team0).
Proof. unfold close_rows. intros ->. reflexivity. Qed.

(** C10.  With the foul filter enabled and the free-throw-rate column
    present, a close row of a team is dropped from the baseline exactly when
    its rate is a number strictly above [CLOSE_FTA_RATE_MAX]; a close row
    whose rate is missing (NaN) stays in the baseline. *)
Theorem foul_filter_drops_only_high_rates df team0 r :
  has_column "fta_rate" df = true ->
  In r (close_rows_unfiltered df team0) ->
  ENABLE_FOUL_FILTER = true
  /\ (~ In r (close_rows df team0) <->
      exists q c, fta_rate r = Fin q /\ CLOSE_FTA_RATE_MAX = Fin c /\ (c < q)%Q)
  /\ (fta_rate r = NaN -> In r (close_rows df team0)).
Proof.
  intros Hcol Hin. rewrite (close_rows_filtered _ _ Hcol).
  split; [reflexivity|]. split.
  - rewrite <- foul_filter_keeps_false, filter_In.
    destruct (foul_filter_keeps r); split; intros H.
    + exfalso. apply H. auto.
    + discriminate.
    + reflexivity.
    + intros [_ ?]. discriminate.
  - intros Hnan. apply filter_In. split; [auto|].
    unfold foul_filter_keeps. rewrite Hnan. reflexivity.
Qed.

Lemma foul_filter_drops_only_high_rates_witness :
  ~ In (read_row foul_heavy_row) (close_rows df_fouls "BOS")
  /\ In (read_row rate_missing_row) (close_rows df_fouls "BOS").
Proof.
  split.
  - destruct (foul_filter_drops_only_high_rates df_fouls "BOS" (read_row foul_heavy_row))
      as (_ & Hdrop & _).
    + reflexivity.
    + vm_compute. left. reflexivity.
    + apply Hdrop. exists 0.5%Q, 0.35%Q. repeat split.
  - destruct (foul_filter_drops_only_high_rates df_fouls "BOS" (read_row rate_missing_row))
      as (_ & _ & Hkeep).
    + reflexivity.
    + vm_compute. right. left. reflexivity.
    + apply Hkeep. reflexivity.
Defined.

Example foul_filter_on_df_fouls :
  close_rows df_fouls "BOS" = map read_row [rate_missing_row; ordinary_row].
Proof. vm_compute. reflexivity. Qed.

(** ** Arithmetic on cells *)

Lemma num_equiv_refl x : Num.equiv x x.
Proof. destruct x; simpl; [exact I | reflexivity]. Qed.

Lemma num_equiv_sym x y : Num.equiv x y -> Num.equiv y x.
Proof. destruct x, y; simpl; auto. intros H. symmetry. exact H. Qed.

Lemma num_equiv_trans x y z : Num.equiv x y -> Num.equiv y z -> Num.equiv x z.
Proof.
  destruct x, y, z; simpl; auto; try tauto.
  intros H1 H2. rewrite H1. exact H2.
Qed.

Lemma num_equiv_Fin_inv x q : Num.equiv x (Fin q) -> exists q', x = Fin q' /\ (q' == q)%Q.
Proof. destruct x as [|q']; simpl; [tauto | eauto]. Qed.

Lemma lift2_equiv (f : Q -> Q -> Q) x y a b :
  (forall a a' b b', (a == a')%Q -> (b == b')%Q -> (f a b == f a' b')%Q) ->
  Num.equiv x (Fin a) -> Num.equiv y (Fin b) -> Num.equiv (lift2 f x y) (Fin (f a b)).
Proof.
  intros Hf Hx Hy.
  apply num_equiv_Fin_inv in Hx as (a' & -> & Ha).
  apply num_equiv_Fin_inv in Hy as (b' & -> & Hb).
  simpl. rewrite Qred_correct. auto.
Qed.

Lemma add_equiv x y a b :
  Num.equiv x (Fin a) -> Num.equiv y (Fin b) -> Num.equiv (add x y) (Fin (a + b)).
Proof. apply lift2_equiv. intros ? ? ? ? -> ->. reflexivity. Qed.

Lemma sub_equiv x y a b :
  Num.equiv x (Fin a) -> Num.equiv y (Fin b) -> Num.equiv (sub x y) (Fin (a - b)).
Proof. apply lift2_equiv. intros ? ? ? ? -> ->. reflexivity. Qed.

Lemma mul_equiv x y a b :
  Num.equiv x (Fin a) -> Num.equiv y (Fin b) -> Num.equiv (mul x y) (Fin (a * b)).
Proof. apply lift2_equiv. intros ? ? ? ? -> ->. reflexivity. Qed.

Lemma div_equiv x y a b :
  ~ (b == 0)%Q ->
  Num.equiv x (Fin a) -> Num.equiv y (Fin b) -> Num.equiv (div x y) (Fin (a / b)).
Proof.
  intros Hb Hx Hy.
  apply num_equiv_Fin_inv in Hx as (a' & -> & Ha).
  apply num_equiv_Fin_inv in Hy as (b' & -> & Hb').
  simpl. destruct (Qeq_bool b' 0) eqn:Hz.
  - apply Qeq_bool_iff in Hz. rewrite Hb' in Hz. contradiction.
  - simpl. rewrite Qred_correct, Ha, Hb'. reflexivity.
Qed.

Lemma leb_equiv x y a b :
  Num.equiv x (Fin a) -> Num.equiv y (Fin b) -> leb x y = Qle_bool a b.
Proof.
  intros Hx Hy.
  apply num_equiv_Fin_inv in Hx as (a' & -> & Ha).
  apply num_equiv_Fin_inv in Hy as (b' & -> & Hb).
  simpl. destruct (Qle_bool a b) eqn:H.
  - apply Qle_bool_iff. rewrite Ha, Hb. apply Qle_bool_iff. exact H.
  - destruct (Qle_bool a' b') eqn:H'; [|reflexivity].
    apply Qle_bool_iff in H'. rewrite Ha, Hb in H'. apply Qle_bool_iff in H'. congruence.
Qed.

Lemma gtb_equiv x y a b :
  Num.equiv x (Fin a) -> Num.equiv y (Fin b) -> gtb x y = negb (Qle_bool a b).
Proof.
  intros Hx Hy.
  apply num_equiv_Fin_inv in Hx as (a' & -> & Ha).
  apply num_equiv_Fin_inv in Hy as (b' & -> & Hb).
  unfold gtb. simpl. f_equal.
  apply (leb_equiv (Fin a') (Fin b')); simpl; auto.
Qed.

Lemma Qle_bool_false a b : Qle_bool a b = false <-> (b < a)%Q.
Proof.
  split.
  - intros H. apply Qnot_le_lt. intros Hle. apply Qle_bool_iff in Hle. congruence.
  - intros H. destruct (Qle_bool a b) eqn:Hle; [|reflexivity].
    apply Qle_bool_iff in Hle. exfalso. eapply Qlt_not_le; eauto.
Qed.

Lemma round_half_even_proper q q' d :
  (q == q')%Q -> round_half_even q d = round_half_even q' d.
Proof.
  intros H. unfold round_half_even.
  assert (Hr : Qred (q * inject_Z (10 ^ Z.of_nat d)) = Qred (q' * inject_Z (10 ^ Z.of_nat d))).
  { apply Qred_complete. rewrite H. reflexivity. }
  rewrite Hr. reflexivity.
Qed.

Lemma round_equiv x q d :
  Num.equiv x (Fin q) -> round x d = Fin (round_half_even q d).
Proof.
  intros Hx. apply num_equiv_Fin_inv in Hx as (q' & -> & Hq).
  simpl. f_equal. apply round_half_even_proper. exact Hq.
Qed.

(** ** Rounding *)

Lemma nearest_integer_is_close (n : Z) (m : positive) :
  let f := n `div` Z.pos m in
  let r := n `mod` Z.pos m in
  let k := match 2 * r ?= Z.pos m with
           | Lt => f
           | Gt => f + 1
           | Eq => if Z.even f then f else f + 1
           end in
  (- (1 # 2) <= inject_Z k - (n # m) <= 1 # 2)%Q.
Proof.
  intros f r k.
  assert (Hdiv : n = Z.pos m * f + r) by (apply Z.div_mod; lia).
  assert (Hr : 0 <= r < Z.pos m) by (apply Z.mod_pos_bound; lia).
  assert (Hk : (k = f /\ 2 * r <= Z.pos m) \/ (k = f + 1 /\ Z.pos m <= 2 * r)).
  { unfold k. destruct (Z.compare_spec (2 * r) (Z.pos m)) as [He | Hl | Hg].
    - destruct (Z.even f); [left | right]; lia.
    - left. lia.
    - right. lia. }
  unfold Qle, Qminus, Qplus, Qopp, inject_Z. simpl.
  destruct Hk as [[-> Hle] | [-> Hle]]; split; nia.
Qed.

Lemma round_half_even_is_close q d :
  (Qabs.Qabs (round_half_even q d - q) <= 1 / (2 * inject_Z (10 ^ Z.of_nat d)))%Q.
Proof.
  unfold round_half_even.
  set (s := 10 ^ Z.of_nat d).
  assert (Hs : 0 < s) by (apply Z.pow_pos_nonneg; lia).
  assert (HS : (0 < inject_Z s)%Q) by (unfold Qlt; simpl; lia).
  set (x := Qred (q * inject_Z s)).
  assert (Hx : (x == q * inject_Z s)%Q) by apply Qred_correct.
  pose proof (nearest_integer_is_close (Qnum x) (Qden x)) as Hk. cbv zeta in Hk.
  set (k := match 2 * (Qnum x `mod` Z.pos (Qden x)) ?= Z.pos (Qden x) with
            | Lt => Qnum x `div` Z.pos (Qden x)
            | Gt => Qnum x `div` Z.pos (Qden x) + 1
            | Eq => if Z.even (Qnum x `div` Z.pos (Qden x))
                    then Qnum x `div` Z.pos (Qden x)
                    else Qnum x `div` Z.pos (Qden x) + 1
            end) in *.
  assert (Hxx : (Qnum x # Qden x == x)%Q) by (destruct x; reflexivity).
  rewrite Hxx in Hk. rewrite Qred_correct.
  assert (Hq : (q == x / inject_Z s)%Q).
  { rewrite Hx. field. lra. }
  assert (Hdiff : (inject_Z k / inject_Z s - q == (inject_Z k - x) / inject_Z s)%Q).
  { rewrite Hq. field. lra. }
  rewrite Hdiff. apply Qabs.Qabs_Qle_condition.
  assert (Hinv : (0 < / inject_Z s)%Q) by (apply Qinv_lt_0_compat; exact HS).
  assert (Hbound : (1 / (2 * inject_Z s) == (1 # 2) * / inject_Z s)%Q) by (field; lra).
  rewrite Hbound. unfold Qdiv. split.
  - assert (Hneg : (- ((1 # 2) * / inject_Z s) == (- (1 # 2)) * / inject_Z s)%Q) by ring.
    rewrite Hneg. apply Qmult_le_compat_r; [tauto | lra].
  - apply Qmult_le_compat_r; [tauto | lra].
Qed.

Lemma round_close_to x d eps :
  (1 / (2 * inject_Z (10 ^ Z.of_nat d)) <= eps)%Q ->
  close_to (round (Fin x) d) x eps.
Proof.
  intros Heps. exists (round_half_even x d). split; [reflexivity|].
  eapply Qle_trans; [apply round_half_even_is_close | exact Heps].
Qed.

(** A rounded number has the decimals it was rounded to. *)
Lemma round_half_even_decimals q d :
  exists k : Z, (round_half_even q d == inject_Z k / inject_Z (10 ^ Z.of_nat d))%Q.
Proof. unfold round_half_even. eexists. apply Qred_correct. Qed.

Lemma round_kept_to x d : kept_to d (round (Fin x) d) x.
Proof.
  destruct (round_half_even_decimals x d) as [k Hk].
  exists (round_half_even x d), k. split; [reflexivity|]. split; [exact Hk|].
  apply round_half_even_is_close.
Qed.

Lemma round_equiv_kept_to v x d : Num.equiv v (Fin x) -> kept_to d (round v d) x.
Proof.
  intros Hv. apply num_equiv_Fin_inv in Hv as (x' & -> & Hx).
  rewrite (round_equiv (Fin x') x d) by exact Hx. apply round_kept_to.
Qed.

(** ** The fallback estimator on numbers *)

Lemma possessions_equiv a b c d :
  Num.equiv (possessions (Fin a) (Fin b) (Fin c) (Fin d)) (Fin (a + 0.44 * b - c + d)).
Proof.
  unfold possessions.
  apply add_equiv; [|apply num_equiv_refl].
  apply sub_equiv; [|apply num_equiv_refl].
  apply add_equiv; [apply num_equiv_refl|].
  apply mul_equiv; apply num_equiv_refl.
Qed.

Lemma pace_of_positive_minutes P p m :
  Num.equiv P (Fin p) -> (0 < m)%Q ->
  Num.equiv (pace_of P (div (Fin m) (of_Z 5))) (Fin (p / (m / 5) * 48)).
Proof.
  intros HP Hm.
  assert (Hmp : Num.equiv (div (Fin m) (of_Z 5)) (Fin (m / 5))).
  { apply div_equiv; [discriminate | apply num_equiv_refl | apply num_equiv_refl]. }
  unfold pace_of.
  rewrite (gtb_equiv _ _ _ _ Hmp (num_equiv_refl (of_Z 0))).
  assert (Hpos : (0 < m / 5)%Q) by (apply Qlt_shift_div_l; lra).
  apply Qle_bool_false in Hpos. unfold of_Z, inject_Z at 1. 
  change (Qle_bool (m / 5) (0 # 1)) with (Qle_bool (m / 5) 0). rewrite Hpos. simpl negb. cbv iota.
  apply mul_equiv; [|apply num_equiv_refl].
  apply div_equiv; auto. apply Qle_bool_false in Hpos. lra.
Qed.

Lemma pace_of_no_minutes P m :
  (m <= 0)%Q -> pace_of P (div (Fin m) (of_Z 5)) = Fin 100.
Proof.
  intros Hm.
  assert (Hmp : Num.equiv (div (Fin m) (of_Z 5)) (Fin (m / 5))).
  { apply div_equiv; [discriminate | apply num_equiv_refl | apply num_equiv_refl]. }
  unfold pace_of.
  rewrite (gtb_equiv _ _ _ _ Hmp (num_equiv_refl (of_Z 0))).
  assert (Hle : Qle_bool (m / 5) 0 = true).
  { apply Qle_bool_iff. apply Qle_shift_div_r; lra. }
  unfold of_Z, inject_Z at 1.
  change (Qle_bool (m / 5) (0 # 1)) with (Qle_bool (m / 5) 0). rewrite Hle. reflexivity.
Qed.

Lemma ortg_of_positive x P p :
  Num.equiv P (Fin p) -> (0 < p)%Q ->
  Num.equiv (ortg_of (Fin x) P) (Fin (x / p * 100)).
Proof.
  intros HP Hp. unfold ortg_of.
  rewrite (gtb_equiv _ _ _ _ HP (num_equiv_refl (of_Z 0))).
  pose proof (proj2 (Qle_bool_false _ _) Hp) as Hpos.
  unfold of_Z, inject_Z at 1.
  change (Qle_bool p (0 # 1)) with (Qle_bool p 0). rewrite Hpos. simpl negb. cbv iota.
  apply mul_equiv; [|apply num_equiv_refl].
  apply div_equiv; [lra | apply num_equiv_refl | exact HP].
Qed.

Lemma possessions_NaN fga fta oreb tov :
  fga = NaN \/ fta = NaN \/ oreb = NaN \/ tov = NaN -> possessions fga fta oreb tov = NaN.
Proof.
  unfold possessions, add, sub, mul, lift2.
  intros H. destruct fga, fta, oreb, tov; try reflexivity.
  destruct H as [H | [H | [H | H]]]; discriminate.
Qed.

(** C6, with the guards of the code.  The possession estimate of four
    numbers is [fga + 0.44*fta - oreb + tov] (93.8 for 80, 20, 10, 15); the
    pace is [poss / (mins / 5) * 48] when the minutes are positive and the
    default 100 when they are not (zero, negative or missing); the rating
    is [pts / poss * 100] when the estimate is positive and the default 110
    when it is not a number.  For every row the estimator emits, with
    [fga], [fta], [oreb], [tov], [pts] and [mins] the statistics read from
    the team row: the estimate is not [<= 0]; the row holds the pace and
    the rating kept to 2 decimals, and as its possession count a quarter of
    the estimate kept to 2 decimals. *)
Theorem fallback_estimator_formulas :
  (forall a b c d,
      Num.equiv (possessions (Fin a) (Fin b) (Fin c) (Fin d))
        (Fin (spec_possessions a b c d)))
  /\ (spec_possessions 80 20 10 15 == 93.8)%Q
  /\ (forall p m, (0 < m)%Q ->
        Num.equiv (pace_of (Fin p) (div (Fin m) (of_Z 5))) (Fin (p / (m / 5) * 48)))
  /\ (forall P m, (m <= 0)%Q -> pace_of P (div (Fin m) (of_Z 5)) = Fin 100)
  /\ (forall P, pace_of P (div NaN (of_Z 5)) = Fin 100)
  /\ (forall x p, (0 < p)%Q -> Num.equiv (ortg_of (Fin x) (Fin p)) (Fin (x / p * 100)))
  /\ (forall X, ortg_of X NaN = Fin 110)
  /\ (forall gid (margins : gmap Z Z) srow r,
        fallback_row gid margins srow = Ok (Some r) ->
        exists pts fga fta tov oreb mins,
          py_float (row_get (PTS srow) (Num (of_Z 0))) = Ok pts /\
          py_float (row_get (FGA srow) (Num (of_Z 0))) = Ok fga /\
          py_float (row_get (FTA srow) (Num (of_Z 0))) = Ok fta /\
          py_float (row_get (TOV srow) (Num (of_Z 0))) = Ok tov /\
          py_float (row_get (OREB srow) (Num (of_Z 0))) = Ok oreb /\
          py_float (row_get (MIN srow) (Num (of_Z 240))) = Ok mins /\
          leb (possessions fga fta oreb tov) (of_Z 0) = false /\
          (forall a b c d,
              fga = Fin a -> fta = Fin b -> oreb = Fin c -> tov = Fin d ->
              (0 < spec_possessions a b c d)%Q /\
              kept_to 2 (poss r) (spec_possessions a b c d / 4) /\
              (forall x, pts = Fin x ->
                         kept_to 2 (ortg r) (x / spec_possessions a b c d * 100)) /\
              (pts = NaN -> ortg r = NaN) /\
              (forall m, mins = Fin m -> (0 < m)%Q ->
                         kept_to 2 (pace r) (spec_possessions a b c d / (m / 5) * 48))) /\
          (fga = NaN \/ fta = NaN \/ oreb = NaN \/ tov = NaN ->
           poss r = NaN /\ ortg r = Fin 110 /\
           (forall m, mins = Fin m -> (0 < m)%Q -> pace r = NaN)) /\
          (forall m, mins = Fin m -> (m <= 0)%Q -> pace r = Fin 100) /\
          (mins = NaN -> pace r = Fin 100)).
Proof.
  split; [intros a b c d; apply possessions_equiv|]. split; [reflexivity|].
  split; [intros p m Hm; apply pace_of_positive_minutes; [apply num_equiv_refl | exact Hm]|].
  split; [intros P m Hm; apply pace_of_no_minutes; exact Hm|].
  split; [reflexivity|].
  split; [intros x p Hp; apply ortg_of_positive; [apply num_equiv_refl | exact Hp]|].
  split; [reflexivity|].
  intros gid margins srow r Hrow.
  destruct (fallback_row_inv _ _ _ _ Hrow)
    as (tid & mg & g & t & pts & fga & fta & tov & oreb & mins
        & _ & _ & _ & _ & Hpts & Hfga & Hfta & Htov & Horeb & Hmin & Hposs & ->).
  exists pts, fga, fta, tov, oreb, mins. cbn [pace ortg poss].
  do 7 (split; [assumption|]).
  split; [|split; [|split]].
  - intros a b c d -> -> -> ->.
    pose proof (possessions_equiv a b c d) as HP. fold (spec_possessions a b c d) in HP.
    set (p := spec_possessions a b c d) in *.
    assert (Hp : (0 < p)%Q).
    { apply Qle_bool_false. rewrite <- Hposs. symmetry.
      apply (leb_equiv _ _ _ _ HP (num_equiv_refl (of_Z 0))). }
    split; [exact Hp|]. split; [|split; [|split]].
    + apply round_equiv_kept_to.
      apply div_equiv; [discriminate | exact HP | apply num_equiv_refl].
    + intros x ->. apply round_equiv_kept_to. apply ortg_of_positive; assumption.
    + intros ->. unfold ortg_of.
      rewrite (gtb_equiv _ _ _ _ HP (num_equiv_refl (of_Z 0))).
      pose proof (proj2 (Qle_bool_false _ _) Hp) as Hpos.
      unfold of_Z, inject_Z at 1.
      change (Qle_bool p (0 # 1)) with (Qle_bool p 0). rewrite Hpos. reflexivity.
    + intros m -> Hm. apply round_equiv_kept_to. apply pace_of_positive_minutes; assumption.
  - intros Hnan. rewrite (possessions_NaN _ _ _ _ Hnan). split; [reflexivity|].
    split; [reflexivity|]. intros m -> Hm.
    assert (Hmp : Num.equiv (div (Fin m) (of_Z 5)) (Fin (m / 5))).
    { apply div_equiv; [discriminate | apply num_equiv_refl | apply num_equiv_refl]. }
    unfold pace_of. rewrite (gtb_equiv _ _ _ _ Hmp (num_equiv_refl (of_Z 0))).
    assert (Hpos : (0 < m / 5)%Q) by (apply Qlt_shift_div_l; lra).
    apply Qle_bool_false in Hpos. unfold of_Z, inject_Z at 1.
    change (Qle_bool (m / 5) (0 # 1)) with (Qle_bool (m / 5) 0). rewrite Hpos. reflexivity.
  - intros m -> Hm. rewrite pace_of_no_minutes by assumption. reflexivity.
  - intros ->. reflexivity.
Qed.

Lemma fallback_estimator_formulas_witness :
  kept_to 2 (poss leading_row_A) (spec_possessions 80 20 10 15 / 4)
  /\ kept_to 2 (ortg leading_row_A) (110 / spec_possessions 80 20 10 15 * 100)
  /\ kept_to 2 (pace leading_row_A) (spec_possessions 80 20 10 15 / (240 / 5) * 48).
Proof.
  destruct (proj2 (proj2 (proj2 (proj2 (proj2 (proj2 (proj2 fallback_estimator_formulas))))))
              game_A (margins_of 20 (-20))
              (stat_row game_A 1 "BOS" 110 80 20 15 10 240) leading_row_A)
    as (pts & fga & fta & tov & oreb & mins
        & Hpts & Hfga & Hfta & Htov & Horeb & Hmin & _ & HQ & _).
  - reflexivity.
  - simpl in Hpts, Hfga, Hfta, Htov, Horeb, Hmin.
    injection Hpts as <-. injection Hfga as <-. injection Hfta as <-.
    injection Htov as <-. injection Horeb as <-. injection Hmin as <-.
    destruct (HQ 80%Q 20%Q 10%Q 15%Q eq_refl eq_refl eq_refl eq_refl)
      as (_ & Hposs & Hortg & _ & Hpace).
    split; [exact Hposs|]. split; [exact (Hortg 110%Q eq_refl)|].
    apply (Hpace 240%Q eq_refl). reflexivity.
Defined.

(** The specification's unguarded formulas fail where the guards of the
    code apply.  On a team row without minutes the emitted pace is the
    default 100, while the division the pace formula asks for has no value;
    on a team row whose field-goal attempts are missing the emitted rating
    is the default 110, while the rating formula gives no number. *)
Lemma unguarded_formulas_fail_at_the_guards :
  (exists r,
      fallback_row game_A (margins_of 20 (-20)) no_minutes_row = Ok (Some r) /\
      pace r = Fin 100 /\
      spec_pace (possessions (of_Z 80) (of_Z 20) (of_Z 10) (of_Z 15)) (of_Z 0) = NaN /\
      ~ Num.equiv (pace r)
          (spec_pace (possessions (of_Z 80) (of_Z 20) (of_Z 10) (of_Z 15)) (of_Z 0)))
  /\ (exists r,
         fallback_row game_A (margins_of 20 (-20)) no_attempts_row = Ok (Some r) /\
         ortg r = Fin 110 /\
         spec_ortg (of_Z 110) (possessions NaN (of_Z 20) (of_Z 10) (of_Z 15)) = NaN /\
         ~ Num.equiv (ortg r)
             (spec_ortg (of_Z 110) (possessions NaN (of_Z 20) (of_Z 10) (of_Z 15)))).
Proof.
  split.
  - eexists. split; [reflexivity|]. split; [reflexivity|]. split; [reflexivity|].
    simpl. tauto.
  - eexists. split; [reflexivity|]. split; [reflexivity|]. split; [reflexivity|].
    simpl. tauto.
Qed.

(** The worked example of the possession estimate holds in binary64
    arithmetic as well: the sum is the double nearest to 93.8. *)
Example possessions_example_binary64 :
  possessions_binary64 80 20 10 15 = 93.8%float.
Proof. reflexivity. Qed.

(** ** Sums and averages *)

Lemma foldl_add_NaN l : foldl add NaN l = NaN.
Proof. induction l as [|x l IH]; simpl; auto. Qed.

Lemma foldl_skipna_Fin l q :
  exists s, foldl (fun acc x => if Num.is_nan x then acc else add acc x) (Fin q) l = Fin s.
Proof.
  revert q. induction l as [|x l IH]; intros q; simpl; [eauto|].
  destruct x as [|y]; simpl; apply IH.
Qed.

Lemma sum_skipna_Fin l : exists s, sum_skipna l = Fin s.
Proof. apply foldl_skipna_Fin. Qed.

Lemma foldl_add_cases l acc :
  foldl add acc l = NaN
  \/ foldl add acc l = foldl (fun acc x => if Num.is_nan x then acc else add acc x) acc l.
Proof.
  revert acc. induction l as [|x l IH]; intros acc; simpl; [auto|].
  destruct x as [|y]; simpl.
  - left. destruct acc; simpl; apply foldl_add_NaN.
  - apply IH.
Qed.

Lemma sum_cases l : sum l = NaN \/ sum l = sum_skipna l.
Proof. apply foldl_add_cases. Qed.

(** A positive [Series.sum()] of the weights rules out numpy's
    "weights sum to zero" error. *)
Lemma np_average_total a w s :
  sum_skipna w = Fin s -> (0 < s)%Q ->
  np_average a w = Ok (div (sum (zip_with mul a w)) (sum w)).
Proof.
  intros Hs Hpos. unfold np_average.
  destruct (sum_cases w) as [-> | ->]; [reflexivity|].
  rewrite Hs. simpl.
  destruct (Qeq_bool s (inject_Z 0)) eqn:Hz; [|reflexivity].
  apply Qeq_bool_iff in Hz. exfalso. revert Hpos. rewrite Hz. apply Qlt_irrefl.
Qed.

Lemma zip_with_mul_map (f : RawRow -> num) (rs : list RawRow) :
  zip_with mul (map f rs) (map poss rs) = map (fun r => mul (f r) (poss r)) rs.
Proof. induction rs as [|r rs IH]; simpl; [reflexivity | now rewrite IH]. Qed.

Lemma np_average_column (f : RawRow -> num) (rs : list RawRow) s :
  sum_skipna (map poss rs) = Fin s -> (0 < s)%Q ->
  np_average (map f rs) (map poss rs) = Ok (weighted_mean_of f rs).
Proof.
  intros Hs Hpos. rewrite (np_average_total _ _ _ Hs Hpos), zip_with_mul_map. reflexivity.
Qed.

Lemma ltb_threshold_false s t :
  ltb (Fin s) (Fin t) = false <-> (t <= s)%Q.
Proof.
  simpl. destruct (Qle_bool t s) eqn:H; simpl.
  - apply Qle_bool_iff in H. tauto.
  - split; [discriminate|]. intros Hle. apply Qle_bool_iff in Hle. congruence.
Qed.

(** Sums of finite cells are the rational sums. *)
Lemma foldl_add_Fin (qs : list Q) acc a :
  Num.equiv acc (Fin a) ->
  Num.equiv (foldl add acc (map Fin qs)) (Fin (a + Qsum qs)).
Proof.
  revert acc a. induction qs as [|q qs IH]; intros acc a Hacc; simpl.
  - eapply num_equiv_trans; [exact Hacc|]. simpl. ring.
  - eapply num_equiv_trans.
    + apply IH. apply add_equiv; [exact Hacc | apply num_equiv_refl].
    + simpl. ring.
Qed.

Lemma sum_Fin (qs : list Q) : Num.equiv (sum (map Fin qs)) (Fin (Qsum qs)).
Proof.
  eapply num_equiv_trans; [apply (foldl_add_Fin qs (of_Z 0) 0%Q); reflexivity|].
  simpl. ring.
Qed.

Lemma weighted_mean_of_finite (f : RawRow -> num) (rs : list RawRow) (pw : list (Q * Q)) :
  Forall2 (fun r p => f r = Fin (fst p) /\ poss r = Fin (snd p)) rs pw ->
  ~ (Qsum (map snd pw) == 0)%Q ->
  Num.equiv (weighted_mean_of f rs) (Fin (Qweighted_mean pw)).
Proof.
  intros Hall. unfold weighted_mean_of, Qweighted_mean.
  assert (Hw : map poss rs = map Fin (map snd pw)).
  { induction Hall as [|r p rs pw [_ Hp] _ IH]; simpl; [reflexivity | now rewrite Hp, IH]. }
  intros Hnz.
  assert (Hv : Num.equiv (sum (map (fun r => mul (f r) (poss r)) rs))
                         (Fin (Qsum (map (fun p => fst p * snd p)%Q pw)))).
  { unfold sum. generalize (num_equiv_refl (of_Z 0)). generalize (of_Z 0) at 1 3.
    assert (Hgen : forall acc a, Num.equiv acc (Fin a) ->
              Num.equiv (foldl add acc (map (fun r => mul (f r) (poss r)) rs))
                        (Fin (a + Qsum (map (fun p => fst p * snd p)%Q pw)))).
    { clear Hw Hnz. clear -Hall. induction Hall as [|r p rs pw [Hf Hp] _ IH]; intros acc a Hacc; simpl.
      - eapply num_equiv_trans; [exact Hacc|]. simpl. ring.
      - eapply num_equiv_trans.
        + apply IH. apply add_equiv; [exact Hacc|].
          rewrite Hf, Hp. apply mul_equiv; apply num_equiv_refl.
        + simpl. ring. }
    intros n Hn. eapply num_equiv_trans; [apply (Hgen n 0%Q Hn)|]. simpl. ring. }
  rewrite Hw. apply div_equiv; [exact Hnz | exact Hv | apply sum_Fin].
Qed.

Lemma sum_skipna_finite (qs : list Q) :
  Num.equiv (sum_skipna (map Fin qs)) (Fin (Qsum qs)).
Proof.
  pose proof (sum_Fin qs) as H.
  destruct (sum_cases (map Fin qs)) as [Hn | He].
  - rewrite Hn in H. destruct H.
  - rewrite <- He. exact H.
Qed.

(** ** The baseline *)

Lemma team_baseline_cases df team0 :
  exists s,
    sum_skipna (map poss (close_rows df team0)) = Fin s /\
    ((ltb (Fin s) BASELINE_MIN_POSS = true /\ team_baseline df team0 = Ok None)
     \/ (ltb (Fin s) BASELINE_MIN_POSS = false /\ (100 <= s)%Q /\
         team_baseline df team0
         = Ok (Some (weighted_mean_of pace (close_rows df team0),
                     weighted_mean_of ortg (close_rows df team0), Fin s)))).
Proof.
  destruct (sum_skipna_Fin (map poss (close_rows df team0))) as [s Hs].
  exists s. split; [exact Hs|]. unfold team_baseline. rewrite Hs.
  destruct (ltb (Fin s) BASELINE_MIN_POSS) eqn:Hlt; [left; auto|].
  right. pose proof (proj1 (ltb_threshold_false _ _) Hlt) as Hle.
  assert (Hpos : (0 < s)%Q) by lra.
  rewrite !(np_average_column _ _ _ Hs Hpos). simpl. auto.
Qed.

(** C3.  For every team the aggregator either skips the team because its
    filtered close rows carry fewer than [BASELINE_MIN_POSS] possessions
    (always so when there are no such rows), or computes, without error, a
    baseline pace and offensive rating equal to the possession-weighted mean
    of the rows' values: the sum of value * poss divided by the sum of
    poss, which on rows without missing values is the rational weighted
    mean.  Two close rows with (pace 100, poss 50) and (pace 90, poss 50)
    give baseline pace exactly 95, in the aggregator and in its output. *)
Theorem baseline_is_weighted_mean :
  (forall df team0,
      exists s,
        sum_skipna (map poss (close_rows df team0)) = Fin s /\
        ((ltb (Fin s) BASELINE_MIN_POSS = true /\ team_baseline df team0 = Ok None)
         \/ (ltb (Fin s) BASELINE_MIN_POSS = false /\
             close_rows df team0 <> [] /\
             team_baseline df team0
             = Ok (Some (weighted_mean_of pace (close_rows df team0),
                         weighted_mean_of ortg (close_rows df team0), Fin s)) /\
             (forall f (pw : list (Q * Q)),
                 Forall2 (fun r p => f r = Fin (fst p) /\ poss r = Fin (snd p))
                   (close_rows df team0) pw ->
                 Num.equiv (weighted_mean_of f (close_rows df team0))
                   (Fin (Qweighted_mean pw))))))
  /\ team_baseline df_weighting "BOS" = Ok (Some (Fin 95, Fin 115, Fin 100))
  /\ (exists doc e,
         generate_priors df_weighting "2025-26" "2026-01-05T03:12:45" = Ok doc /\
         priors doc = [e] /\ p_team e = "BOS"%string /\ b_pace (baseline e) = Fin 95).
Proof.
  split; [|split; [reflexivity | eexists _, _; repeat split; reflexivity]].
  intros df team0.
  destruct (team_baseline_cases df team0) as (s & Hs & [[Hlt Hb] | (Hlt & Hle & Hb)]);
    exists s; (split; [exact Hs|]); [left; auto|].
  right. split; [exact Hlt|]. split; [|split; [exact Hb|]].
  - intros Hnil. rewrite Hnil in Hs. injection Hs as <-. revert Hle. apply Qlt_not_le.
    reflexivity.
  - intros f pw Hall. apply weighted_mean_of_finite; [exact Hall|].
    assert (Hw : map poss (close_rows df team0) = map Fin (map snd pw)).
    { clear -Hall. induction Hall as [|r p rs pw' [_ Hp] _ IH]; simpl;
        [reflexivity | now rewrite Hp, IH]. }
    pose proof (sum_skipna_finite (map snd pw)) as Hsum.
    rewrite <- Hw, Hs in Hsum. simpl in Hsum. rewrite <- Hsum. lra.
Qed.

Lemma baseline_is_weighted_mean_witness :
  Num.equiv (weighted_mean_of pace (close_rows df_weighting "BOS"))
    (Fin (Qweighted_mean [(100, 50); (90, 50)]%Q))
  /\ (Qweighted_mean [(100, 50); (90, 50)] == 95)%Q.
Proof.
  split; [|reflexivity].
  destruct (proj1 baseline_is_weighted_mean df_weighting "BOS")
    as (s & _ & [[_ Hnone] | (_ & _ & _ & Hmean)]).
  - discriminate Hnone.
  - apply (Hmean pace). repeat constructor.
Defined.

(** ** The blowout buckets and the entries *)

Lemma geb_threshold_true s t : geb (Fin s) (Fin t) = true <-> (t <= s)%Q.
Proof. unfold geb. simpl. apply Qle_bool_iff. Qed.

Lemma bucket_delta_cases df team0 state base_pace base_ortg :
  exists field,
    bucket_delta df team0 state base_pace base_ortg = Ok field /\
    bucket_field df team0 state base_pace base_ortg field.
Proof.
  unfold bucket_delta, bucket_field.
  destruct (sum_skipna_Fin (map poss (bucket_rows df team0 state))) as [s Hs].
  rewrite Hs. destruct (geb (Fin s) TREATMENT_MIN_POSS) eqn:Hge.
  - pose proof (proj1 (geb_threshold_true _ _) Hge) as Hle.
    assert (Hpos : (0 < s)%Q) by lra.
    rewrite !(np_average_column _ _ _ Hs Hpos). simpl.
    eexists. split; [reflexivity|]. exists s. split; [reflexivity|]. right.
    split; [exact Hge|]. eexists. split; [reflexivity|]. simpl. auto.
  - exists None. split; [reflexivity|]. exists s. auto.
Qed.

Lemma team_prior_inv df team0 e :
  team_prior df team0 = Ok (Some e) ->
  exists cs,
    sum_skipna (map poss (close_rows df team0)) = Fin cs /\
    ltb (Fin cs) BASELINE_MIN_POSS = false /\
    team_baseline df team0
    = Ok (Some (weighted_mean_of pace (close_rows df team0),
                weighted_mean_of ortg (close_rows df team0), Fin cs)) /\
    p_team e = team0 /\
    baseline e = {| b_pace := round (weighted_mean_of pace (close_rows df team0)) 2;
                    b_ortg := round (weighted_mean_of ortg (close_rows df team0)) 2;
                    b_nPoss := trunc cs |} /\
    (leading e <> None \/ trailing e <> None) /\
    bucket_field df team0 "leading" (weighted_mean_of pace (close_rows df team0))
      (weighted_mean_of ortg (close_rows df team0)) (leading e) /\
    bucket_field df team0 "trailing" (weighted_mean_of pace (close_rows df team0))
      (weighted_mean_of ortg (close_rows df team0)) (trailing e).
Proof.
  unfold team_prior. intros H.
  destruct (team_baseline_cases df team0) as (cs & Hcs & [[_ Hb] | (Hlt & _ & Hb)]);
    rewrite Hb in H; simpl in H; [discriminate|].
  set (bp := weighted_mean_of pace (close_rows df team0)) in *.
  set (bo := weighted_mean_of ortg (close_rows df team0)) in *.
  destruct (bucket_delta_cases df team0 "leading" bp bo) as (lead & Hl & Hlf).
  destruct (bucket_delta_cases df team0 "trailing" bp bo) as (trail & Ht & Htf).
  rewrite Hl in H. simpl in H. rewrite Ht in H. simpl in H.
  exists cs.
  destruct lead as [dl|], trail as [dt|]; try discriminate; injection H as <-; simpl;
    repeat split; auto; (left; discriminate) || (right; discriminate).
Qed.

Lemma team_prior_total df team0 : exists o, team_prior df team0 = Ok o.
Proof.
  unfold team_prior.
  destruct (team_baseline_cases df team0) as (cs & Hcs & [[_ Hb] | (Hlt & _ & Hb)]);
    rewrite Hb; simpl; [eauto|].
  set (bp := weighted_mean_of pace (close_rows df team0)).
  set (bo := weighted_mean_of ortg (close_rows df team0)).
  destruct (bucket_delta_cases df team0 "leading" bp bo) as (lead & -> & _).
  destruct (bucket_delta_cases df team0 "trailing" bp bo) as (trail & -> & _).
  simpl. destruct lead, trail; eauto.
Qed.

Lemma collect_total {A B : Type} (f : A -> result (option B)) (l : list A) :
  (forall x, exists o, f x = Ok o) -> exists out, collect f l = Ok out.
Proof.
  intros Hf. induction l as [|x l [out IH]]; simpl; [eauto|].
  destruct (Hf x) as [o ->]. simpl. rewrite IH. simpl. eauto.
Qed.

(** The loop body never raises. *)
Lemma prior_of_total df t : exists o, prior_of df t = Ok o.
Proof. destruct t as [team0|]; [apply team_prior_total | simpl; eauto]. Qed.

Lemma prior_of_Some df t e :
  prior_of df t = Ok (Some e) -> t = Some (p_team e) /\ team_prior df (p_team e) = Ok (Some e).
Proof.
  destruct t as [team0|]; simpl; [|discriminate].
  intros H. destruct (team_prior_inv _ _ _ H) as (_ & _ & _ & _ & <- & _). auto.
Qed.

(** [sorted] fails exactly on a column that mixes strings with NaN. *)
Lemma py_sorted_cases (l : list (option string)) :
  (py_sorted l = Raise TypeError /\ In None l /\ exists s, In (Some s) l)
  \/ (py_sorted l = Ok l /\ forall c, In c l -> c = None)
  \/ (py_sorted l = Ok (map Some (sorted (omap id l))) /\ ~ In None l
      /\ exists s, In (Some s) l).
Proof.
  unfold py_sorted.
  assert (Hstr : forall s, In s (omap id l) <-> In (Some s) l).
  { intros s. rewrite <- !list_elem_of_In, list_elem_of_omap. split.
    - intros (c & Hc & Hs). simpl in Hs. now subst.
    - intros H. exists (Some s). auto. }
  assert (Hall : forallb (fun c : option string => bool_decide (is_Some c)) l = true
                 <-> ~ In None l).
  { rewrite forallb_forall. split.
    - intros H Hin. apply H in Hin. apply bool_decide_eq_true in Hin as [? ?]. discriminate.
    - intros H c Hc. apply bool_decide_eq_true. destruct c; [eauto | contradiction]. }
  destruct (omap id l) as [|s ss] eqn:Hss.
  - right. left. split; [reflexivity|]. intros [t|] Hc; [|reflexivity].
    apply Hstr in Hc. destruct Hc.
  - assert (Hs : exists t, In (Some t) l) by (exists s; apply Hstr; now left).
    destruct (forallb _ l) eqn:Hf.
    + right. right. split; [reflexivity|]. split; [apply Hall; reflexivity | exact Hs].
    + left. split; [reflexivity|]. split; [|exact Hs].
      destruct (in_dec (fun a b : option string => decide (a = b)) None l) as [Hin|Hnin];
        [exact Hin|].
      apply Hall in Hnin. congruence.
Qed.

(** What a document the aggregator returns is made of. *)
Lemma generate_priors_inv df season0 now0 doc :
  generate_priors df season0 now0 = Ok doc ->
  (df_rows df = []
   /\ doc = {| league := None; season := season0; generated_at := None; priors := [] |})
  \/ (df_rows df <> []
      /\ exists teams,
          py_sorted (unique (map team (df_rows df))) = Ok teams
          /\ collect (prior_of df) teams = Ok (priors doc)
          /\ league doc = Some "NBA"%string /\ season doc = season0
          /\ generated_at doc = Some now0).
Proof.
  unfold generate_priors. destruct (df_rows df) as [|r rs].
  - intros [= <-]. left. auto.
  - intros H. right. split; [discriminate|]. inv_bind H. inv_bind H. injection H as <-.
    exists a. simpl. auto.
Qed.

Lemma generate_priors_nonempty df season0 now0 :
  df_rows df <> [] ->
  generate_priors df season0 now0
  = (teams ← py_sorted (unique (map team (df_rows df)));
     ps ← collect (prior_of df) teams;
     Ok {| league := Some "NBA"%string; season := season0;
           generated_at := Some now0; priors := ps |}).
Proof. unfold generate_priors. destruct (df_rows df); [congruence | reflexivity]. Qed.

Lemma generate_priors_entries df season0 now0 doc e :
  generate_priors df season0 now0 = Ok doc -> In e (priors doc) ->
  team_prior df (p_team e) = Ok (Some e).
Proof.
  intros H Hin. apply generate_priors_inv in H as [[_ ->] | (_ & teams & _ & Hc & _)].
  - destruct Hin.
  - apply (collect_In _ _ _ Hc) in Hin as (t & _ & Ht).
    apply prior_of_Some in Ht. tauto.
Qed.




Example trailing_below_threshold_has_no_field :
  generate_priors df_ratio "2025-26" "2026-01-05T03:12:45" = Ok doc_ratio
  /\ sum_skipna (map poss (bucket_rows df_ratio "DEN" "trailing")) = Fin 12
  /\ trailing entry_DEN = None.
Proof. repeat split. Qed.

(** ** Discovery failure and the exit code *)

Lemma main_without_games args w fs :
  get_completed_game_data (finder (upstream w)) = [] -> main args w fs = (0, fs).
Proof. unfold main. intros ->. reflexivity. Qed.

Lemma main_with_games args w fs :
  get_completed_game_data (finder (upstream w)) <> [] ->
  main args w fs
  = match aggregation args w fs with
    | Ok doc => (0, {| raw_csv := raw_file (final_state args w fs);
                       manifest_csv := manifest_file (final_state args w fs);
                       priors_json := Some doc |})
    | Raise _ => (1, {| raw_csv := raw_file (final_state args w fs);
                        manifest_csv := manifest_file (final_state args w fs);
                        priors_json := None |})
    end.
Proof.
  unfold main, aggregation, final_state, games_of_run, initial_state.
  destruct (get_completed_game_data (finder (upstream w))) as [|g games]; [congruence|].
  reflexivity.
Qed.

Lemma main_exit_code args w fs :
  (main args w fs).1 = 0
  <-> get_completed_game_data (finder (upstream w)) = []
      \/ exists doc, aggregation args w fs = Ok doc.
Proof.
  destruct (get_completed_game_data (finder (upstream w))) as [|g games] eqn:Hgames.
  - rewrite main_without_games by exact Hgames. simpl. tauto.
  - rewrite main_with_games by congruence.
    destruct (aggregation args w fs) as [doc|e]; simpl; split; eauto.
    + discriminate.
    + intros [H | [doc H]]; discriminate.
Qed.

(** C8, with the exit code of the code.  When game discovery yields
    nothing (the finder raises, returns no frame, an empty frame, or a frame without the
    expected columns) the run processes no game and leaves the manifest,
    the raw store and the priors file as they were, and it ends with exit
    code 0.  A run that finds games and completes, its last step returning
    the priors document, ends with exit code 0 as well; the exit code is 0
    in these two cases only. *)
Theorem discovery_failure_changes_nothing :
  (forall e, get_completed_game_data (FinderRaises e) = [])
  /\ get_completed_game_data FinderNone = []
  /\ get_completed_game_data FinderMalformed = []
  /\ get_completed_game_data (FinderFrame []) = []
  /\ (forall args w fs,
         get_completed_game_data (finder (upstream w)) = [] -> main args w fs = (0, fs))
  /\ (forall args w fs doc,
         get_completed_game_data (finder (upstream w)) <> [] ->
         aggregation args w fs = Ok doc ->
         main args w fs
         = (0, {| raw_csv := raw_file (final_state args w fs);
                  manifest_csv := manifest_file (final_state args w fs);
                  priors_json := Some doc |}))
  /\ (forall args w fs,
         (main args w fs).1 = 0
         <-> get_completed_game_data (finder (upstream w)) = []
             \/ exists doc, aggregation args w fs = Ok doc).
Proof.
  split; [reflexivity|]. split; [reflexivity|]. split; [reflexivity|].
  split; [reflexivity|]. split; [apply main_without_games|]. split.
  - intros args w fs doc Hgames Hdoc. rewrite main_with_games by exact Hgames.
    rewrite Hdoc. reflexivity.
  - apply main_exit_code.
Qed.

Lemma discovery_failure_changes_nothing_witness :
  main args_normal world_no_games no_files = (0, no_files).
Proof.
  apply (proj1 (proj2 (proj2 (proj2 (proj2 discovery_failure_changes_nothing))))
           args_normal world_no_games no_files).
  reflexivity.
Defined.

(** A run whose discovery fails ends with exit code 0, not with a
    non-zero one. *)
Lemma discovery_failure_exits_with_zero :
  get_completed_game_data (finder (upstream world_no_games)) = []
  /\ ~ ((main args_normal world_no_games no_files).1 <> 0).
Proof. split; [reflexivity|]. intros H. apply H. reflexivity. Qed.

(** ** Per-game failures *)

Lemma collect_Raise {A B : Type} (f : A -> result (option B)) (l : list A) e :
  collect f l = Raise e -> exists x, In x l /\ f x = Raise e.
Proof.
  induction l as [|x l IH]; simpl; [discriminate|].
  destruct (f x) as [o|e'] eqn:Hx; simpl.
  - destruct (collect f l) as [out|e'']; simpl; [discriminate|].
    intros [= ->]. destruct IH as (y & Hy & Hfy); [reflexivity|]. eauto.
  - intros [= ->]. eauto.
Qed.

Lemma py_float_Raise c e : py_float c = Raise e -> e = TypeError.
Proof. destruct c; simpl; congruence. Qed.

(** On cells as modelled (numbers and [None], no text in a numeric
    column), the exception a team row raises in the estimator is the
    [TypeError] of [float(None)]. *)
Lemma fallback_row_Raise gid (margins : gmap Z Z) srow e :
  fallback_row gid margins srow = Raise e -> e = TypeError.
Proof.
  unfold fallback_row.
  destruct (TEAM_ID srow) as [[|[|q]]|]; simpl; try discriminate.
  destruct (margins !! trunc q); [|discriminate].
  destruct (classify z) as [[g t]|]; [|discriminate].
  repeat match goal with
         | |- context [py_float ?c] =>
             let H := fresh "H" in
             destruct (py_float c) eqn:H; simpl;
             [| apply py_float_Raise in H; congruence]
         end.
  destruct (leb _ _); discriminate.
Qed.

Lemma get_q3_margins_nonempty resp (m : gmap Z Z) :
  get_q3_margins resp = Some m -> m ≠ ∅.
Proof.
  unfold get_q3_margins, get_q3_margins_body.
  destruct resp as [e|dfs]; [discriminate|].
  destruct (extract_line_score_table dfs) as [line|]; [|discriminate].
  destruct (length (rows line) <? 2)%nat; [discriminate|].
  destruct (rows line) as [|t1 [|t2 rest]]; try discriminate.
  destruct (py_int (ls_TEAM_ID t1)); [|discriminate].
  destruct (py_int (ls_TEAM_ID t2)); [|discriminate].
  simpl. intros [= <-]. apply insert_non_empty.
Qed.

Lemma manifest_status_cases st :
  manifest_status st = "SKIP_MEDIUM"%string \/ manifest_status st = "ERROR"%string.
Proof. unfold manifest_status. destruct (contains "SKIP" st); auto. Qed.

Section ManifestOfTheLoop.

Variables (up : Upstream) (games : list StatRow).

Lemma game_outcome_entry t gid keys batch :
  let entry := (game_outcome up games t gid keys batch).1.2 in
  m_game_id entry = gid
  /\ (status entry = "DONE"%string \/ status entry = "SKIP_MEDIUM"%string
      \/ status entry = "ERROR"%string).
Proof.
  unfold game_outcome.
  destruct (falsy (get_q3_margins (summary up gid))); simpl; [auto|].
  destruct (fetch_q4_rows_fallback _ _ _) as [rs st].
  destruct (String.eqb st "DONE"); simpl; [auto|].
  split; [reflexivity|]. right. apply manifest_status_cases.
Qed.

Lemma all_manifest_flush_if_due n i st :
  all_manifest (flush_if_due n i st) = all_manifest st.
Proof.
  unfold flush_if_due, all_manifest.
  destruct (_ || _); [|reflexivity].
  simpl. rewrite app_nil_r. destruct (batch_manifest st); [|reflexivity].
  now rewrite app_nil_r.
Qed.

Lemma all_manifest_process_game clk n st i gid :
  all_manifest (process_game up games clk n st i gid)
  = all_manifest st
    ++ [(game_outcome up games (clk i) gid (existing_keys st) (batch_raw st)).1.2].
Proof.
  unfold process_game.
  destruct (game_outcome _ _ _ _ _ _) as [[continued entry] [keys batch]]. simpl.
  destruct continued; [|rewrite all_manifest_flush_if_due];
    unfold all_manifest; simpl; now rewrite app_assoc.
Qed.

Lemma game_outcome_entry_indep t gid keys batch :
  (game_outcome up games t gid keys batch).1.2 = manifest_entry_of up games t gid.
Proof.
  unfold manifest_entry_of, game_outcome.
  destruct (falsy _); [reflexivity|].
  destruct (fetch_q4_rows_fallback _ _ _) as [rs st].
  destruct (String.eqb st "DONE"); reflexivity.
Qed.

End ManifestOfTheLoop.

(** X23.  How a failure of a game is recorded in its manifest entry.  An
    exception raised by the margin computation, of whatever kind, gives
    the entry ERROR with reason "no_linescore"; an exception raised by the
    fallback estimator gives the entry ERROR with reason "ERROR_" followed
    by the exception's kind. *)
Theorem failures_are_recorded_in_the_entry :
  (forall up games t gid e,
      get_q3_margins_body (summary up gid) = Raise e ->
      m_game_id (manifest_entry_of up games t gid) = gid
      /\ status (manifest_entry_of up games t gid) = "ERROR"%string
      /\ reason (manifest_entry_of up games t gid) = "no_linescore"%string)
  /\ (forall up games t gid (m : gmap Z Z) e,
         get_q3_margins (summary up gid) = Some m ->
         (2 <= length (game_rows_of gid games))%nat ->
         collect (fallback_row gid m) (game_rows_of gid games) = Raise e ->
         m_game_id (manifest_entry_of up games t gid) = gid
         /\ status (manifest_entry_of up games t gid) = "ERROR"%string
         /\ reason (manifest_entry_of up games t gid) = ("ERROR_" ++ exn_name e)%string).
Proof.
  split.
  - intros up games t gid e He. unfold manifest_entry_of, game_outcome, get_q3_margins.
    rewrite He. simpl. auto.
  - intros up games t gid m e Hm Hlen Hraise.
    unfold manifest_entry_of, game_outcome. rewrite Hm. simpl.
    rewrite bool_decide_eq_false_2 by (eapply get_q3_margins_nonempty; eauto).
    unfold fetch_q4_rows_fallback.
    apply Nat.ltb_ge in Hlen. rewrite Hlen, Hraise.
    apply collect_Raise in Hraise as (x & _ & Hx).
    apply fallback_row_Raise in Hx as ->. simpl. auto.
Qed.

Lemma failures_are_recorded_in_the_entry_witness :
  m_game_id (manifest_entry_of upstream_AB stats_null_points "2026-01-05T03:12:45" game_A)
  = game_A
  /\ status (manifest_entry_of upstream_AB stats_null_points "2026-01-05T03:12:45" game_A)
     = "ERROR"%string
  /\ reason (manifest_entry_of upstream_AB stats_null_points "2026-01-05T03:12:45" game_A)
     = ("ERROR_" ++ exn_name TypeError)%string.
Proof.
  apply (proj2 failures_are_recorded_in_the_entry
           upstream_AB stats_null_points "2026-01-05T03:12:45" game_A
           (margins_of 20 (-20)) TypeError).
  - reflexivity.
  - simpl. lia.
  - reflexivity.
Defined.

(** C7, at a run that loses its entries.  The run has two games to go
    through.  [game_A] is processed and gets the entry DONE; the margin
    computation of [game_B] raises [ValueError] ([int()] of a missing team
    identifier), which is caught: the game gets the entry ERROR, whose
    reason "no_linescore" does not name the exception's kind.  Both
    entries are staged, but [game_B] is the last game and its iteration
    ends in [continue] before the flush at the end of the loop body: the
    run ends, with exit code 0, leaving the two entries and the two rows of
    [game_A] staged and both files empty.  No manifest entry is produced
    for either game. *)
Theorem last_game_without_line_score_drops_the_batch :
  games_of_run args_normal world_AB no_files = [game_A; game_B]
  /\ manifest_entry_of upstream_AB stats_AB "2026-01-05T03:12:45" game_A
     = entry game_A "DONE" "success"
  /\ get_q3_margins_body (summary upstream_AB game_B) = Raise ValueError
  /\ manifest_entry_of upstream_AB stats_AB "2026-01-05T03:12:45" game_B
     = entry game_B "ERROR" "no_linescore"
  /\ contains (exn_name ValueError)
       (reason (manifest_entry_of upstream_AB stats_AB "2026-01-05T03:12:45" game_B))
     = false
  /\ batch_manifest (final_state args_normal world_AB no_files)
     = [entry game_A "DONE" "success"; entry game_B "ERROR" "no_linescore"]
  /\ length (batch_raw (final_state args_normal world_AB no_files)) = 2%nat
  /\ manifest_csv (main args_normal world_AB no_files).2 = []
  /\ raw_csv (main args_normal world_AB no_files).2 = []
  /\ (main args_normal world_AB no_files).1 = 0.
Proof. repeat split; vm_compute; reflexivity. Qed.

(** ** De-duplication of the raw store *)

Lemma stage_rows_spec (rs : list TeamPeriodRow) (keys : gset Key) (batch : list TeamPeriodRow) :
  exists new,
    stage_rows rs keys batch = (keys ∪ list_to_set (map row_key new), batch ++ new)
    /\ NoDup (map row_key new)
    /\ (forall r, In r new -> row_key r ∉ keys)
    /\ (forall r, In r new -> In r rs).
Proof.
  revert keys batch. induction rs as [|r rs IH]; intros keys batch; simpl.
  - exists []. simpl. rewrite app_nil_r, union_empty_r_L.
    repeat split; [constructor | intros ? [] | intros ? []].
  - destruct (decide (row_key r ∈ keys)) as [Hin | Hnin].
    + destruct (IH keys batch) as (new & -> & Hnd & Hfresh & Hsub).
      exists new. repeat split; auto.
    + destruct (IH (keys ∪ {[row_key r]}) (batch ++ [r])) as (new & -> & Hnd & Hfresh & Hsub).
      exists (r :: new). simpl. split; [|split; [|split]].
      * rewrite <- app_assoc. simpl. f_equal. rewrite (assoc_L (∪)). reflexivity.
      * apply NoDup_cons. split; [|exact Hnd].
        rewrite list_elem_of_In, in_map_iff. intros (r' & Hk & Hr').
        apply (Hfresh r' Hr'). rewrite Hk. set_solver.
      * intros r' [<- | Hr']; [exact Hnin|].
        intros Hk. apply (Hfresh r' Hr'). set_solver.
      * intros r' [<- | Hr']; auto.
Qed.




Section RowsOfTheLoop.

Variables (up : Upstream) (games : list StatRow) (clk : nat -> string) (n : nat).



End RowsOfTheLoop.



(** C1, at a store the de-duplication misses.  [files_blank] holds the two
    rows of [game_A] a run wrote (their keys are distinct) and no manifest
    entry for the game; one of the rows has the empty team text the
    estimator writes for a missing abbreviation.  Read back, that text is
    NaN, the key of the row is not among the keys loaded, and the run
    appends the row a second time: the store ends with two rows of one
    key. *)
Theorem missing_team_row_is_appended_twice :
  raw_csv files_blank = [blank_row; trailing_row_A]
  /\ NoDup (map row_key (raw_csv files_blank))
  /\ (fetch_q4_rows_fallback game_A (margins_of 20 (-20)) stats_blank).1
     = [blank_row; trailing_row_A]
  /\ df_rows (load_raw_cache (raw_csv files_blank))
     = [{| game_id := Some game_A; team := None; game_state := Some "blowout"%string;
           team_state := Some "leading"%string; pace := pace blank_row;
           ortg := ortg blank_row; poss := poss blank_row;
           fta_rate := fta_rate blank_row |};
        read_row trailing_row_A]
  /\ (row_key blank_row ∉ initial_keys (load_raw_cache (raw_csv files_blank)))
  /\ raw_csv (main args_normal world_blank files_blank).2
     = [blank_row; trailing_row_A; blank_row]
  /\ ~ NoDup (map row_key (raw_csv (main args_normal world_blank files_blank).2)).
Proof.
  split; [reflexivity|]. split; [apply (bool_decide_unpack _); vm_compute; exact I|].
  split; [reflexivity|]. split; [vm_compute; reflexivity|].
  split; [apply (bool_decide_unpack _); vm_compute; exact I|].
  assert (Hrun : raw_csv (main args_normal world_blank files_blank).2
                 = [blank_row; trailing_row_A; blank_row]) by (vm_compute; reflexivity).
  split; [exact Hrun|]. rewrite Hrun.
  intros Hnd. apply (bool_decide_pack _) in Hnd. vm_compute in Hnd. exact Hnd.
Qed.

(** The same run dies of the [TypeError] of [sorted] on a team column that
    mixes NaN with a string: its exit code is 1. *)
Example mixed_team_column_exits_with_one :
  aggregation args_normal world_blank files_blank = Raise TypeError
  /\ (main args_normal world_blank files_blank).1 = 1
  /\ priors_json (main args_normal world_blank files_blank).2 = None.
Proof. repeat split; vm_compute; reflexivity. Qed.

(** Without a missing-value marker in the store the same situation is
    harmless: a store that holds the rows of [game_A] of an earlier run,
    with no manifest entry for it, gains no row. *)
Example rerun_appends_nothing :
  raw_csv (run_all [(args_normal, world_BA); (args_retry, world_BA)] files_rows_only)
  = raw_csv files_rows_only
  /\ map m_game_id
       (manifest_csv (run_all [(args_normal, world_BA); (args_retry, world_BA)]
                        files_rows_only))
     = [game_B; game_A].
Proof. split; vm_compute; reflexivity. Qed.

(** * Further properties *)

(** ** Sniffing the line-score table *)

Lemma issubset_spec req cols :
  issubset req cols = true <-> forall c, In c req -> In c cols.
Proof.
  unfold issubset. rewrite forallb_forall. split; intros H c Hc.
  - apply H in Hc. apply existsb_exists in Hc as (c' & Hc' & Heq).
    apply String.eqb_eq in Heq. now subst.
  - apply existsb_exists. exists c. split; [auto | apply String.eqb_refl].
Qed.

Lemma has_line_score_test d :
  issubset LINE_REQUIRED (columns d) && (2 <=? length (rows d))%nat = true
  <-> has_line_score d.
Proof.
  unfold has_line_score. rewrite andb_true_iff, issubset_spec, Nat.leb_le. reflexivity.
Qed.

(** X1.  [extract_line_score_table] returns the first table of the
    response that has the required columns and at least two rows, and
    [None] exactly when no table has them. *)
Theorem line_score_table_is_first_match dfs :
  match extract_line_score_table dfs with
  | Some d =>
      exists pre post,
        dfs = pre ++ d :: post /\ has_line_score d
        /\ forall d', In d' pre -> ~ has_line_score d'
  | None => forall d, In d dfs -> ~ has_line_score d
  end.
Proof.
  induction dfs as [|d dfs IH]; cbn [extract_line_score_table]; [intros ? []|].
  destruct (issubset LINE_REQUIRED (columns d) && (2 <=? length (rows d))%nat) eqn:Hd.
  - exists [], dfs. split; [reflexivity|]. split; [now apply has_line_score_test|].
    intros ? [].
  - assert (Hno : ~ has_line_score d).
    { intros H. apply has_line_score_test in H. congruence. }
    destruct (extract_line_score_table dfs) as [d0|].
    + destruct IH as (pre & post & -> & Hd0 & Hpre).
      exists (d :: pre), post. split; [reflexivity|]. split; [exact Hd0|].
      intros d' [<- | Hin]; auto.
    + intros d' [<- | Hin]; auto.
Qed.

(** ** When the margin computation succeeds *)

Lemma py_int_Ok c z : py_int c = Ok z <-> exists q, c = Num (Fin q) /\ z = trunc q.
Proof.
  destruct c as [|[|q]]; simpl; split; try discriminate.
  - intros (q & H & _). discriminate.
  - intros (q & H & _). discriminate.
  - intros [= <-]. eauto.
  - intros (q' & [= <-] & ->). reflexivity.
Qed.

Lemma wrap64_eq z : wrap64 z = z - 2 ^ 64 * ((z + 2 ^ 63) `div` 2 ^ 64).
Proof. unfold wrap64. rewrite Z.mod_eq by lia. lia. Qed.

Lemma wrap64_range z : INT64_MIN <= wrap64 z <= INT64_MAX.
Proof.
  unfold wrap64, INT64_MIN, INT64_MAX.
  pose proof (Z.mod_pos_bound (z + 2 ^ 63) (2 ^ 64) ltac:(lia)). lia.
Qed.

Lemma wrap64_small z : INT64_MIN <= z <= INT64_MAX -> wrap64 z = z.
Proof.
  unfold wrap64, INT64_MIN, INT64_MAX. intros H. rewrite Z.mod_small by lia. lia.
Qed.

Lemma PTS_ENTER_Q4_wraps t :
  exists k,
    PTS_ENTER_Q4 t
    = to_int_or_zero (ls_PTS_QTR1 t) + to_int_or_zero (ls_PTS_QTR2 t)
      + to_int_or_zero (ls_PTS_QTR3 t) + k * 2 ^ 64.
Proof.
  unfold PTS_ENTER_Q4, add64.
  set (a := to_int_or_zero (ls_PTS_QTR1 t)). set (b := to_int_or_zero (ls_PTS_QTR2 t)).
  set (c := to_int_or_zero (ls_PTS_QTR3 t)).
  rewrite (wrap64_eq (wrap64 (a + b) + c)), (wrap64_eq (a + b)).
  set (k1 := (a + b + 2 ^ 63) `div` 2 ^ 64).
  set (k2 := (a + b - 2 ^ 64 * k1 + c + 2 ^ 63) `div` 2 ^ 64).
  exists (- k1 - k2). lia.
Qed.

Lemma trunc_inject_Z z : trunc (inject_Z z) = z.
Proof. unfold trunc. simpl. apply Z.quot_1_r. Qed.

(** X2.  The margin computation returns a mapping exactly when the summary
    is fetched, holds a line-score table, and the team identifiers of the
    table's first two rows are numbers; the mapping is then built from the
    points entering the last period of those two rows alone.  These points
    are the sum of the three quarter scores as [int64] holds them: a score
    that is missing counts as 0, a score within the range of [int64] counts
    truncated toward zero, and the sum is exact unless it leaves the range
    of [int64], where it wraps around modulo [2^64]. *)
Theorem margins_succeed_exactly_when :
  (forall resp (m : gmap Z Z),
      get_q3_margins resp = Some m <->
      exists dfs line t1 t2 rest q1 q2,
        resp = SummaryFrames dfs /\
        extract_line_score_table dfs = Some line /\
        rows line = t1 :: t2 :: rest /\
        ls_TEAM_ID t1 = Num (Fin q1) /\
        ls_TEAM_ID t2 = Num (Fin q2) /\
        m = <[trunc q2 := PTS_ENTER_Q4 t2 - PTS_ENTER_Q4 t1]>
              (<[trunc q1 := PTS_ENTER_Q4 t1 - PTS_ENTER_Q4 t2]> ∅))
  /\ (forall t,
        INT64_MIN <= PTS_ENTER_Q4 t <= INT64_MAX
        /\ (exists k,
               PTS_ENTER_Q4 t
               = to_int_or_zero (ls_PTS_QTR1 t) + to_int_or_zero (ls_PTS_QTR2 t)
                 + to_int_or_zero (ls_PTS_QTR3 t) + k * 2 ^ 64)
        /\ (INT64_MIN <= to_int_or_zero (ls_PTS_QTR1 t) + to_int_or_zero (ls_PTS_QTR2 t)
                          + to_int_or_zero (ls_PTS_QTR3 t) <= INT64_MAX ->
            PTS_ENTER_Q4 t
            = to_int_or_zero (ls_PTS_QTR1 t) + to_int_or_zero (ls_PTS_QTR2 t)
              + to_int_or_zero (ls_PTS_QTR3 t)))
  /\ to_int_or_zero Null = 0
  /\ to_int_or_zero (Num NaN) = 0
  /\ (forall q, INT64_MIN <= trunc q <= INT64_MAX -> to_int_or_zero (Num (Fin q)) = trunc q)
  /\ (forall z, INT64_MIN <= z <= INT64_MAX -> to_int_or_zero (Num (of_Z z)) = z).
Proof.
  split; [|split; [|split; [|split; [|split]]]]; try reflexivity.
  - intros resp m. unfold get_q3_margins, get_q3_margins_body. split.
    + intros H. destruct resp as [e|dfs]; [discriminate|].
      destruct (extract_line_score_table dfs) as [line|] eqn:Hline; [|discriminate].
      destruct (length (rows line) <? 2)%nat; [discriminate|].
      destruct (rows line) as [|t1 [|t2 rest]] eqn:Hrows; try discriminate.
      destruct (py_int (ls_TEAM_ID t1)) as [t1_id|] eqn:H1; [|discriminate].
      destruct (py_int (ls_TEAM_ID t2)) as [t2_id|] eqn:H2; [|discriminate].
      apply py_int_Ok in H1 as (q1 & Hq1 & ->). apply py_int_Ok in H2 as (q2 & Hq2 & ->).
      simpl in H. injection H as <-.
      exists dfs, line, t1, t2, rest, q1, q2. repeat split; auto.
    + intros (dfs & line & t1 & t2 & rest & q1 & q2 & -> & -> & Hrows & H1 & H2 & ->).
      rewrite Hrows, H1, H2. reflexivity.
  - intros t. split; [apply wrap64_range|]. split; [apply PTS_ENTER_Q4_wraps|].
    intros Hsum. destruct (PTS_ENTER_Q4_wraps t) as [k Hk].
    pose proof (wrap64_range
                  (add64 (to_int_or_zero (ls_PTS_QTR1 t)) (to_int_or_zero (ls_PTS_QTR2 t))
                   + to_int_or_zero (ls_PTS_QTR3 t))) as Hr.
    fold (add64 (add64 (to_int_or_zero (ls_PTS_QTR1 t)) (to_int_or_zero (ls_PTS_QTR2 t)))
            (to_int_or_zero (ls_PTS_QTR3 t))) in Hr.
    fold (PTS_ENTER_Q4 t) in Hr. unfold INT64_MIN, INT64_MAX in *. lia.
  - intros q Hq. unfold to_int_or_zero, astype_int64.
    destruct Hq as [H1 H2]. apply Z.leb_le in H1, H2. rewrite H1, H2. reflexivity.
  - intros z Hz. unfold to_int_or_zero, astype_int64, of_Z. rewrite trunc_inject_Z.
    destruct Hz as [H1 H2]. apply Z.leb_le in H1, H2. rewrite H1, H2. reflexivity.
Qed.

Lemma margins_succeed_exactly_when_witness :
  get_q3_margins good_line_score = Some (margins_of 20 (-20))
  /\ to_int_or_zero (Num (of_Z 30)) = 30.
Proof.
  split.
  - apply (proj2 (proj1 margins_succeed_exactly_when good_line_score (margins_of 20 (-20)))).
    exists [line_table [line_row 1 30 30 30; line_row 2 20 25 25]],
      (line_table [line_row 1 30 30 30; line_row 2 20 25 25]),
      (line_row 1 30 30 30), (line_row 2 20 25 25), [], 1%Q, 2%Q.
    repeat split.
  - apply (proj2 (proj2 (proj2 (proj2 (proj2 margins_succeed_exactly_when)))) 30).
    unfold INT64_MIN, INT64_MAX. lia.
Defined.

(** A quarter score that is missing counts as 0, and a sum that leaves the
    range of [int64] wraps around. *)
Example points_entering_the_last_period :
  PTS_ENTER_Q4 {| ls_TEAM_ID := Num (of_Z 1); ls_PTS_QTR1 := Num (of_Z 30);
                  ls_PTS_QTR2 := Num NaN; ls_PTS_QTR3 := Null |} = 30
  /\ PTS_ENTER_Q4 {| ls_TEAM_ID := Num (of_Z 1); ls_PTS_QTR1 := Num (of_Z (2 ^ 62));
                     ls_PTS_QTR2 := Num (of_Z (2 ^ 62)); ls_PTS_QTR3 := Num (of_Z 0) |}
     = INT64_MIN.
Proof. split; vm_compute; reflexivity. Qed.

(** ** The games a run processes *)

Lemma existsb_eqb_In x (l : list string) : existsb (String.eqb x) l = true <-> In x l.
Proof.
  rewrite existsb_exists. split.
  - intros (y & Hy & Heq). apply String.eqb_eq in Heq. now subst.
  - intros H. exists x. split; [auto | apply String.eqb_refl].
Qed.

Lemma in_unique_from {A : Type} `{EqDecision A} (seen l : list A) x :
  In x (unique_from seen l) <-> In x l /\ ~ In x seen.
Proof.
  revert seen. induction l as [|y l IH]; intros seen; simpl; [tauto|].
  destruct (bool_decide (y ∈ seen)) eqn:Hy.
  - apply bool_decide_eq_true in Hy. rewrite list_elem_of_In in Hy. rewrite IH. split.
    + intros [H1 H2]. auto.
    + intros [[<- | H1] H2]; [contradiction | auto].
  - apply bool_decide_eq_false in Hy. rewrite list_elem_of_In in Hy.
    simpl. rewrite IH. simpl. split.
    + intros [<- | [H1 H2]]; [auto|]. split; [auto|]. intros H'. apply H2. auto.
    + intros [[<- | H1] H2]; [auto|].
      destruct (decide (y = x)) as [<- | Hne]; [auto|]. right. split; [auto|].
      intros [? | ?]; contradiction.
Qed.

Lemma NoDup_unique_from {A : Type} `{EqDecision A} (seen l : list A) :
  NoDup (unique_from seen l).
Proof.
  revert seen. induction l as [|y l IH]; intros seen; simpl; [constructor|].
  destruct (bool_decide (y ∈ seen)); [apply IH|].
  apply NoDup_cons. split; [|apply IH].
  rewrite list_elem_of_In, in_unique_from. simpl. tauto.
Qed.

Lemma in_unique {A : Type} `{EqDecision A} (l : list A) x : In x (unique l) <-> In x l.
Proof. unfold unique. rewrite in_unique_from. simpl. tauto. Qed.

Lemma NoDup_unique {A : Type} `{EqDecision A} (l : list A) : NoDup (unique l).
Proof. apply NoDup_unique_from. Qed.

Lemma NoDup_list_filter {A : Type} (f : A -> bool) (l : list A) :
  NoDup l -> NoDup (List.filter f l).
Proof.
  induction 1 as [|x l Hx Hl IH]; simpl; [constructor|].
  destruct (f x); [|exact IH].
  apply NoDup_cons. split; [|exact IH].
  rewrite list_elem_of_In, filter_In. rewrite list_elem_of_In in Hx. tauto.
Qed.

Lemma in_get_completed_game_data resp g :
  In g (get_completed_game_data resp) <->
  exists games, resp = FinderFrame games /\ In g games /\ is_completed_regular_season g.
Proof.
  unfold get_completed_game_data, get_completed_game_data_body, is_completed_regular_season.
  destruct resp as [e| | |games]; simpl;
    try (split; [intros [] | intros (games & Hresp & _); discriminate]).
  assert (Hfilter :
    In g (List.filter (fun g0 => notna (WL g0))
            (List.filter (fun g0 => String.prefix "002" (GAME_ID g0)) games))
    <-> In g games /\ String.prefix "002" (GAME_ID g) = true /\ exists s, WL g = TStr s).
  { rewrite !filter_In. unfold notna. destruct (WL g) as [| |s]; split.
    - intros [_ H]; discriminate.
    - intros (_ & _ & s & H); discriminate.
    - intros [_ H]; discriminate.
    - intros (_ & _ & s & H); discriminate.
    - intros [[H1 H2] _]. eauto.
    - intros (H1 & H2 & _). auto. }
  destruct games as [|g0 games'].
  - simpl. split; [intros [] | intros (games & [= <-] & [] & _)].
  - rewrite Hfilter. split.
    + intros H. exists (g0 :: games'). auto.
    + intros (games & [= <-] & H). exact H.
Qed.

(** X3.  The games a run goes through are pairwise distinct, and they are
    exactly the ids of the game-log rows that discovery keeps (id starting
    with "002", outcome recorded) and that the manifest filter does not
    count as processed. *)
Theorem games_to_process_are_new_and_distinct retry manifest resp :
  NoDup (new_game_ids retry manifest (unique (map GAME_ID (get_completed_game_data resp))))
  /\ forall gid,
      In gid (new_game_ids retry manifest
                (unique (map GAME_ID (get_completed_game_data resp))))
      <-> (exists games g,
              resp = FinderFrame games /\ In g games /\ GAME_ID g = gid
              /\ is_completed_regular_season g)
          /\ gid ∉ processed_ids retry manifest.
Proof.
  split.
  - apply NoDup_list_filter, NoDup_unique.
  - intros gid. rewrite in_new_game_ids, in_unique, in_map_iff.
    split; intros [H Hnew]; (split; [|exact Hnew]).
    + destruct H as (g & Hid & Hg). apply in_get_completed_game_data in Hg
        as (games & Hresp & Hin & Hok). eauto 6.
    + destruct H as (games & g & Hresp & Hin & Hid & Hok). exists g. split; [auto|].
      apply in_get_completed_game_data. eauto.
Qed.

(** X4.  A game normal mode would process is processed in retry-errors
    mode too: the retry filter only ever lets more games through. *)
Theorem retry_mode_processes_no_fewer_games manifest ids gid :
  In gid (new_game_ids false manifest ids) -> In gid (new_game_ids true manifest ids).
Proof.
  rewrite !in_new_game_ids. intros [Hin Hnew]. split; [exact Hin|].
  intros Hretry. apply Hnew.
  apply elem_of_processed_ids_retry in Hretry as (e & He & Hid & _).
  apply elem_of_processed_ids_normal. eauto.
Qed.

Lemma retry_mode_processes_no_fewer_games_witness :
  In "0022500003"%string (new_game_ids true manifest_A ids_A).
Proof.
  apply (retry_mode_processes_no_fewer_games manifest_A ids_A "0022500003").
  vm_compute. left. reflexivity.
Defined.

(** ** The outcome of the fallback fetch *)

Lemma collect_length {A B : Type} (f : A -> result (option B)) (l : list A) out :
  collect f l = Ok out -> (length out <= length l)%nat.
Proof.
  revert out. induction l as [|x l IH]; intros out H; simpl in H.
  - injection H as <-. simpl. lia.
  - inv_bind H. inv_bind H. injection H as <-.
    specialize (IH _ Ha0). destruct a; simpl; lia.
Qed.

Lemma collect_fallback_row_Raise gid (margins : gmap Z Z) l e :
  collect (fallback_row gid margins) l = Raise e -> e = TypeError.
Proof.
  intros H. apply collect_Raise in H as (x & _ & Hx).
  eapply fallback_row_Raise; eauto.
Qed.

Lemma fetch_rows_game_id gid (margins : gmap Z Z) stats r :
  In r (fetch_q4_rows_fallback gid margins stats).1 -> game_id r = gid.
Proof.
  unfold fetch_q4_rows_fallback.
  destruct (length (game_rows_of gid stats) <? 2)%nat; [intros []|].
  destruct (collect _ _) as [out|e] eqn:Hc; [|intros []].
  simpl. intros Hr. apply (collect_In _ _ _ Hc) in Hr as (srow & _ & Hrow).
  destruct (fallback_row_inv _ _ _ _ Hrow)
    as (? & ? & ? & ? & ? & ? & ? & ? & ? & ? & _ & _ & _ & _ & _ & _ & _ & _ & _
        & _ & _ & ->).
  reflexivity.
Qed.

(** X5.  The fallback fetch answers with rows and the status DONE, or
    with no row and one of the statuses SKIP_MEDIUM, ERROR_NO_DATA, or
    "ERROR_" followed by the kind of the exception the estimator raised on
    a team row.  ERROR_NO_DATA is the answer exactly when the game log has
    fewer than two rows for the game; every row returned carries the game's
    id, and there is at most one row per game-log row. *)
Theorem fetch_status_matches_rows gid (margins : gmap Z Z) stats :
  (((fetch_q4_rows_fallback gid margins stats).2 = "DONE"%string
    /\ (fetch_q4_rows_fallback gid margins stats).1 <> [])
   \/ ((fetch_q4_rows_fallback gid margins stats).1 = []
       /\ ((fetch_q4_rows_fallback gid margins stats).2 = "SKIP_MEDIUM"%string
           \/ (fetch_q4_rows_fallback gid margins stats).2 = "ERROR_NO_DATA"%string
           \/ exists srow e,
                In srow (game_rows_of gid stats)
                /\ fallback_row gid margins srow = Raise e
                /\ (fetch_q4_rows_fallback gid margins stats).2
                   = ("ERROR_" ++ exn_name e)%string)))
  /\ ((fetch_q4_rows_fallback gid margins stats).2 = "ERROR_NO_DATA"%string
      <-> (length (game_rows_of gid stats) < 2)%nat)
  /\ (forall r, In r (fetch_q4_rows_fallback gid margins stats).1 -> game_id r = gid)
  /\ (length (fetch_q4_rows_fallback gid margins stats).1
      <= length (game_rows_of gid stats))%nat.
Proof.
  split; [|split; [|split]].
  - unfold fetch_q4_rows_fallback.
    destruct (length (game_rows_of gid stats) <? 2)%nat; [right; auto|].
    destruct (collect (fallback_row gid margins) (game_rows_of gid stats))
      as [out|e] eqn:Hc; simpl.
    + destruct out; [right; auto | left; split; [reflexivity | discriminate]].
    + right. split; [reflexivity|]. right. right.
      apply collect_Raise in Hc as (srow & Hsrow & Hraise). eauto.
  - unfold fetch_q4_rows_fallback.
    destruct (length (game_rows_of gid stats) <? 2)%nat eqn:Hlen.
    + apply Nat.ltb_lt in Hlen. simpl. tauto.
    + apply Nat.ltb_ge in Hlen.
      destruct (collect (fallback_row gid margins) (game_rows_of gid stats))
        as [out|e] eqn:Hc; simpl.
      * split; [|lia]. destruct out; discriminate.
      * apply collect_fallback_row_Raise in Hc as ->. split; [discriminate | lia].
  - apply fetch_rows_game_id.
  - unfold fetch_q4_rows_fallback.
    destruct (length (game_rows_of gid stats) <? 2)%nat; [simpl; lia|].
    destruct (collect (fallback_row gid margins) (game_rows_of gid stats))
      as [out|e] eqn:Hc; simpl; [eapply collect_length; eauto | lia].
Qed.

(** ** The two teams of a game *)

Lemma get_q3_margins_Some_inv resp (m : gmap Z Z) :
  get_q3_margins resp = Some m ->
  exists t1_id t2_id d,
    m = <[t2_id := - d]> (<[t1_id := d]> ∅).
Proof.
  unfold get_q3_margins, get_q3_margins_body.
  destruct resp as [e|dfs]; [discriminate|].
  destruct (extract_line_score_table dfs) as [line|]; [|discriminate].
  destruct (length (rows line) <? 2)%nat; [discriminate|].
  destruct (rows line) as [|t1 [|t2 rest]]; try discriminate.
  destruct (py_int (ls_TEAM_ID t1)) as [t1_id|]; [|discriminate].
  destruct (py_int (ls_TEAM_ID t2)) as [t2_id|]; [|discriminate].
  simpl. intros [= <-]. exists t1_id, t2_id, (PTS_ENTER_Q4 t1 - PTS_ENTER_Q4 t2).
  f_equal. lia.
Qed.

Lemma classify_opposite m :
  classify (- m)
  = match classify m with
    | Some (g, t) =>
        Some (g, if String.eqb t "leading" then "trailing"%string
                 else if String.eqb t "trailing" then "leading"%string
                      else t)
    | None => None
    end.
Proof.
  unfold classify, BLOWOUT_MARGIN_Q4, CLOSE_MARGIN_Q4. rewrite Z.abs_opp.
  destruct (15 <=? Z.abs m) eqn:Hb.
  - apply Z.leb_le in Hb.
    destruct (0 <? m) eqn:Hpos; destruct (0 <? - m) eqn:Hneg; simpl; try reflexivity.
    + apply Z.ltb_lt in Hpos, Hneg. lia.
    + apply Z.ltb_ge in Hpos, Hneg. lia.
  - destruct (Z.abs m <=? 10); reflexivity.
Qed.

(** X6.  The margins of a game's two teams always classify alike: both
    close (and neutral), both out of range, or both blowout with one team
    leading and the other trailing. *)
Theorem two_teams_classify_alike resp (m : gmap Z Z) t1 t2 d1 d2 :
  get_q3_margins resp = Some m ->
  t1 <> t2 -> m !! t1 = Some d1 -> m !! t2 = Some d2 ->
  (classify d1 = None /\ classify d2 = None)
  \/ (classify d1 = Some ("close", "neutral")%string
      /\ classify d2 = Some ("close", "neutral")%string)
  \/ (classify d1 = Some ("blowout", "leading")%string
      /\ classify d2 = Some ("blowout", "trailing")%string)
  \/ (classify d1 = Some ("blowout", "trailing")%string
      /\ classify d2 = Some ("blowout", "leading")%string).
Proof.
  intros Hm Hne H1 H2.
  apply get_q3_margins_Some_inv in Hm as (a & b & d & ->).
  assert (Hopp : d2 = - d1).
  { rewrite lookup_insert in H1, H2.
    destruct (decide (b = t1)) as [E1|N1], (decide (b = t2)) as [E2|N2];
      try congruence.
    - rewrite lookup_insert in H2. destruct (decide (a = t2)); [|discriminate].
      injection H1 as <-. injection H2 as <-. lia.
    - rewrite lookup_insert in H1. destruct (decide (a = t1)); [|discriminate].
      injection H1 as <-. injection H2 as <-. lia.
    - rewrite lookup_insert in H1, H2.
      destruct (decide (a = t1)), (decide (a = t2)); try congruence;
        try discriminate. }
  subst d2. rewrite classify_opposite.
  pose proof (classify_inv d1) as Hinv.
  destruct (classify d1) as [[g t]|]; [|auto].
  destruct (Hinv g t eq_refl) as [(_ & -> & ->) | (_ & -> & ->)].
  - destruct (0 <? d1); simpl; auto.
  - simpl. auto.
Qed.

Lemma two_teams_classify_alike_witness :
  (classify 20 = None /\ classify (-20) = None)
  \/ (classify 20 = Some ("close", "neutral")%string
      /\ classify (-20) = Some ("close", "neutral")%string)
  \/ (classify 20 = Some ("blowout", "leading")%string
      /\ classify (-20) = Some ("blowout", "trailing")%string)
  \/ (classify 20 = Some ("blowout", "trailing")%string
      /\ classify (-20) = Some ("blowout", "leading")%string).
Proof.
  apply (two_teams_classify_alike good_line_score (margins_of 20 (-20)) 1 2 20 (-20)).
  - reflexivity.
  - discriminate.
  - reflexivity.
  - reflexivity.
Defined.

(** ** What a run writes *)

Lemma main_files args w fs :
  get_completed_game_data (finder (upstream w)) <> [] ->
  raw_csv (main args w fs).2 = raw_file (final_state args w fs)
  /\ manifest_csv (main args w fs).2 = manifest_file (final_state args w fs).
Proof.
  unfold main, final_state, games_of_run, initial_state.
  destruct (get_completed_game_data (finder (upstream w))) as [|g games]; [congruence|].
  intros _. destruct (generate_priors _ _ _); split; reflexivity.
Qed.

Lemma game_outcome_cases (up : Upstream) (games : list StatRow) (t gid : string)
    (keys : gset Key) (batch : list TeamPeriodRow) :
  (no_line_score up gid
   /\ exists entry,
       game_outcome up games t gid keys batch = (true, entry, (keys, batch))
       /\ m_game_id entry = gid)
  \/ (~ no_line_score up gid
      /\ exists entry new,
          game_outcome up games t gid keys batch
          = (false, entry, (keys ∪ list_to_set (map row_key new), batch ++ new))
          /\ m_game_id entry = gid
          /\ (forall r, In r new -> game_id r = gid)
          /\ (new <> [] -> status entry = "DONE"%string)).
Proof.
  unfold no_line_score, game_outcome.
  destruct (falsy (get_q3_margins (summary up gid))); [left; eauto|].
  right. split; [discriminate|].
  destruct (fetch_q4_rows_fallback gid (default ∅ (get_q3_margins (summary up gid))) games)
    as [rs st] eqn:Hfetch.
  destruct (String.eqb st "DONE").
  - destruct (stage_rows_spec rs keys batch) as (new & -> & _ & _ & Hsub).
    eexists _, new. split; [reflexivity|]. split; [reflexivity|]. split; [|reflexivity].
    intros r Hr. apply Hsub in Hr.
    apply (fetch_rows_game_id gid (default ∅ (get_q3_margins (summary up gid))) games).
    rewrite Hfetch. exact Hr.
  - eexists _, []. simpl. rewrite app_nil_r, union_empty_r_L.
    split; [reflexivity|]. split; [reflexivity|]. split; [intros ? [] | congruence].
Qed.

Lemma covered_app rs rs' es es' :
  covered rs es -> covered rs' es' -> covered (rs ++ rs') (es ++ es').
Proof.
  intros H H' r Hr. apply in_app_or in Hr as [Hr | Hr].
  - destruct (H r Hr) as (e & He & ?). exists e. split; [apply in_or_app; auto | auto].
  - destruct (H' r Hr) as (e & He & ?). exists e. split; [apply in_or_app; auto | auto].
Qed.

Lemma covered_nil es : covered [] es.
Proof. intros ? []. Qed.

Lemma covered_weaken rs es es' : covered rs es -> covered rs (es ++ es').
Proof.
  intros H. rewrite <- (app_nil_r rs). apply covered_app; [exact H | apply covered_nil].
Qed.

Lemma in_step_flush_if_due raw0 man0 n i st :
  in_step raw0 man0 st -> in_step raw0 man0 (flush_if_due n i st).
Proof.
  intros (Hb & fr & fm & Hraw & Hman & Hf). unfold flush_if_due.
  destruct (_ || _); [|split; eauto].
  split; [apply covered_nil|]. simpl.
  exists (fr ++ batch_raw st), (fm ++ batch_manifest st). split; [|split].
  - rewrite Hraw. destruct (batch_raw st); simpl; now rewrite <- ?app_assoc, ?app_nil_r.
  - rewrite Hman. destruct (batch_manifest st); simpl; now rewrite <- ?app_assoc, ?app_nil_r.
  - apply covered_app; assumption.
Qed.

Lemma in_step_process_game raw0 man0 up games clk n st i gid :
  in_step raw0 man0 st -> in_step raw0 man0 (process_game up games clk n st i gid).
Proof.
  intros (Hb & Hfiles). unfold process_game.
  destruct (game_outcome_cases up games (clk i) gid (existing_keys st) (batch_raw st))
    as [(_ & entry & -> & _) | (_ & entry & new & -> & Hid & Hnew & Hdone)].
  - split; [|exact Hfiles]. simpl. apply covered_weaken. exact Hb.
  - apply in_step_flush_if_due. split; [|exact Hfiles]. simpl.
    apply covered_app; [exact Hb|].
    intros r Hr. exists entry. split; [now left|]. split.
    + rewrite Hid. symmetry. auto.
    + apply Hdone. intros ->. destruct Hr.
Qed.

Lemma in_step_main_loop raw0 man0 up games clk n i gids st :
  in_step raw0 man0 st -> in_step raw0 man0 (main_loop up games clk n i gids st).
Proof.
  revert i st. induction gids as [|gid gids IH]; intros i st H; simpl; [exact H|].
  apply IH, in_step_process_game, H.
Qed.

(** X7.  A run only appends to the raw store and to the manifest, and
    every row it appends to the raw store belongs to a game for which it
    appends a DONE entry to the manifest. *)
Theorem appended_rows_have_done_entries args w fs :
  exists rows_added entries_added,
    raw_csv (main args w fs).2 = raw_csv fs ++ rows_added
    /\ manifest_csv (main args w fs).2 = manifest_csv fs ++ entries_added
    /\ covered rows_added entries_added.
Proof.
  destruct (get_completed_game_data (finder (upstream w))) as [|g games] eqn:Hgames.
  - rewrite main_without_games by exact Hgames. exists [], [].
    rewrite !app_nil_r. repeat split. apply covered_nil.
  - destruct (main_files args w fs) as [-> ->]; [congruence|].
    destruct (in_step_main_loop (raw_csv fs) (manifest_csv fs) (upstream w)
                (get_completed_game_data (finder (upstream w))) (clock w)
                (length (games_of_run args w fs)) 0 (games_of_run args w fs)
                (initial_state fs)) as (_ & fr & fm & Hraw & Hman & Hcov).
    + split; [apply covered_nil|]. exists [], []. simpl. rewrite !app_nil_r.
      repeat split. apply covered_nil.
    + exists fr, fm. auto.
Qed.

Lemma main_loop_all_manifest up games clk n i gids st :
  exists entries,
    all_manifest (main_loop up games clk n i gids st) = all_manifest st ++ entries
    /\ map m_game_id entries = gids
    /\ Forall (fun e => status e = "DONE"%string \/ status e = "SKIP_MEDIUM"%string
                        \/ status e = "ERROR"%string) entries.
Proof.
  revert i st. induction gids as [|gid gids IH]; intros i st; simpl.
  - exists []. rewrite app_nil_r. auto.
  - destruct (IH (S i) (process_game up games clk n st i gid)) as (entries & Hall & Hids & Hst).
    rewrite all_manifest_process_game in Hall.
    destruct (game_outcome_entry up games (clk i) gid (existing_keys st) (batch_raw st))
      as [Hid Hstatus].
    eexists (_ :: entries). split; [|split].
    + rewrite Hall, <- app_assoc. reflexivity.
    + simpl. now rewrite Hid, Hids.
    + constructor; assumption.
Qed.

Lemma games_of_run_without_games args w fs :
  get_completed_game_data (finder (upstream w)) = [] -> games_of_run args w fs = [].
Proof. unfold games_of_run. intros ->. reflexivity. Qed.

Lemma run_manifest args w fs :
  exists written staged,
    manifest_csv (main args w fs).2 = manifest_csv fs ++ written
    /\ batch_manifest (final_state args w fs) = staged
    /\ map m_game_id (written ++ staged) = games_of_run args w fs
    /\ Forall (fun e => status e = "DONE"%string \/ status e = "SKIP_MEDIUM"%string
                        \/ status e = "ERROR"%string) written.
Proof.
  destruct (get_completed_game_data (finder (upstream w))) as [|g games] eqn:Hgames.
  - rewrite main_without_games by exact Hgames. exists [], [].
    unfold final_state. rewrite (games_of_run_without_games _ _ _ Hgames). simpl.
    rewrite app_nil_r. auto.
  - destruct (main_files args w fs) as [_ ->]; [congruence|].
    unfold final_state. rewrite Hgames.
    set (F := main_loop _ _ _ _ _ _ _).
    destruct (main_loop_all_manifest (upstream w) (g :: games) (clock w)
                (length (games_of_run args w fs)) 0 (games_of_run args w fs)
                (initial_state fs)) as (entries & Hall & Hids & Hst).
    destruct (in_step_main_loop (raw_csv fs) (manifest_csv fs) (upstream w)
                (g :: games) (clock w)
                (length (games_of_run args w fs)) 0 (games_of_run args w fs)
                (initial_state fs)) as (_ & fr & fm & _ & Hman & _).
    { split; [apply covered_nil|]. exists [], []. simpl. rewrite !app_nil_r.
      repeat split. apply covered_nil. }
    fold F in Hall, Hman. unfold all_manifest in Hall. simpl in Hall.
    rewrite app_nil_r, Hman, <- app_assoc in Hall. apply app_inv_head in Hall.
    exists fm, (batch_manifest F). split; [exact Hman|]. split; [reflexivity|].
    rewrite Hall. split; [exact Hids|].
    rewrite <- Hall in Hst. apply Forall_app in Hst. tauto.
Qed.

(** The ids discovery keeps are read back from the manifest as they were
    written: none is a missing-value marker. *)
Lemma na_value_prefix s : String.prefix "002" s = true -> na_value s = false.
Proof.
  intros Hp. unfold na_value. destruct (existsb (String.eqb s) NA_VALUES) eqn:Hna; [|reflexivity].
  apply existsb_exists in Hna as (y & Hy & Heq). apply String.eqb_eq in Heq. subst y.
  unfold NA_VALUES in Hy. simpl in Hy.
  repeat (destruct Hy as [<- | Hy]; [discriminate Hp|]). destruct Hy.
Qed.

Lemma read_entry_id e gid :
  String.prefix "002" gid = true ->
  m_game_id (read_entry e) = gid <-> m_game_id e = gid.
Proof.
  intros Hp. unfold read_entry, read_text. simpl.
  destruct (na_value (m_game_id e)) eqn:Hna; simpl.
  - split; intros H.
    + subst gid. discriminate Hp.
    + subst gid. rewrite (na_value_prefix _ Hp) in Hna. discriminate.
  - reflexivity.
Qed.

Lemma games_of_run_prefix args w fs gid :
  In gid (games_of_run args w fs) -> String.prefix "002" gid = true.
Proof.
  unfold games_of_run. rewrite in_new_game_ids, in_unique, in_map_iff.
  intros [(g & <- & Hg) _]. apply in_get_completed_game_data in Hg as (_ & _ & _ & Hok).
  apply Hok.
Qed.

Lemma processed_ids_load_normal file gid :
  String.prefix "002" gid = true ->
  gid ∈ processed_ids false (load_manifest file) <-> exists e, In e file /\ m_game_id e = gid.
Proof.
  intros Hp. rewrite elem_of_processed_ids_normal. unfold load_manifest. split.
  - intros (e' & He' & Hid). apply in_map_iff in He' as (e & <- & He).
    exists e. split; [exact He|]. apply (read_entry_id e gid Hp). exact Hid.
  - intros (e & He & Hid). exists (read_entry e). split; [apply in_map; exact He|].
    apply (read_entry_id e gid Hp). exact Hid.
Qed.

(** X8.  The manifest entries a run writes are entries for games of its
    list of games to process, one per game and in the list's order, with
    status DONE, SKIP_MEDIUM or ERROR.  So in normal mode, where that list
    leaves out every game of the manifest, a manifest with one entry per
    game keeps one entry per game. *)
Theorem manifest_entries_follow_the_games_to_process :
  (forall args w fs,
      exists written not_written,
        manifest_csv (main args w fs).2 = manifest_csv fs ++ written
        /\ map m_game_id written ++ not_written = games_of_run args w fs
        /\ Forall (fun e => status e = "DONE"%string \/ status e = "SKIP_MEDIUM"%string
                            \/ status e = "ERROR"%string) written)
  /\ (forall args w fs,
         arg_retry_errors args = false ->
         NoDup (map m_game_id (manifest_csv fs)) ->
         NoDup (map m_game_id (manifest_csv (main args w fs).2))).
Proof.
  split.
  - intros args w fs.
    destruct (run_manifest args w fs) as (written & staged & Hman & _ & Hids & Hst).
    exists written, (map m_game_id staged). rewrite <- map_app. auto.
  - intros args w fs Hmode Hnd.
    destruct (run_manifest args w fs) as (written & staged & -> & _ & Hids & _).
    rewrite map_app in Hids.
    assert (Hgids : NoDup (games_of_run args w fs)).
    { apply NoDup_list_filter, NoDup_unique. }
    rewrite <- Hids in Hgids. apply NoDup_app in Hgids as (Hw & _ & _).
    rewrite map_app. apply NoDup_app. split; [exact Hnd|]. split; [|exact Hw].
    intros gid Hold Hnew. rewrite list_elem_of_In in Hold, Hnew.
    assert (Hin : In gid (games_of_run args w fs)).
    { rewrite <- Hids. apply in_or_app. auto. }
    pose proof (games_of_run_prefix _ _ _ _ Hin) as Hp.
    unfold games_of_run in Hin. rewrite Hmode in Hin.
    apply in_new_game_ids in Hin as [_ Hfresh]. apply Hfresh.
    apply (processed_ids_load_normal _ _ Hp).
    apply in_map_iff in Hold as (e & He1 & He2). eauto.
Qed.

Lemma manifest_entries_follow_the_games_to_process_witness :
  NoDup (map m_game_id (manifest_csv (main args_normal world_BA files_one_error).2)).
Proof.
  apply (proj2 manifest_entries_follow_the_games_to_process
           args_normal world_BA files_one_error).
  - reflexivity.
  - apply (bool_decide_unpack _). vm_compute. exact I.
Defined.

(** ** The last game of a run *)

Lemma flush_if_due_last n i st :
  i = (n - 1)%nat ->
  batch_raw (flush_if_due n i st) = [] /\ batch_manifest (flush_if_due n i st) = [].
Proof.
  intros ->. unfold flush_if_due. rewrite Nat.eqb_refl, orb_true_r. auto.
Qed.

Lemma main_loop_flushes_at_the_end up games clk n i gids g st :
  (i + length gids = n)%nat -> last gids = Some g -> ~ no_line_score up g ->
  batch_raw (main_loop up games clk n i gids st) = []
  /\ batch_manifest (main_loop up games clk n i gids st) = [].
Proof.
  revert i st. induction gids as [|gid [|gid' gids] IH]; intros i st Hn Hlast Hok.
  - discriminate.
  - injection Hlast as <-. simpl. unfold process_game.
    destruct (game_outcome_cases up games (clk i) gid (existing_keys st) (batch_raw st))
      as [(Hno & _) | (_ & entry & new & -> & _)]; [contradiction|].
    apply flush_if_due_last. simpl in Hn. lia.
  - change (main_loop up games clk n i (gid :: gid' :: gids) st)
      with (main_loop up games clk n (S i) (gid' :: gids)
              (process_game up games clk n st i gid)).
    apply IH; [simpl in *; lia | exact Hlast | exact Hok].
Qed.

Lemma list_filter_nil {A : Type} (f : A -> bool) (l : list A) :
  (forall x, In x l -> f x = false) -> List.filter f l = [].
Proof.
  induction l as [|x l IH]; intros H; simpl; [reflexivity|].
  rewrite (H x) by (simpl; auto). apply IH. intros y Hy. apply H. simpl; auto.
Qed.

(** The clock only stamps the document. *)
Lemma generate_priors_clock df season0 now0 now1 :
  match generate_priors df season0 now0, generate_priors df season0 now1 with
  | Ok d0, Ok d1 => same_document (Some d0) (Some d1)
  | Raise e0, Raise e1 => e0 = e1
  | _, _ => False
  end.
Proof.
  unfold generate_priors. destruct (df_rows df) as [|r rs]; [simpl; auto|].
  destruct (py_sorted _) as [teams|e]; simpl; [|reflexivity].
  destruct (collect _ _) as [ps|e]; simpl; auto.
Qed.

(** X9.  When the last game a run goes through has a usable line score,
    the run ends with nothing left staged: the manifest has gained exactly
    one entry for each game of the list, in order.  In normal mode a second
    run over the same upstream data, at whatever time, then finds no game
    to process: it leaves the raw store and the manifest as the first run
    left them, ends with the same exit code, and writes a priors document
    with the same league, season and entries (none if the first run wrote
    none); only the timestamp of the document is new. *)
Theorem complete_run_is_idempotent args w w' fs g :
  last (games_of_run args w fs) = Some g ->
  ~ no_line_score (upstream w) g ->
  upstream w' = upstream w ->
  (exists written,
      manifest_csv (main args w fs).2 = manifest_csv fs ++ written
      /\ map m_game_id written = games_of_run args w fs)
  /\ batch_raw (final_state args w fs) = []
  /\ (arg_retry_errors args = false ->
      games_of_run args w' (main args w fs).2 = []
      /\ raw_csv (main args w' (main args w fs).2).2 = raw_csv (main args w fs).2
      /\ manifest_csv (main args w' (main args w fs).2).2 = manifest_csv (main args w fs).2
      /\ (main args w' (main args w fs).2).1 = (main args w fs).1
      /\ same_document (priors_json (main args w' (main args w fs).2).2)
           (priors_json (main args w fs).2)).
Proof.
  intros Hlast Hok Hup.
  assert (Hgames : get_completed_game_data (finder (upstream w)) <> []).
  { intros H. rewrite (games_of_run_without_games _ _ _ H) in Hlast. discriminate. }
  destruct (main_loop_flushes_at_the_end (upstream w)
              (get_completed_game_data (finder (upstream w))) (clock w)
              (length (games_of_run args w fs)) 0 (games_of_run args w fs) g
              (initial_state fs)) as [Hraw Hman]; [reflexivity | exact Hlast | exact Hok |].
  fold (final_state args w fs) in Hraw, Hman.
  destruct (run_manifest args w fs) as (written & staged & Hw & Hstaged & Hids & _).
  rewrite Hman in Hstaged. subst staged. rewrite app_nil_r in Hids.
  split; [eauto|]. split; [exact Hraw|].
  intros Hmode.
  set (fs' := (main args w fs).2).
  assert (Hraw' : raw_csv fs' = raw_file (final_state args w fs)).
  { unfold fs'. rewrite main_with_games by exact Hgames.
    destruct (aggregation args w fs); reflexivity. }
  assert (Hman' : manifest_csv fs' = manifest_csv fs ++ written) by exact Hw.
  assert (Hnone : games_of_run args w' fs' = []).
  { unfold games_of_run, new_game_ids. rewrite Hup. apply list_filter_nil. intros gid Hgid.
    apply bool_decide_eq_false. intros Hfresh. apply Hfresh. rewrite Hmode.
    assert (Hp : String.prefix "002" gid = true).
    { apply in_unique, in_map_iff in Hgid as (g0 & <- & Hg0).
      apply in_get_completed_game_data in Hg0 as (_ & _ & _ & Hg0). apply Hg0. }
    apply (processed_ids_load_normal _ _ Hp). rewrite Hman'.
    destruct (decide (gid ∈ processed_ids false (load_manifest (manifest_csv fs))))
      as [Hold | Hnew].
    - apply (processed_ids_load_normal _ _ Hp) in Hold as (e & He & Hid).
      exists e. split; [apply in_or_app; auto | exact Hid].
    - assert (Hin : In gid (games_of_run args w fs)).
      { unfold games_of_run. rewrite Hmode. apply in_new_game_ids. auto. }
      rewrite <- Hids in Hin. apply in_map_iff in Hin as (e & Hid & He).
      exists e. split; [apply in_or_app; auto | exact Hid]. }
  assert (HF : final_state args w' fs' = initial_state fs').
  { unfold final_state. rewrite Hnone. reflexivity. }
  assert (Hagg : aggregation args w' fs'
                 = generate_priors (load_raw_cache (raw_file (final_state args w fs)))
                     (arg_season args) (now w')).
  { unfold aggregation. rewrite HF. simpl. rewrite Hraw'. reflexivity. }
  assert (Hgames' : get_completed_game_data (finder (upstream w')) <> [])
    by (rewrite Hup; exact Hgames).
  split; [exact Hnone|].
  rewrite (main_with_games args w' fs' Hgames'), Hagg, HF.
  pose proof (main_with_games args w fs Hgames) as Hmain. unfold aggregation in Hmain.
  pose proof (generate_priors_clock (load_raw_cache (raw_file (final_state args w fs)))
                (arg_season args) (now w') (now w)) as Hclock.
  clear Hnone HF Hagg Hraw' Hman'. subst fs'. rewrite Hmain.
  destruct (generate_priors _ _ (now w')) as [d1|e1], (generate_priors _ _ (now w)) as [d0|e0];
    simpl in Hclock |- *; try contradiction; auto.
Qed.

Lemma complete_run_is_idempotent_witness :
  (exists written,
      manifest_csv (main args_normal world_BA no_files).2 = manifest_csv no_files ++ written
      /\ map m_game_id written = games_of_run args_normal world_BA no_files)
  /\ batch_raw (final_state args_normal world_BA no_files) = []
  /\ (arg_retry_errors args_normal = false ->
      games_of_run args_normal world_BA_later (main args_normal world_BA no_files).2 = []
      /\ raw_csv (main args_normal world_BA_later (main args_normal world_BA no_files).2).2
         = raw_csv (main args_normal world_BA no_files).2
      /\ manifest_csv (main args_normal world_BA_later (main args_normal world_BA no_files).2).2
         = manifest_csv (main args_normal world_BA no_files).2
      /\ (main args_normal world_BA_later (main args_normal world_BA no_files).2).1
         = (main args_normal world_BA no_files).1
      /\ same_document
           (priors_json (main args_normal world_BA_later
                           (main args_normal world_BA no_files).2).2)
           (priors_json (main args_normal world_BA no_files).2)).
Proof.
  apply (complete_run_is_idempotent args_normal world_BA world_BA_later no_files game_A).
  - reflexivity.
  - unfold no_line_score. vm_compute. discriminate.
  - reflexivity.
Defined.

(** The second run's document differs from the first one's: the timestamp
    is the later one. *)
Example second_run_restamps_the_document :
  (generated_at <$> priors_json (main args_normal world_BA no_files).2)
  = Some (Some "2026-01-05T03:12:45"%string)
  /\ (generated_at <$> priors_json (main args_normal world_BA_later
                                       (main args_normal world_BA no_files).2).2)
     = Some (Some "2026-01-06T09:30:00"%string).
Proof. split; vm_compute; reflexivity. Qed.

Lemma main_loop_without_flush up games clk n i gids g st :
  (i + length gids = n)%nat -> (n <= BATCH_SIZE)%nat ->
  length (batch_manifest st) = i ->
  last gids = Some g -> no_line_score up g ->
  raw_file (main_loop up games clk n i gids st) = raw_file st
  /\ manifest_file (main_loop up games clk n i gids st) = manifest_file st.
Proof.
  revert i st. induction gids as [|gid [|gid' gids] IH]; intros i st Hn Hbatch Hlen Hlast Hno.
  - discriminate.
  - injection Hlast as <-. simpl. unfold process_game.
    destruct (game_outcome_cases up games (clk i) gid (existing_keys st) (batch_raw st))
      as [(_ & entry & -> & _) | (Hok & _)]; [|contradiction].
    simpl. auto.
  - change (main_loop up games clk n i (gid :: gid' :: gids) st)
      with (main_loop up games clk n (S i) (gid' :: gids)
              (process_game up games clk n st i gid)).
    assert (Hstep : raw_file (process_game up games clk n st i gid) = raw_file st
                    /\ manifest_file (process_game up games clk n st i gid)
                       = manifest_file st
                    /\ length (batch_manifest (process_game up games clk n st i gid))
                       = S i).
    { unfold process_game.
      destruct (game_outcome_cases up games (clk i) gid (existing_keys st) (batch_raw st))
        as [(_ & entry & -> & _) | (_ & entry & new & -> & _)]; simpl.
      - rewrite length_app. simpl. repeat split. lia.
      - unfold flush_if_due, add_manifest. cbn [batch_manifest raw_file manifest_file].
        rewrite length_app. cbn [length].
        replace (BATCH_SIZE <=? length (batch_manifest st) + 1)%nat with false
          by (symmetry; apply Nat.leb_gt; simpl in Hn; lia).
        replace (i =? n - 1)%nat with false
          by (symmetry; apply Nat.eqb_neq; simpl in Hn; lia).
        cbn [orb batch_manifest raw_file manifest_file]. rewrite length_app.
        cbn [length]. repeat split. lia. }
    destruct Hstep as (Hraw & Hman & Hlen').
    destruct (IH (S i) (process_game up games clk n st i gid)) as [-> ->];
      auto. simpl in *. lia.
Qed.

(** X10.  When a run has at most [BATCH_SIZE] games to go through and the
    last of them has no usable line score, the loop never reaches its
    flush: the run leaves the raw store and the manifest exactly as it
    found them, whatever the earlier games produced. *)
Theorem run_ending_without_line_score_writes_nothing args w fs g :
  (length (games_of_run args w fs) <= BATCH_SIZE)%nat ->
  last (games_of_run args w fs) = Some g ->
  no_line_score (upstream w) g ->
  raw_csv (main args w fs).2 = raw_csv fs
  /\ manifest_csv (main args w fs).2 = manifest_csv fs.
Proof.
  intros Hlen Hlast Hno.
  assert (Hgames : get_completed_game_data (finder (upstream w)) <> []).
  { intros H. rewrite (games_of_run_without_games _ _ _ H) in Hlast. discriminate. }
  destruct (main_files args w fs Hgames) as [-> ->].
  apply (main_loop_without_flush (upstream w)
           (get_completed_game_data (finder (upstream w))) (clock w)
           (length (games_of_run args w fs)) 0 (games_of_run args w fs) g
           (initial_state fs)); auto.
Qed.

Lemma run_ending_without_line_score_writes_nothing_witness :
  raw_csv (main args_normal world_AB no_files).2 = raw_csv no_files
  /\ manifest_csv (main args_normal world_AB no_files).2 = manifest_csv no_files.
Proof.
  apply (run_ending_without_line_score_writes_nothing args_normal world_AB no_files game_B).
  - vm_compute. lia.
  - reflexivity.
  - reflexivity.
Defined.

(** ** Staging rows *)

Lemma stage_rows_keys (rs : list TeamPeriodRow) (keys : gset Key)
    (batch : list TeamPeriodRow) :
  forall r, In r rs -> row_key r ∈ (stage_rows rs keys batch).1.
Proof.
  revert keys batch. induction rs as [|r0 rs IH]; intros keys batch r; simpl; [intros []|].
  assert (Hmono : forall (ks : gset Key) b k, k ∈ ks -> k ∈ (stage_rows rs ks b).1).
  { intros ks b k Hk. destruct (stage_rows_spec rs ks b) as (new & -> & _). simpl.
    apply elem_of_union_l. exact Hk. }
  destruct (decide (row_key r0 ∈ keys)) as [Hin | Hnin]; intros [<- | Hr]; auto.
  apply Hmono. apply elem_of_union_r. apply elem_of_singleton. reflexivity.
Qed.

Lemma stage_rows_seen (rs : list TeamPeriodRow) (keys : gset Key)
    (batch : list TeamPeriodRow) :
  (forall r, In r rs -> row_key r ∈ keys) -> stage_rows rs keys batch = (keys, batch).
Proof.
  induction rs as [|r rs IH]; intros H; simpl; [reflexivity|].
  destruct (decide (row_key r ∈ keys)) as [_ | Hnin].
  - apply IH. intros r' Hr'. apply H. simpl; auto.
  - exfalso. apply Hnin. apply H. simpl; auto.
Qed.

(** X11.  After the rows of a game are staged, the key of every one of
    them is in the set of seen keys, and the rows staged keep the order of
    the candidates; staging the same rows once more stages nothing. *)
Theorem staging_twice_stages_nothing (rs : list TeamPeriodRow) (keys : gset Key)
    (batch batch' : list TeamPeriodRow) :
  (forall r, In r rs -> row_key r ∈ (stage_rows rs keys batch).1)
  /\ (exists new, (stage_rows rs keys batch).2 = batch ++ new /\ sublist new rs)
  /\ stage_rows rs (stage_rows rs keys batch).1 batch'
     = ((stage_rows rs keys batch).1, batch').
Proof.
  split; [apply stage_rows_keys|]. split.
  - revert keys batch. induction rs as [|r rs IH]; intros keys batch; simpl.
    + exists []. rewrite app_nil_r. split; [reflexivity | constructor].
    + destruct (decide (row_key r ∈ keys)).
      * destruct (IH keys batch) as (new & -> & Hsub). exists new.
        split; [reflexivity | now constructor].
      * destruct (IH (keys ∪ {[row_key r]}) (batch ++ [r])) as (new & -> & Hsub).
        exists (r :: new). rewrite <- app_assoc. split; [reflexivity | now constructor].
  - apply stage_rows_seen, stage_rows_keys.
Qed.

(** ** Keys that read back *)

Lemma read_text_Some s : na_value s = false -> read_text s = Some s.
Proof. unfold read_text. intros ->. reflexivity. Qed.



Section RowsThatReadBack.

Variables (up : Upstream) (games : list StatRow) (clk : nat -> string) (n : nat).
Variable raw0 : list TeamPeriodRow.
Hypothesis Habbr :
  forall g, In g games -> na_value (team_abbr_of (TEAM_ABBREVIATION g)) = false.




End RowsThatReadBack.




(** ** The accuracy of rounding *)

(** X12.  The numbers of an output entry are within half a unit of their
    last decimal of the exact values: the baseline pace and rating within
    0.005 of the weighted means, each delta within 0.00005 of the ratio of
    the bucket's mean to the baseline mean, whenever that value is a
    number. *)
Theorem emitted_numbers_are_close df season0 now0 doc e :
  generate_priors df season0 now0 = Ok doc ->
  In e (priors doc) ->
  (forall x, weighted_mean_of pace (close_rows df (p_team e)) = Fin x ->
             close_to (b_pace (baseline e)) x 0.005)
  /\ (forall x, weighted_mean_of ortg (close_rows df (p_team e)) = Fin x ->
                close_to (b_ortg (baseline e)) x 0.005)
  /\ (forall state field d,
         (state = "leading"%string /\ field = leading e)
         \/ (state = "trailing"%string /\ field = trailing e) ->
         field = Some d ->
         (forall x,
             div (weighted_mean_of pace (bucket_rows df (p_team e) state))
                 (weighted_mean_of pace (close_rows df (p_team e))) = Fin x ->
             close_to (paceDelta d) x 0.00005)
         /\ (forall x,
                div (weighted_mean_of ortg (bucket_rows df (p_team e) state))
                    (weighted_mean_of ortg (close_rows df (p_team e))) = Fin x ->
                close_to (pppDelta d) x 0.00005)).
Proof.
  intros Hdoc Hin.
  pose proof (generate_priors_entries _ _ _ _ _ Hdoc Hin) as He.
  destruct (team_prior_inv _ _ _ He) as (cs & _ & _ & _ & _ & Hbase & _ & Hl & Ht).
  rewrite Hbase. simpl. split; [|split].
  - intros x ->. apply round_close_to. vm_compute. discriminate.
  - intros x ->. apply round_close_to. vm_compute. discriminate.
  - intros state field d Hstate Hfield.
    assert (Hb : bucket_field df (p_team e) state
                   (weighted_mean_of pace (close_rows df (p_team e)))
                   (weighted_mean_of ortg (close_rows df (p_team e))) field).
    { destruct Hstate as [[-> ->] | [-> ->]]; assumption. }
    destruct Hb as (s & _ & [[_ Hnone] | (_ & d' & Hsome & Hp & Ho & _)]);
      [congruence|].
    assert (d' = d) as -> by congruence.
    rewrite Hp, Ho. split; intros x ->; apply round_close_to; vm_compute; discriminate.
Qed.

Lemma emitted_numbers_are_close_witness :
  close_to (paceDelta {| paceDelta := Fin 1.1111; pppDelta := Fin 1.0909; d_nPoss := 25 |})
    (10 # 9) 0.00005.
Proof.
  destruct (emitted_numbers_are_close df_ratio "2025-26" "2026-01-05T03:12:45"
              doc_ratio entry_DEN) as (_ & _ & Hdelta).
  - reflexivity.
  - simpl. left. reflexivity.
  - destruct (Hdelta "leading"%string (leading entry_DEN)
                {| paceDelta := Fin 1.1111; pppDelta := Fin 1.0909; d_nPoss := 25 |})
      as [Hpace _].
    + left. split; reflexivity.
    + reflexivity.
    + apply Hpace. reflexivity.
Defined.

(** ** The order of the output *)

Lemma string_ltb_lt a b : string_lt a b <-> OrderedTypeEx.String_as_OT.lt a b.
Proof.
  unfold string_lt, String.ltb. rewrite <- OrderedTypeEx.String_as_OT.cmp_lt.
  unfold OrderedTypeEx.String_as_OT.cmp.
  destruct (String.compare a b); split; congruence.
Qed.

Lemma string_leb_cases a b : string_le a b <-> a = b \/ string_lt a b.
Proof.
  unfold string_le, string_lt, String.leb, String.ltb.
  destruct (String.compare a b) eqn:Hc; split; try intuition congruence.
  - intros _. left. apply String.compare_eq_iff. exact Hc.
  - intros [-> | H]; [|discriminate].
    assert (Hrefl : String.compare b b = Eq).
    { apply OrderedTypeEx.String_as_OT.cmp_eq. reflexivity. }
    unfold OrderedTypeEx.String_as_OT.cmp in Hrefl. congruence.
Qed.

Lemma string_lt_trans a b c : string_lt a b -> string_lt b c -> string_lt a c.
Proof.
  rewrite !string_ltb_lt. apply OrderedTypeEx.String_as_OT.lt_trans.
Qed.

Lemma string_lt_irrefl a : ~ string_lt a a.
Proof.
  rewrite string_ltb_lt. intros H.
  exact (OrderedTypeEx.String_as_OT.lt_not_eq _ _ H eq_refl).
Qed.

Lemma string_le_trans a b c : string_le a b -> string_le b c -> string_le a c.
Proof.
  rewrite !string_leb_cases. intros [-> | H1] [-> | H2]; auto.
  right. eapply string_lt_trans; eauto.
Qed.

Lemma string_le_total a b : string_le a b \/ string_le b a.
Proof. apply String.leb_total. Qed.

Lemma in_insert_sorted x y l : In x (insert_sorted y l) <-> x = y \/ In x l.
Proof.
  induction l as [|z l IH]; simpl; [intuition|].
  destruct (String.leb y z); simpl; [intuition|]. rewrite IH. intuition.
Qed.

Lemma in_sorted x l : In x (sorted l) <-> In x l.
Proof.
  induction l as [|y l IH]; simpl; [tauto|].
  rewrite in_insert_sorted, IH. intuition.
Qed.

Lemma insert_sorted_StronglySorted x l :
  StronglySorted string_le l -> StronglySorted string_le (insert_sorted x l).
Proof.
  induction 1 as [|z l Hl IH Hz]; simpl; [repeat constructor|].
  destruct (String.leb x z) eqn:Hxz.
  - constructor; [constructor; assumption|]. constructor; [exact Hxz|].
    rewrite Forall_forall in Hz |- *. intros y Hy.
    eapply string_le_trans; [exact Hxz | apply Hz, Hy].
  - constructor; [exact IH|]. rewrite Forall_forall in Hz |- *.
    intros y Hy. rewrite list_elem_of_In, in_insert_sorted in Hy.
    destruct Hy as [-> | Hy]; [|apply Hz; rewrite list_elem_of_In; exact Hy].
    destruct (string_le_total x z) as [H | H]; [unfold string_le in H; congruence | exact H].
Qed.

Lemma sorted_StronglySorted l : StronglySorted string_le (sorted l).
Proof.
  induction l as [|x l IH]; simpl; [constructor | now apply insert_sorted_StronglySorted].
Qed.

Lemma NoDup_insert_sorted x l : ~ In x l -> NoDup l -> NoDup (insert_sorted x l).
Proof.
  induction l as [|z l IH]; simpl; intros Hx Hl.
  - apply NoDup_singleton.
  - apply NoDup_cons in Hl as [Hz Hl]. rewrite list_elem_of_In in Hz.
    destruct (String.leb x z).
    + apply NoDup_cons. split; [|apply NoDup_cons; rewrite list_elem_of_In; auto].
      rewrite list_elem_of_In. simpl. tauto.
    + apply NoDup_cons. split; [|apply IH; tauto].
      rewrite list_elem_of_In, in_insert_sorted. intros [-> | H]; tauto.
Qed.

Lemma NoDup_sorted l : NoDup l -> NoDup (sorted l).
Proof.
  induction 1 as [|x l Hx Hl IH]; simpl; [constructor|].
  apply NoDup_insert_sorted; [|exact IH].
  rewrite in_sorted, <- list_elem_of_In. exact Hx.
Qed.

Lemma StronglySorted_strict l :
  StronglySorted string_le l -> NoDup l -> StronglySorted string_lt l.
Proof.
  induction 1 as [|x l Hl IH Hx]; intros Hnd; [constructor|].
  apply NoDup_cons in Hnd as [Hnx Hnd]. constructor; [auto|].
  rewrite Forall_forall in Hx |- *. intros y Hy.
  destruct (proj1 (string_leb_cases x y) (Hx y Hy)) as [-> | H]; [contradiction | exact H].
Qed.

Lemma StronglySorted_sublist {A : Type} (R : A -> A -> Prop) (l1 l2 : list A) :
  sublist l1 l2 -> StronglySorted R l2 -> StronglySorted R l1.
Proof.
  induction 1 as [|x l1 l2 Hsub IH|x l1 l2 Hsub IH]; intros Hs; [constructor| |].
  - apply StronglySorted_inv in Hs as [Hs Hx]. constructor; [auto|].
    rewrite Forall_forall in Hx |- *. intros y Hy. apply Hx.
    eapply elem_of_sublist; eauto.
  - apply StronglySorted_inv in Hs as [Hs _]. auto.
Qed.

Lemma omap_id_Some (l : list string) : omap id (map Some l) = l.
Proof. induction l as [|x l IH]; [reflexivity|]. cbn. f_equal. exact IH. Qed.

Lemma NoDup_omap_id (l : list (option string)) : NoDup l -> NoDup (omap id l).
Proof.
  induction 1 as [|x l Hx Hl IH]; simpl; [constructor|].
  destruct x as [s|]; simpl; [|exact IH].
  apply NoDup_cons. split; [|exact IH].
  rewrite list_elem_of_omap. intros (c & Hc & Hs). simpl in Hs. subst c. contradiction.
Qed.

(** The strings of a sorted column are the sorted strings of the column. *)
Lemma py_sorted_strings l teams :
  py_sorted l = Ok teams -> omap id teams = sorted (omap id l).
Proof.
  unfold py_sorted. destruct (omap id l) as [|s ss] eqn:Hss.
  - intros [= <-]. rewrite Hss. reflexivity.
  - destruct (forallb _ l); [|discriminate]. intros [= <-]. apply omap_id_Some.
Qed.

Lemma collect_prior_of_sublist df teams out :
  collect (prior_of df) teams = Ok out -> sublist (map p_team out) (omap id teams).
Proof.
  revert out. induction teams as [|t teams IH]; intros out H; simpl in H.
  - injection H as <-. constructor.
  - inv_bind H. inv_bind H. injection H as <-. specialize (IH _ Ha0).
    destruct a as [e|].
    + apply prior_of_Some in Ha as [-> _]. simpl. now constructor.
    + destruct t as [s|]; simpl; [now constructor | exact IH].
Qed.

(** The teams of the entries, in order, are among the sorted team names of
    the table. *)
Lemma priors_teams_sublist df season0 now0 doc :
  generate_priors df season0 now0 = Ok doc ->
  sublist (map p_team (priors doc)) (sorted (omap id (unique (map team (df_rows df))))).
Proof.
  intros H. apply generate_priors_inv in H as [[_ ->] | (_ & teams & Hs & Hc & _)].
  - apply sublist_nil_l.
  - rewrite <- (py_sorted_strings _ _ Hs). exact (collect_prior_of_sublist df _ _ Hc).
Qed.

Lemma in_close_rows df team0 r :
  In r (close_rows df team0) -> In r (df_rows df) /\ team r = Some team0.
Proof.
  intros H.
  assert (Hu : In r (close_rows_unfiltered df team0)).
  { unfold close_rows in H. destruct (_ && _); [apply filter_In in H as [H _]|]; exact H. }
  unfold close_rows_unfiltered, team_rows in Hu.
  apply filter_In in Hu as [Hu _]. apply filter_In in Hu as [Hin Ht].
  split; [exact Hin|]. unfold cell_eqb in Ht. destruct (team r) as [t|]; [|discriminate].
  apply String.eqb_eq in Ht. now subst.
Qed.

(** X13.  The entries of the priors output are in strictly increasing
    order of team name, so no team has two entries, and every entry is for
    a team that has rows in the raw store. *)
Theorem priors_are_sorted_by_team df season0 now0 doc :
  generate_priors df season0 now0 = Ok doc ->
  StronglySorted string_lt (map p_team (priors doc))
  /\ NoDup (map p_team (priors doc))
  /\ forall e, In e (priors doc) ->
               exists r, In r (df_rows df) /\ team r = Some (p_team e).
Proof.
  intros Hdoc. pose proof (priors_teams_sublist _ _ _ _ Hdoc) as Hsub.
  assert (Hnd : NoDup (sorted (omap id (unique (map team (df_rows df)))))).
  { apply NoDup_sorted, NoDup_omap_id, NoDup_unique. }
  split; [|split].
  - eapply StronglySorted_sublist; [exact Hsub|].
    apply StronglySorted_strict; [apply sorted_StronglySorted | exact Hnd].
  - eapply sublist_NoDup; eauto.
  - intros e He. pose proof (generate_priors_entries _ _ _ _ _ Hdoc He) as Hprior.
    destruct (team_prior_inv _ _ _ Hprior) as (cs & Hcs & Hlt & _).
    destruct (close_rows df (p_team e)) as [|r rs] eqn:Hrows.
    + simpl in Hcs. injection Hcs as <-. discriminate Hlt.
    + exists r. apply in_close_rows. rewrite Hrows. now left.
Qed.

Lemma priors_are_sorted_by_team_witness :
  StronglySorted string_lt (map p_team (priors doc_teams))
  /\ NoDup (map p_team (priors doc_teams))
  /\ forall e, In e (priors doc_teams) ->
               exists r, In r (df_rows df_teams) /\ team r = Some (p_team e).
Proof.
  apply (priors_are_sorted_by_team df_teams "2025-26" "2026-01-05T03:12:45" doc_teams).
  vm_compute. reflexivity.
Defined.

Example priors_of_df_teams : map p_team (priors doc_teams) = ["ATL"; "MIA"]%string.
Proof. vm_compute. reflexivity. Qed.

(** ** When the aggregator fails *)

(** X15.  The aggregator fails in one case only: when the team column of
    the table holds both NaN (a team text read back as missing) and a
    string, [sorted] raises [TypeError].  In every other case it returns a
    document (numpy's "weights sum to zero" error and [int()] of a missing
    total cannot occur behind the sample thresholds): the document carries
    the season it was given; for an empty table it has no league, no
    timestamp and no entry, and otherwise it carries the league "NBA" and
    the timestamp. *)
Theorem aggregator_fails_only_on_a_mixed_team_column df season0 now0 :
  ((exists r, In r (df_rows df) /\ team r = None)
   /\ (exists r s, In r (df_rows df) /\ team r = Some s)
   /\ generate_priors df season0 now0 = Raise TypeError)
  \/ (~ ((exists r, In r (df_rows df) /\ team r = None)
         /\ (exists r s, In r (df_rows df) /\ team r = Some s))
      /\ exists doc,
          generate_priors df season0 now0 = Ok doc
          /\ season doc = season0
          /\ (df_rows df = [] ->
              league doc = None /\ generated_at doc = None /\ priors doc = [])
          /\ (df_rows df <> [] ->
              league doc = Some "NBA"%string /\ generated_at doc = Some now0)).
Proof.
  assert (Hnan : In None (unique (map team (df_rows df)))
                 <-> exists r, In r (df_rows df) /\ team r = None).
  { rewrite in_unique, in_map_iff. split; intros (r & H1 & H2); eauto. }
  assert (Hstr : (exists s, In (Some s) (unique (map team (df_rows df))))
                 <-> exists r s, In r (df_rows df) /\ team r = Some s).
  { split.
    - intros (s & Hs). apply in_unique, in_map_iff in Hs as (r & H1 & H2). eauto.
    - intros (r & s & H1 & H2). exists s. apply in_unique, in_map_iff. eauto. }
  assert (Hcase : df_rows df = [] \/ df_rows df <> []).
  { destruct (df_rows df); [left | right]; congruence. }
  destruct Hcase as [Hnil | Hne].
  - right. split; [intros [(r & Hr & _) _]; rewrite Hnil in Hr; destruct Hr|].
    unfold generate_priors. rewrite Hnil.
    eexists. split; [reflexivity|]. simpl. split; [reflexivity|]. split; [auto|].
    intros H. contradiction.
  - rewrite (generate_priors_nonempty _ _ _ Hne).
    destruct (py_sorted_cases (unique (map team (df_rows df))))
      as [(-> & Hn & Hs) | [(-> & Hall) | (-> & Hn & Hs)]].
    + left. split; [apply Hnan; exact Hn|]. split; [apply Hstr; exact Hs|]. reflexivity.
    + right. split.
      * intros [_ Hs']. apply Hstr in Hs' as (s & Hs'). apply Hall in Hs'. discriminate.
      * destruct (collect_total (prior_of df) (unique (map team (df_rows df)))
                    (prior_of_total df)) as [ps Hps].
        simpl. rewrite Hps. simpl.
        eexists. split; [reflexivity|]. simpl. split; [reflexivity|].
        split; [intros H; contradiction | auto].
    + right. split.
      * intros [Hn' _]. apply Hnan in Hn'. contradiction.
      * destruct (collect_total (prior_of df)
                    (map Some (sorted (omap id (unique (map team (df_rows df))))))
                    (prior_of_total df)) as [ps Hps].
        simpl. rewrite Hps. simpl.
        eexists. split; [reflexivity|]. simpl. split; [reflexivity|].
        split; [intros H; contradiction | auto].
Qed.

(** The table read back from [files_blank] mixes NaN with a string. *)
Example aggregator_fails_on_files_blank :
  map team (df_rows (load_raw_cache (raw_csv files_blank))) = [None; Some "NYK"%string]
  /\ generate_priors (load_raw_cache (raw_csv files_blank)) "2025-26" "2026-01-05T03:12:45"
     = Raise TypeError.
Proof. split; vm_compute; reflexivity. Qed.

(** ** Uploading what the aggregator wrote *)

Lemma priors_teams_NoDup df season0 now0 doc :
  generate_priors df season0 now0 = Ok doc -> NoDup (map p_team (priors doc)).
Proof.
  intros H. eapply sublist_NoDup; [|exact (priors_teams_sublist _ _ _ _ H)].
  apply NoDup_sorted, NoDup_omap_id, NoDup_unique.
Qed.

(** X16.  Given both environment variables and the document the
    aggregator wrote, the upload script hands the upsert one row per
    entry, in order, all with league "NBA" and the document's season, and
    with pairwise distinct [(league, season, team_abbr)]: no two rows of
    one upsert meet on its conflict key.  It reports that no priors were
    found exactly when the document has no entry. *)
Theorem upload_rows_have_distinct_keys df season0 now0 doc url key :
  generate_priors df season0 now0 = Ok doc ->
  env_missing (Some url) = false -> env_missing (Some key) = false ->
  (priors doc = [] /\ upload_main (Some url) (Some key) (Some doc) = NoPriorsFound)
  \/ (priors doc <> []
      /\ exists rows0,
          upload_main (Some url) (Some key) (Some doc) = Upserted rows0
          /\ map u_team_abbr rows0 = map p_team (priors doc)
          /\ Forall (fun r => u_league r = "NBA"%string /\ u_season r = season0) rows0
          /\ NoDup (map conflict_key rows0)).
Proof.
  intros Hdoc Hurl Hkey. unfold upload_main. rewrite Hurl, Hkey. simpl.
  pose proof (priors_teams_NoDup _ _ _ _ Hdoc) as Hnd.
  assert (Hrows : map u_team_abbr (upload_rows doc) = map p_team (priors doc)).
  { unfold upload_rows. rewrite map_map. reflexivity. }
  destruct (priors doc) as [|p ps] eqn:Hps.
  - left. unfold upload_rows. rewrite Hps. auto.
  - right. split; [discriminate|]. exists (upload_rows doc).
    assert (Hne : upload_rows doc <> []).
    { unfold upload_rows. rewrite Hps. discriminate. }
    split; [destruct (upload_rows doc); [congruence | reflexivity]|].
    split; [exact Hrows|]. split.
    + unfold upload_rows. apply Forall_forall. intros r Hr.
      rewrite list_elem_of_In, in_map_iff in Hr. destruct Hr as (q & <- & _). simpl.
      apply generate_priors_inv in Hdoc as [[_ ->] | (_ & teams & _ & _ & -> & -> & _)].
      * discriminate.
      * auto.
    + rewrite <- Hrows in Hnd.
      assert (Hkeys : map u_team_abbr (upload_rows doc)
                      = map (fun k => k.2) (map conflict_key (upload_rows doc))).
      { rewrite map_map. reflexivity. }
      rewrite Hkeys in Hnd. revert Hnd. generalize (map conflict_key (upload_rows doc)).
      intros l. induction l as [|k l IH]; simpl; intros Hnd; [constructor|].
      apply NoDup_cons in Hnd as [Hk Hl]. apply NoDup_cons. split; [|auto].
      intros Hin. apply Hk. apply list_elem_of_fmap. eauto.
Qed.

Lemma upload_rows_have_distinct_keys_witness :
  (priors doc_teams = []
   /\ upload_main (Some "https://project.supabase.co"%string) (Some "service-role"%string)
        (Some doc_teams) = NoPriorsFound)
  \/ (priors doc_teams <> []
      /\ exists rows0,
          upload_main (Some "https://project.supabase.co"%string) (Some "service-role"%string)
            (Some doc_teams) = Upserted rows0
          /\ map u_team_abbr rows0 = map p_team (priors doc_teams)
          /\ Forall (fun r => u_league r = "NBA"%string /\ u_season r = "2025-26"%string) rows0
          /\ NoDup (map conflict_key rows0)).
Proof.
  apply (upload_rows_have_distinct_keys df_teams "2025-26" "2026-01-05T03:12:45" doc_teams
           "https://project.supabase.co" "service-role");
    vm_compute; reflexivity.
Defined.

(** ** The response patch *)

Lemma key_eqb_sym a b : key_eqb a b = key_eqb b a.
Proof.
  destruct a, b; simpl; try reflexivity;
    try (apply String.eqb_sym);
    apply eq_true_iff_eq; rewrite !Qeq_bool_iff; split; intros H; symmetry; exact H.
Qed.

Lemma key_eqb_trans a b c : key_eqb a b = true -> key_eqb c a = key_eqb c b.
Proof.
  destruct a, b; simpl; try discriminate; intros H.
  all: try reflexivity.
  all: try (apply String.eqb_eq in H; subst; reflexivity).
  all: destruct c; simpl; try reflexivity.
  all: apply Qeq_bool_iff in H.
  all: apply eq_true_iff_eq; rewrite !Qeq_bool_iff; rewrite H; reflexivity.
Qed.

Lemma dict_get_set k k' v d :
  dict_get k (dict_set k' v d) = if key_eqb k k' then Some v else dict_get k d.
Proof.
  unfold dict_get. induction d as [|[k2 v2] d IH]; simpl.
  - destruct (key_eqb k k'); reflexivity.
  - destruct (key_eqb k' k2) eqn:E2; simpl.
    + rewrite <- (key_eqb_trans _ _ k E2). destruct (key_eqb k k'); reflexivity.
    + destruct (key_eqb k k2) eqn:E; simpl.
      * destruct (key_eqb k k') eqn:E'; [|reflexivity].
        rewrite key_eqb_sym, (key_eqb_trans _ _ k2 E'), key_eqb_sym in E. congruence.
      * exact IH.
Qed.

Lemma dict_set_keys k v d :
  exists rest, map fst (dict_set k v d) = map fst d ++ rest.
Proof.
  induction d as [|[k2 v2] d [rest IH]]; simpl.
  - eauto.
  - destruct (key_eqb k k2); simpl.
    + exists []. rewrite app_nil_r. reflexivity.
    + exists rest. rewrite IH. reflexivity.
Qed.

(** What the [rowSet] step does to a dict. *)
Lemma with_data_dict d :
  with_data (JDict d)
  = Ok (JDict (match dict_get (JStr "rowSet") d, dict_get (JStr "data") d with
               | Some rs, None => dict_set (JStr "data") rs d
               | _, _ => d
               end)).
Proof.
  unfold with_data, py_contains, py_getitem, py_setitem. simpl.
  destruct (dict_get (JStr "rowSet") d) as [rs|] eqn:Hrs; simpl.
  - destruct (dict_get (JStr "data") d) as [x|] eqn:Hd; simpl.
    + reflexivity.
    + reflexivity.
  - reflexivity.
Qed.

Lemma with_data_name d d' :
  with_data (JDict d) = Ok (JDict d') ->
  dict_get (JStr "name") d' = dict_get (JStr "name") d.
Proof.
  rewrite with_data_dict. intros [= <-].
  destruct (dict_get (JStr "rowSet") d); [|reflexivity].
  destruct (dict_get (JStr "data") d); [reflexivity|].
  rewrite dict_get_set. reflexivity.
Qed.

Lemma store_by_name_fileable results d n :
  dict_get (JStr "name") d = Some n -> hashable n = true ->
  store_by_name results (JDict d) = Ok (dict_set n (normalized (JDict d)) results).
Proof.
  intros Hn Hh. unfold store_by_name, normalized.
  pose proof (with_data_name d) as Hname.
  rewrite with_data_dict in *. simpl.
  unfold py_getitem. rewrite (Hname _ eq_refl), Hn. simpl. rewrite Hh. reflexivity.
Qed.

Lemma last_named_cons k ds sets :
  last_named k (ds :: sets)
  = match last_named k sets with
    | Some x => Some x
    | None => match set_name ds with
              | Some n => if key_eqb k n then Some ds else None
              | None => None
              end
    end.
Proof.
  unfold last_named. simpl.
  destruct (set_name ds) as [n|]; [destruct (key_eqb k n)|].
  all: try (destruct (last (List.filter _ sets)); reflexivity).
  rewrite last_cons. reflexivity.
Qed.

Lemma by_name_fileable sets :
  Forall fileable sets ->
  forall acc, exists results,
    by_name sets acc = Ok results
    /\ forall k, dict_get k results
                 = match last_named k sets with
                   | Some ds => Some (normalized ds)
                   | None => dict_get k acc
                   end.
Proof.
  induction 1 as [|ds sets (d & -> & Hhash) _ IH]; intros acc.
  - exists acc. split; reflexivity.
  - cbn [by_name py_contains]. simpl.
    destruct (dict_get (JStr "name") d) as [n|] eqn:Hn.
    + rewrite bool_decide_true by eauto.
      rewrite (store_by_name_fileable acc d n Hn (Hhash _ eq_refl)). simpl.
      destruct (IH (dict_set n (normalized (JDict d)) acc)) as (results & Hres & Hget).
      exists results. split; [exact Hres|]. intros k.
      rewrite Hget, last_named_cons. simpl. rewrite Hn.
      destruct (last_named k sets); [reflexivity|].
      rewrite dict_get_set. destruct (key_eqb k n); reflexivity.
    + rewrite bool_decide_false by (intros [? ?]; discriminate).
      destruct (IH acc) as (results & Hres & Hget).
      exists results. split; [exact Hres|]. intros k.
      rewrite Hget, last_named_cons. simpl. rewrite Hn.
      destruct (last_named k sets); reflexivity.
Qed.

(** X17.  For a response with the plural envelope (a list under
    [resultSets], no [resultSet]) whose sets are dicts named, if at all,
    by hashable values, the patch returns a dict in which every key leads
    to the last set of the list filed under it, with [data] filled in;
    sets without a name are left out. *)
Theorem plural_sets_are_filed_by_name fields sets :
  dict_get (JStr "resultSet") fields = None ->
  dict_get (JStr "resultSets") fields = Some (JList sets) ->
  Forall fileable sets ->
  exists results,
    patched_get_data_sets (Ok (JDict fields)) = Returned (JDict results)
    /\ forall k, dict_get k results = normalized <$> last_named k sets.
Proof.
  intros Hsingular Hplural Hsets.
  destruct (by_name_fileable sets Hsets []) as (results & Hres & Hget).
  exists results. split.
  - unfold patched_get_data_sets, patched_body, py_contains, py_getitem. simpl.
    rewrite Hsingular. rewrite bool_decide_false by (intros [? ?]; discriminate).
    simpl. rewrite Hplural. rewrite bool_decide_true by eauto. simpl.
    rewrite Hres. reflexivity.
  - intros k. rewrite Hget. destruct (last_named k sets); reflexivity.
Qed.

Lemma plural_sets_are_filed_by_name_witness :
  exists results,
    patched_get_data_sets (Ok envelope_plural) = Returned (JDict results)
    /\ forall k,
        dict_get k results
        = normalized
            <$> last_named k
                  [JDict [(JStr "name", JStr "LineScore");
                          (JStr "headers", JList [JStr "TEAM_ID"; JStr "PTS_QTR1"]);
                          (JStr "rowSet", JList [JList [JNum 1610612737; JNum 31]])];
                   JDict [(JStr "headers", JList [])];
                   JDict [(JStr "name", JStr "LineScore");
                          (JStr "headers", JList [JStr "TEAM_ID"; JStr "PTS_QTR1"]);
                          (JStr "rowSet", JList [JList [JNum 1610612748; JNum 24]])]].
Proof.
  apply (plural_sets_are_filed_by_name
           [(JStr "resource", JStr "boxscoresummary");
            (JStr "resultSets",
             JList [JDict [(JStr "name", JStr "LineScore");
                           (JStr "headers", JList [JStr "TEAM_ID"; JStr "PTS_QTR1"]);
                           (JStr "rowSet", JList [JList [JNum 1610612737; JNum 31]])];
                    JDict [(JStr "headers", JList [])];
                    JDict [(JStr "name", JStr "LineScore");
                           (JStr "headers", JList [JStr "TEAM_ID"; JStr "PTS_QTR1"]);
                           (JStr "rowSet", JList [JList [JNum 1610612748; JNum 24]])]])]).
  - reflexivity.
  - reflexivity.
  - repeat constructor; eexists; (split; [reflexivity|]); simpl; intros n [= <-]; reflexivity.
Defined.

(** The envelope above: the later of the two sets named alike is the one
    kept, with [data] added after its own fields. *)
Example envelope_plural_result :
  patched_get_data_sets (Ok envelope_plural)
  = Returned
      (JDict [(JStr "LineScore",
               JDict [(JStr "name", JStr "LineScore");
                      (JStr "headers", JList [JStr "TEAM_ID"; JStr "PTS_QTR1"]);
                      (JStr "rowSet", JList [JList [JNum 1610612748; JNum 24]]);
                      (JStr "data", JList [JList [JNum 1610612748; JNum 24]])])]).
Proof. vm_compute. reflexivity. Qed.

(** X18.  The [rowSet] step never fails on a dict and loses nothing: every
    field other than [data] reads as before, the fields keep their order
    (a new one goes last), [data] is what it was if it was there and the
    [rowSet] otherwise, and a second pass changes nothing. *)
Theorem rowset_step_keeps_every_field d :
  exists d',
    with_data (JDict d) = Ok (JDict d')
    /\ (forall k, key_eqb k (JStr "data") = false -> dict_get k d' = dict_get k d)
    /\ dict_get (JStr "data") d'
       = match dict_get (JStr "data") d with
         | Some x => Some x
         | None => dict_get (JStr "rowSet") d
         end
    /\ (exists rest, map fst d' = map fst d ++ rest)
    /\ with_data (JDict d') = Ok (JDict d').
Proof.
  rewrite with_data_dict.
  destruct (dict_get (JStr "rowSet") d) as [rs|] eqn:Hrs;
    [destruct (dict_get (JStr "data") d) as [x|] eqn:Hd|].
  - exists d. split; [reflexivity|]. split; [auto|]. split; [rewrite Hd; reflexivity|].
    split; [exists []; rewrite app_nil_r; reflexivity|].
    rewrite with_data_dict, Hrs, Hd. reflexivity.
  - exists (dict_set (JStr "data") rs d). split; [reflexivity|]. split; [|split; [|split]].
    + intros k Hk. rewrite dict_get_set, Hk. reflexivity.
    + rewrite dict_get_set, Hd. reflexivity.
    + apply dict_set_keys.
    + rewrite with_data_dict, !dict_get_set. simpl. rewrite Hrs. reflexivity.
  - exists d. split; [reflexivity|]. split; [auto|]. split.
    + destruct (dict_get (JStr "data") d); reflexivity.
    + split; [exists []; rewrite app_nil_r; reflexivity|].
      rewrite with_data_dict, Hrs. reflexivity.
Qed.

Lemma patched_singular fields ds :
  dict_get (JStr "resultSet") fields = Some ds ->
  patched_body (Ok (JDict fields))
  = match ds with
    | JNull => Ok None
    | JList l => results ← by_name l []; Ok (Some (JDict results))
    | JDict _ =>
        named ← py_contains "name" ds;
        if (named : bool) then (results ← store_by_name [] ds; Ok (Some (JDict results)))
        else Ok (Some ds)
    | _ => Ok (Some ds)
    end.
Proof.
  intros H. unfold patched_body, py_contains, py_getitem. simpl.
  rewrite H. rewrite bool_decide_true by eauto. reflexivity.
Qed.

(** X19.  When the response has a [resultSet], nothing else in it matters,
    a [resultSets] beside it included; a [resultSet] that is a dict with a
    hashable name is returned wrapped under that name, with [data] filled
    in, and a dict without a name (the mapping itself) as it is. *)
Theorem singular_envelope_takes_precedence fields d :
  dict_get (JStr "resultSet") fields = Some (JDict d) ->
  (forall n, dict_get (JStr "name") d = Some n -> hashable n = true) ->
  patched_get_data_sets (Ok (JDict fields))
  = patched_get_data_sets (Ok (JDict [(JStr "resultSet", JDict d)]))
  /\ patched_get_data_sets (Ok (JDict fields))
     = Returned (match dict_get (JStr "name") d with
                 | Some n => JDict [(n, normalized (JDict d))]
                 | None => JDict d
                 end).
Proof.
  intros Hget Hhash.
  assert (Hone : dict_get (JStr "resultSet") [(JStr "resultSet", JDict d)] = Some (JDict d))
    by reflexivity.
  unfold patched_get_data_sets.
  rewrite (patched_singular _ _ Hget), (patched_singular _ _ Hone).
  split; [reflexivity|]. unfold py_contains. simpl.
  destruct (dict_get (JStr "name") d) as [n|] eqn:Hn.
  - rewrite bool_decide_true by eauto.
    rewrite (store_by_name_fileable [] d n Hn (Hhash _ eq_refl)). reflexivity.
  - rewrite bool_decide_false by (intros [? ?]; discriminate). reflexivity.
Qed.

Lemma singular_envelope_takes_precedence_witness :
  patched_get_data_sets
    (Ok (JDict [(JStr "resultSets", JList []);
                (JStr "resultSet", JDict [(JStr "name", JStr "LeagueGameLog");
                                          (JStr "rowSet", JList [])])]))
  = patched_get_data_sets
      (Ok (JDict [(JStr "resultSet", JDict [(JStr "name", JStr "LeagueGameLog");
                                            (JStr "rowSet", JList [])])]))
  /\ patched_get_data_sets
       (Ok (JDict [(JStr "resultSets", JList []);
                   (JStr "resultSet", JDict [(JStr "name", JStr "LeagueGameLog");
                                             (JStr "rowSet", JList [])])]))
     = Returned (match dict_get (JStr "name") [(JStr "name", JStr "LeagueGameLog");
                                               (JStr "rowSet", JList [])] with
                 | Some n => JDict [(n, normalized (JDict [(JStr "name", JStr "LeagueGameLog");
                                                           (JStr "rowSet", JList [])]))]
                 | None => JDict [(JStr "name", JStr "LeagueGameLog"); (JStr "rowSet", JList [])]
                 end).
Proof.
  apply (singular_envelope_takes_precedence
           [(JStr "resultSets", JList []);
            (JStr "resultSet", JDict [(JStr "name", JStr "LeagueGameLog");
                                      (JStr "rowSet", JList [])])]
           [(JStr "name", JStr "LeagueGameLog"); (JStr "rowSet", JList [])]).
  - reflexivity.
  - simpl. intros n [= <-]. reflexivity.
Defined.

Lemma by_name_Raise sets ds acc :
  In ds sets -> not_iterable ds = true -> exists e, by_name sets acc = Raise e.
Proof.
  intros Hin Hbad. revert acc. induction sets as [|x sets IH]; intros acc; [destruct Hin|].
  cbn [by_name]. destruct Hin as [-> | Hin].
  - exists TypeError. destruct ds; try discriminate; reflexivity.
  - destruct (py_contains "name" x) as [[|]|e]; simpl; eauto.
    destruct (store_by_name acc x) as [acc'|e]; simpl; eauto.
Qed.

(** X20.  One set that is neither a dict, a list nor a string (a null, a
    boolean, a number) anywhere in the list under [resultSets] makes the
    patch hand the whole response over to the library's own reader: the
    sets that could be filed are not returned. *)
Theorem one_bad_set_discards_the_rest fields sets ds :
  dict_get (JStr "resultSet") fields = None ->
  dict_get (JStr "resultSets") fields = Some (JList sets) ->
  In ds sets -> not_iterable ds = true ->
  patched_get_data_sets (Ok (JDict fields)) = Original.
Proof.
  intros Hsingular Hplural Hin Hbad.
  destruct (by_name_Raise sets ds [] Hin Hbad) as [e He].
  unfold patched_get_data_sets, patched_body, py_contains, py_getitem. simpl.
  rewrite Hsingular. rewrite bool_decide_false by (intros [? ?]; discriminate).
  simpl. rewrite Hplural. rewrite bool_decide_true by eauto. simpl.
  rewrite He. reflexivity.
Qed.

Lemma one_bad_set_discards_the_rest_witness :
  patched_get_data_sets
    (Ok (JDict [(JStr "resultSets",
                 JList [JDict [(JStr "name", JStr "LineScore"); (JStr "rowSet", JList [])];
                        JNull])]))
  = Original.
Proof.
  apply (one_bad_set_discards_the_rest
           [(JStr "resultSets",
             JList [JDict [(JStr "name", JStr "LineScore"); (JStr "rowSet", JList [])];
                    JNull])]
           [JDict [(JStr "name", JStr "LineScore"); (JStr "rowSet", JList [])]; JNull]
           JNull).
  - reflexivity.
  - reflexivity.
  - simpl. auto.
  - reflexivity.
Defined.

(** X21.  A response that is not a JSON object (a failed parse, a list, a
    string, a number, a null), or an object with neither [resultSet] nor
    [resultSets], is handed over to the library's own reader. *)
Theorem unknown_shapes_go_to_the_original raw :
  match raw with
  | Raise _ => True
  | Ok (JDict fields) =>
      dict_get (JStr "resultSet") fields = None
      /\ dict_get (JStr "resultSets") fields = None
  | Ok _ => True
  end ->
  patched_get_data_sets raw = Original.
Proof.
  unfold patched_get_data_sets, patched_body, py_contains, py_getitem.
  destruct raw as [[| b | q | s | l | fields]|e]; simpl; try reflexivity.
  - intros _. destruct (contains "resultSet" s); simpl; [reflexivity|].
    destruct (contains "resultSets" s); reflexivity.
  - intros _. destruct (existsb (key_eqb (JStr "resultSet")) l); simpl; [reflexivity|].
    destruct (existsb (key_eqb (JStr "resultSets")) l); reflexivity.
  - intros [H1 H2]. rewrite H1, H2.
    rewrite !bool_decide_false by (intros [? ?]; discriminate). reflexivity.
Qed.

Lemma unknown_shapes_go_to_the_original_witness :
  patched_get_data_sets (Ok (JList [JStr "resultSet"])) = Original.
Proof.
  apply (unknown_shapes_go_to_the_original (Ok (JList [JStr "resultSet"]))).
  simpl. exact I.
Defined.
